(** * esp32_cloud / security_cam: the four Lambda handlers

    A shallow embedding of [lambda_src/presign.py], [notify.py], [list.py]
    and [manage.py], and the properties of the naming / tagging protocol
    that connects them.

    Conventions of the embedding.
    - In the handlers a Python [str] (an object key, a name, a message)
      is a Rocq [string], whose characters are the code points below 256.
      [parse_timestamp], the one function that looks at what kind of
      character it reads, is also embedded on texts of arbitrary code
      points ([Unicode.parse_timestamp]), where [\d] is any decimal digit
      of Unicode; the version on strings is proved to agree with it.
    - The boto3 clients are an explicit record of reply functions
      ([aws_client]).  A reply may depend on every call made before it, so
      any deterministic behaviour of the storage and mail services,
      including failures injected at an arbitrary point, is an instance.
    - Handlers run in a state-and-exception monad over the [world]: the
      chronological list of service calls and the lines printed so far.
      A raised exception keeps the world reached so far, as in Python.
    - [json.dumps] is kept symbolic: a response body is the value that is
      serialised, not its text. *)

From Stdlib Require Import String Ascii List ZArith Lia Bool Sorted Floats.
From stdpp Require Import gmap strings.
Import ListNotations.
Open Scope string_scope.
Open Scope list_scope.
Set Warnings "-register-all".

(** ** Python string primitives *)

Module Py.

(** [s.startswith(p)] *)
Definition startswith (s p : string) : bool := String.prefix p s.

(** [s.endswith(p)] *)
Definition endswith (s p : string) : bool :=
  (String.length p <=? String.length s)%nat &&
  String.eqb (substring (String.length s - String.length p) (String.length p) s) p.

(** [s[a:-b]] for literal [a], [b] >= 0 with [b] > 0: the characters from
    index [a] up to, not including, index [len(s) - b]; empty when the two
    bounds cross. *)
Definition slice (s : string) (a b : nat) : string :=
  substring a (String.length s - b - a) s.

(** [s.split(sep)[0]] for a one-character separator: everything before
    the first occurrence, the whole string when there is none. *)
Fixpoint split_first (sep : ascii) (s : string) : string :=
  match s with
  | EmptyString => EmptyString
  | String c rest =>
      if Ascii.eqb c sep then EmptyString else String c (split_first sep rest)
  end.

(** [s.split(sep)[-1]]: everything after the last occurrence of the
    separator. *)
Fixpoint split_last (sep : ascii) (s : string) : string :=
  match s with
  | EmptyString => EmptyString
  | String c rest =>
      if existsb (Ascii.eqb sep) (list_ascii_of_string rest)
      then split_last sep rest
      else if Ascii.eqb c sep then rest else s
  end.

(** Truth value of an optional string: [None] and [''] are falsy. *)
Definition truthy_opt_str (o : option string) : bool :=
  match o with
  | None => false
  | Some s => negb (String.eqb s "")
  end.

(** [str < str]: lexicographic on code points. *)
Definition str_lt (a b : string) : bool := String.ltb a b.

End Py.

(** ** Exceptions, worlds and the handler monad *)

(** The exceptions that reach the handlers.  [ClientError] is botocore's
    error for a request the service answered with an error;
    [JSONDecodeError], [TypeError] and [AttributeError] are the built-in
    ones [manage.py] meets; every other subclass of [Exception]
    (connection failures, missing credentials, parameter validation) is
    told apart by class name only.  The string is what [str(e)] gives. *)
Inductive exn :=
| ClientError (msg : string)
| JSONDecodeError (msg : string)
| TypeError (msg : string)
| AttributeError (msg : string)
| OtherException (cls msg : string).

Definition str_of_exn (e : exn) : string :=
  match e with
  | ClientError m | JSONDecodeError m | TypeError m | AttributeError m
  | OtherException _ m => m
  end.

Definition is_ClientError (e : exn) : bool :=
  match e with ClientError _ => true | _ => false end.

Definition is_JSONDecodeError_or_TypeError (e : exn) : bool :=
  match e with JSONDecodeError _ | TypeError _ => true | _ => false end.

(** A call on one of the two clients, with the keyword arguments the
    handlers pass. *)
Inductive call :=
| GeneratePresignedUrl (method bucket key : string) (expires_in : Z)
| PutObjectTagging (bucket key : string) (tag_set : list (string * string))
| GetObjectTagging (bucket key : string)
| HeadObject (bucket key : string)
| DeleteObjects (bucket : string) (keys : list string) (quiet : bool)
| ListObjectsV2 (bucket prefix : string) (page_size : Z) (page_index : nat)
| SendEmail (source : string) (to_addresses : list string) (subject body : string).

Inductive result (A : Type) :=
| Ok (a : A)
| Raise (e : exn).
Arguments Ok {A} a.
Arguments Raise {A} e.

Record world := World { calls : list call; stdout : list string }.

Definition empty_world : world := World [] [].

Definition M (A : Type) : Type := world -> result A * world.

Definition ret {A} (a : A) : M A := fun w => (Ok a, w).

Definition bind {A B} (m : M A) (k : A -> M B) : M B :=
  fun w =>
    match m w with
    | (Ok a, w') => k a w'
    | (Raise e, w') => (Raise e, w')
    end.

Definition raise {A} (e : exn) : M A := fun w => (Raise e, w).

(** A value or an exception computed without touching the world. *)
Definition lift {A} (r : result A) : M A := fun w => (r, w).

(** [try: body  except <classes> as e: handler e], where [catches] tells
    the classes named by the clause. *)
Definition try_except {A} (catches : exn -> bool) (body : M A) (handler : exn -> M A) : M A :=
  fun w =>
    match body w with
    | (Raise e, w') => if catches e then handler e w' else (Raise e, w')
    | r => r
    end.

(** [except Exception] catches every class of [exn]. *)
Definition any_Exception (e : exn) : bool := true.

(** [print(line)] *)
Definition print (line : string) : M unit :=
  fun w => (Ok tt, World (calls w) (stdout w ++ [line])).

#[global] Instance M_ret : MRet M := @ret.
#[global] Instance M_bind : MBind M := fun A B k m => bind m k.

(** ** The service clients *)

(** A [datetime]; the two that occur ([strptime(...).replace(tzinfo=utc)]
    and botocore's [LastModified]) are both aware and in UTC. *)
Record datetime := Datetime {
  year : nat; month : nat; day : nat;
  hour : nat; minute : nat; second : nat; microsecond : nat
}.

Record s3_object := S3Object {
  Key : string;
  LastModified : datetime;
  Size : Z
}.

(** One page of [list_objects_v2]; ['Contents'] is absent on an empty page. *)
Record page := Page { Contents : option (list s3_object) }.

(** The reply of [get_object_tagging]. *)
Record tagging := Tagging { TagSet : option (list (string * string)) }.

(** What the services answer.  The first argument of every field is the
    list of calls made so far.  [s3_paginate] gives the successive
    outcomes of the paginator's iterator, a finite sequence: each one is
    consumed, and recorded as a call, when the loop asks for it. *)
Record aws_client := AwsClient {
  s3_generate_presigned_url : list call -> string -> string -> string -> Z -> result string;
  s3_put_object_tagging : list call -> string -> string -> list (string * string) -> result unit;
  s3_get_object_tagging : list call -> string -> string -> result tagging;
  s3_head_object : list call -> string -> string -> result unit;
  s3_delete_objects : list call -> string -> list string -> bool -> result unit;
  s3_paginate : list call -> string -> string -> Z -> list (result page);
  ses_send_email : list call -> string -> list string -> string -> string -> result unit
}.

(** Perform a call: record it, and return what the service answers given
    the calls before it. *)
Definition perform {A} (c : call) (reply : list call -> result A) : M A :=
  fun w => (reply (calls w), World (calls w ++ [c]) (stdout w)).

Section Clients.
Variable aws : aws_client.

Definition generate_presigned_url (method bucket key : string) (expires : Z) : M string :=
  perform (GeneratePresignedUrl method bucket key expires)
          (fun h => s3_generate_presigned_url aws h method bucket key expires).

Definition put_object_tagging (bucket key : string) (ts : list (string * string)) : M unit :=
  perform (PutObjectTagging bucket key ts)
          (fun h => s3_put_object_tagging aws h bucket key ts).

Definition get_object_tagging (bucket key : string) : M tagging :=
  perform (GetObjectTagging bucket key)
          (fun h => s3_get_object_tagging aws h bucket key).

Definition head_object (bucket key : string) : M unit :=
  perform (HeadObject bucket key) (fun h => s3_head_object aws h bucket key).

Definition delete_objects (bucket : string) (keys : list string) (quiet : bool) : M unit :=
  perform (DeleteObjects bucket keys quiet)
          (fun h => s3_delete_objects aws h bucket keys quiet).

Definition send_email (source : string) (to : list string) (subject body : string) : M unit :=
  perform (SendEmail source to subject body)
          (fun h => ses_send_email aws h source to subject body).

End Clients.

(** ** [datetime]: the parts of the standard library [list.py] uses *)

Module Datetime.

(** [\d] on a character below 256: there the decimal digits of Unicode
    are ['0'..'9'] and no other ([is_decimal_ord] below). *)
Definition is_digit (c : ascii) : bool :=
  (48 <=? nat_of_ascii c)%nat && (nat_of_ascii c <=? 57)%nat.

Definition digit_val (c : ascii) : nat := nat_of_ascii c - 48.

(** [int(s)] for a string of decimal digits. *)
Definition int_of_digits (s : string) : nat :=
  fold_left (fun acc c => 10 * acc + digit_val c) (list_ascii_of_string s) 0.

Definition digit_char (n : nat) : ascii := ascii_of_nat (48 + n mod 10).

(** ['%02d' % n], ['%04d' % n] and ['%06d' % n] on numbers that fit. *)
Definition pad2 (n : nat) : string :=
  String (digit_char (n / 10)) (String (digit_char n) "").

Definition pad4 (n : nat) : string := pad2 (n / 100) +:+ pad2 (n mod 100).

Definition pad6 (n : nat) : string :=
  pad2 (n / (100 * 100)) +:+ pad4 (n mod (100 * 100)).

Definition is_leap (y : nat) : bool :=
  ((y mod 4 =? 0) && negb (y mod 100 =? 0) || (y mod 400 =? 0))%nat.

Definition days_in_month (y m : nat) : nat :=
  match m with
  | 2 => if is_leap y then 29 else 28
  | 4 | 6 | 9 | 11 => 30
  | _ => 31
  end.

(** [datetime.strptime(s, '%Y%m%d%H%M%S')] on a string [s] of exactly 14
    decimal digits, the only strings [parse_timestamp] passes; [None] is
    [ValueError].

    The format compiles to the pattern
    [(\d\d\d\d)(1[0-2]|0[1-9]|[1-9])(3[01]|[12]\d|0[1-9]|[1-9]| [1-9])
     (2[0-3]|[0-1]\d|\d)([0-5]\d|\d)(6[0-1]|[0-5]\d|\d)]
    which has to consume the whole string.  The six fields take at most
    4+2+2+2+2+2 characters, so on 14 digits every field is two digits wide
    and within the range of its two-digit alternatives; any other match
    leaves unconverted data and raises.  The values then go through the
    [datetime] constructor, which wants a year of at least 1, a day that
    exists in the month and a second below 60.  [Unicode.strptime] below
    runs the pattern itself, on any text; the two agree on these strings
    ([strptime_of_string]). *)
Definition strptime (s : string) : option datetime :=
  let Y := int_of_digits (substring 0 4 s) in
  let m := int_of_digits (substring 4 2 s) in
  let d := int_of_digits (substring 6 2 s) in
  let H := int_of_digits (substring 8 2 s) in
  let Mi := int_of_digits (substring 10 2 s) in
  let S := int_of_digits (substring 12 2 s) in
  if ((1 <=? m) && (m <=? 12) && (1 <=? d) && (d <=? 31) &&
      (H <=? 23) && (Mi <=? 59) && (S <=? 61) &&
      (1 <=? Y) && (d <=? days_in_month Y m) && (S <=? 59))%nat
  then Some (Datetime Y m d H Mi S 0)
  else None.

(** [dt.isoformat()] of an aware datetime in UTC. *)
Definition isoformat (dt : datetime) : string :=
  pad4 (year dt) +:+ "-" +:+ pad2 (month dt) +:+ "-" +:+ pad2 (day dt) +:+ "T" +:+
  pad2 (hour dt) +:+ ":" +:+ pad2 (minute dt) +:+ ":" +:+ pad2 (second dt) +:+
  (if (microsecond dt =? 0)%nat then "" else "." +:+ pad6 (microsecond dt)) +:+
  "+00:00".

End Datetime.

(** ** list.py *)

Module ListPy.

(** *** [re.search(r'_(\d{8})_(\d{6})$', name)] *)

(** Exactly [n] digits at the head of [s]: the digits and what follows. *)
Fixpoint take_digits (n : nat) (s : string) : option (string * string) :=
  match n with
  | 0 => Some ("", s)
  | S n' =>
      match s with
      | String c rest =>
          if Datetime.is_digit c then
            match take_digits n' rest with
            | Some (ds, tl) => Some (String c ds, tl)
            | None => None
            end
          else None
      | EmptyString => None
      end
  end.

Definition newline : string := String (ascii_of_nat 10) "".

(** [$] without [re.MULTILINE]: at the end of the string, or just before
    a newline that is its last character. *)
Definition at_dollar (s : string) : bool :=
  String.eqb s "" || String.eqb s newline.

(** The pattern matched at the head of [s]: its two groups. *)
Definition match_here (s : string) : option (string * string) :=
  match s with
  | String c rest =>
      if Ascii.eqb c "_" then
        match take_digits 8 rest with
        | Some (g1, String c2 rest2) =>
            if Ascii.eqb c2 "_" then
              match take_digits 6 rest2 with
              | Some (g2, tl) => if at_dollar tl then Some (g1, g2) else None
              | None => None
              end
            else None
        | _ => None
        end
      else None
  | EmptyString => None
  end.

(** [re.search]: the match at the leftmost position that has one. *)
Fixpoint re_search (s : string) : option (string * string) :=
  match match_here s with
  | Some g => Some g
  | None =>
      match s with
      | String _ rest => re_search rest
      | EmptyString => None
      end
  end.

Definition parse_timestamp (name : string) : option string :=
  match re_search name with
  | None => None
  | Some (g1, g2) =>
      match Datetime.strptime (g1 +:+ g2) with
      | Some dt => Some (Datetime.isoformat dt)
      | None => None
      end
  end.

(** *** The handler *)

(** [round(obj['Size'] / 1_048_576, 2)] is a float; it is carried as the
    expression it is, over the size in bytes. *)
Inductive megabytes := round2_div_1048576 (size : Z).

(** One element of the returned array. *)
Record clip := Clip {
  clip_key : string;
  clip_url : string;
  thumb_url : option string;
  timestamp : string;
  size_mb : megabytes;
  kept : bool
}.

Record response := Response {
  statusCode : Z;
  headers : list (string * string);
  body : list clip          (* json.dumps(clips) *)
}.

(** [clips.sort(key=lambda c: c['timestamp'], reverse=True)].  The sort
    is stable, also with [reverse=True]: clips with equal timestamps keep
    their order.  The result of a stable sort does not depend on the
    algorithm; it is written here as a right-to-left insertion that puts
    a clip in front of the first one whose timestamp is not greater. *)
Fixpoint insert_desc (c : clip) (l : list clip) : list clip :=
  match l with
  | [] => [c]
  | d :: l' =>
      if Py.str_lt (timestamp c) (timestamp d) then d :: insert_desc c l'
      else c :: l
  end.

Definition sort_desc (l : list clip) : list clip := foldr insert_desc [] l.

(** [any(t['Key'] == 'keep' and t['Value'] == 'true' for t in tag_set)] *)
Definition any_keep_true (tag_set : list (string * string)) : bool :=
  existsb (fun t => String.eqb (fst t) "keep" && String.eqb (snd t) "true") tag_set.

(** Line 64: [key[len('clips/'):-len('.avi')]] *)
Definition basename (key : string) : string :=
  Py.slice key (String.length "clips/") (String.length ".avi").

(** Line 74: [f'thumbs/{name}_thumb.jpg'] *)
Definition thumb_key_of (name : string) : string :=
  "thumbs/" +:+ name +:+ "_thumb.jpg".

Section Handler.
Variable BUCKET : string.
Variable aws : aws_client.

Definition GET_EXPIRY : Z := 7 * 24 * 3600.

(** Lines 73-84: the paired thumbnail's URL, [None] when the probe or
    the signing raises [ClientError]. *)
Definition thumb_url_of (thumb_key : string) : M (option string) :=
  try_except is_ClientError
    (head_object aws BUCKET thumb_key;;
     u ← generate_presigned_url aws "get_object" BUCKET thumb_key GET_EXPIRY;
     mret (Some u))
    (fun _ => mret None).

(** Lines 89-98: the keep tag, [False] when reading it raises
    [ClientError]. *)
Definition read_kept (key : string) : M bool :=
  try_except is_ClientError
    (tags ← get_object_tagging aws BUCKET key;
     mret (any_keep_true (default [] (TagSet tags))))
    (fun _ => mret false).

(** The body of the inner loop (lines 59-107): [None] is [continue],
    [Some c] the dictionary appended to [clips]. *)
Definition clip_of_object (obj : s3_object) : M (option clip) :=
  let key := Key obj in
  if negb (Py.endswith key ".avi") then mret None
  else
    let name := basename key in
    clip_url ← generate_presigned_url aws "get_object" BUCKET key GET_EXPIRY;
    let thumb_key := thumb_key_of name in
    thumb_url ← thumb_url_of thumb_key;
    let ts :=
      let parsed := parse_timestamp name in
      if Py.truthy_opt_str parsed then default "" parsed
      else Datetime.isoformat (LastModified obj) in
    kept ← read_kept key;
    mret (Some (Clip key clip_url thumb_url ts (round2_div_1048576 (Size obj)) kept)).

(** [for obj in page.get('Contents', []): ...] *)
Fixpoint for_objects (objs : list s3_object) (clips : list clip) : M (list clip) :=
  match objs with
  | [] => mret clips
  | obj :: rest =>
      r ← clip_of_object obj;
      for_objects rest (match r with Some c => clips ++ [c] | None => clips end)
  end.

(** [for page in pages: ...]: fetching page [i] is a call of its own,
    made when the loop reaches it. *)
Fixpoint for_pages (i : nat) (pages : list (result page)) (clips : list clip)
  : M (list clip) :=
  match pages with
  | [] => mret clips
  | p :: rest =>
      pg ← perform (ListObjectsV2 BUCKET "clips/" 1000 i) (fun _ => p);
      clips' ← for_objects (default [] (Contents pg)) clips;
      for_pages (S i) rest clips'
  end.

Definition handler : M response :=
  fun w =>
    let pages := s3_paginate aws (calls w) BUCKET "clips/" 1000 in
    (clips ← for_pages 0 pages [];
     mret (Response 200 [("Content-Type", "application/json")] (sort_desc clips))) w.

End Handler.

End ListPy.

(** ** list.py: [parse_timestamp] on text of any code points

    What [parse_timestamp] does depends on which characters count as
    digits, and in a [str] pattern [\d] is every decimal digit of
    Unicode.  Here the function is embedded once more, on the code points
    themselves, with the parts of [re] and of CPython's [_strptime] it
    runs through.  On strings, [ListPy.parse_timestamp] above is this
    function ([parse_timestamp_of_string] below). *)

Module Unicode.

(** A Python [str] as the list of its code points. *)
Definition text : Type := list N.

(** [ord(c)] of a character below 256, and the text of a string of such
    characters. *)
Definition ord (c : ascii) : N := N_of_ascii c.

Definition of_string (s : string) : text := map ord (list_ascii_of_string s).

Section Digits.

(** [unicodedata.decimal(chr(c), None)]: the digit value of a character
    of category Nd.  Beyond ASCII the table is that of the Unicode
    version the interpreter was built with. *)
Variable decimal : N -> option nat.

(** [\d] in a [str] pattern *)
Definition is_decimal (c : N) : bool :=
  match decimal c with Some _ => true | None => false end.

Fixpoint digits_value (acc : nat) (g : text) : option nat :=
  match g with
  | [] => Some acc
  | c :: g' =>
      match decimal c with
      | Some v => digits_value (10 * acc + v) g'
      | None => None
      end
  end.

(** [int(g)] on what a group of the patterns below can hold: decimal
    digits of any script, after blanks.  [None] is [ValueError]. *)
Fixpoint int (g : text) : option nat :=
  match g with
  | [] => None
  | c :: g' => if (c =? ord " ")%N then int g' else digits_value 0 g
  end.

(** *** [re.search(r'_(\d{8})_(\d{6})$', name)] *)

(** Exactly [n] digits at the head of [s]: the digits and what follows. *)
Fixpoint take_digits (n : nat) (s : text) : option (text * text) :=
  match n with
  | 0 => Some ([], s)
  | S n' =>
      match s with
      | c :: rest =>
          if is_decimal c then
            match take_digits n' rest with
            | Some (ds, tl) => Some (c :: ds, tl)
            | None => None
            end
          else None
      | [] => None
      end
  end.

Definition newline : N := 10.

(** [$] without [re.MULTILINE]: at the end of the text, or just before
    a newline that is its last character. *)
Definition at_dollar (s : text) : bool :=
  match s with
  | [] => true
  | [c] => (c =? newline)%N
  | _ => false
  end.

(** The pattern matched at the head of [s]: its two groups. *)
Definition match_here (s : text) : option (text * text) :=
  match s with
  | c :: rest =>
      if (c =? ord "_")%N then
        match take_digits 8 rest with
        | Some (g1, c2 :: rest2) =>
            if (c2 =? ord "_")%N then
              match take_digits 6 rest2 with
              | Some (g2, tl) => if at_dollar tl then Some (g1, g2) else None
              | None => None
              end
            else None
        | _ => None
        end
      else None
  | [] => None
  end.

(** [re.search]: the match at the leftmost position that has one. *)
Fixpoint re_search (s : text) : option (text * text) :=
  match match_here s with
  | Some g => Some g
  | None =>
      match s with
      | _ :: rest => re_search rest
      | [] => None
      end
  end.

(** *** [datetime.strptime(s, '%Y%m%d%H%M%S')]

    [_strptime] turns the format into one pattern, a group of
    alternatives for each directive, and matches it at the start of the
    string.  Every alternative is a sequence of character classes: a
    range of ASCII characters, or [\d].  (The pattern is compiled with
    [re.IGNORECASE], which changes nothing for digits and the blank.) *)

Inductive cclass :=
| Range (lo hi : ascii)
| D.

Definition in_class (k : cclass) (c : N) : bool :=
  match k with
  | Range lo hi => (ord lo <=? c)%N && (c <=? ord hi)%N
  | D => is_decimal c
  end.

(** One alternative at the head of [s]: what it matched, and the rest. *)
Fixpoint match_seq (ks : list cclass) (s : text) : option (text * text) :=
  match ks with
  | [] => Some ([], s)
  | k :: ks' =>
      match s with
      | c :: s' =>
          if in_class k c then
            match match_seq ks' s' with
            | Some (g, tl) => Some (c :: g, tl)
            | None => None
            end
          else None
      | [] => None
      end
  end.

(** The first element of [l] on which [f] succeeds. *)
Fixpoint first_of {A B} (f : A -> option B) (l : list A) : option B :=
  match l with
  | [] => None
  | a :: l' => match f a with Some b => Some b | None => first_of f l' end
  end.

(** The groups one after the other, the alternatives of each tried in
    order and given up when what follows cannot match (backtracking):
    what each group matched, and what is left of the string. *)
Fixpoint match_groups (gs : list (list (list cclass))) (s : text)
  : option (list text * text) :=
  match gs with
  | [] => Some ([], s)
  | alts :: gs' =>
      first_of (fun ks =>
                  match match_seq ks s with
                  | Some (g, rest) =>
                      match match_groups gs' rest with
                      | Some (found, tl) => Some (g :: found, tl)
                      | None => None
                      end
                  | None => None
                  end) alts
  end.

(** [%Y]: [(?P<Y>\d\d\d\d)] *)
Definition directive_Y : list (list cclass) := [[D; D; D; D]].

(** [%m]: [(?P<m>1[0-2]|0[1-9]|[1-9])] *)
Definition directive_m : list (list cclass) :=
  [[Range "1" "1"; Range "0" "2"]; [Range "0" "0"; Range "1" "9"]; [Range "1" "9"]].

(** [%d]: [(?P<d>3[0-1]|[1-2]\d|0[1-9]|[1-9]| [1-9])] *)
Definition directive_d : list (list cclass) :=
  [[Range "3" "3"; Range "0" "1"]; [Range "1" "2"; D]; [Range "0" "0"; Range "1" "9"];
   [Range "1" "9"]; [Range " " " "; Range "1" "9"]].

(** [%H]: [(?P<H>2[0-3]|[0-1]\d|\d)] *)
Definition directive_H : list (list cclass) :=
  [[Range "2" "2"; Range "0" "3"]; [Range "0" "1"; D]; [D]].

(** [%M]: [(?P<M>[0-5]\d|\d)] *)
Definition directive_M : list (list cclass) := [[Range "0" "5"; D]; [D]].

(** [%S]: [(?P<S>6[0-1]|[0-5]\d|\d)] *)
Definition directive_S : list (list cclass) :=
  [[Range "6" "6"; Range "0" "1"]; [Range "0" "5"; D]; [D]].

Definition format_regex : list (list (list cclass)) :=
  [directive_Y; directive_m; directive_d; directive_H; directive_M; directive_S].

(** What the constructors [date(Y, m, d)] and [datetime(Y, m, d, H, M, S)]
    accept; anything else is [ValueError]. *)
Definition valid_fields (Y m d H Mi Se : nat) : bool :=
  ((1 <=? Y) && (Y <? 100 * 100) && (1 <=? m) && (m <=? 12) &&
   (1 <=? d) && (d <=? Datetime.days_in_month Y m) &&
   (H <=? 23) && (Mi <=? 59) && (Se <=? 59))%nat.

(** [None] is [ValueError]: the pattern does not match, it leaves
    unconverted data, or the numbers are no date and time. *)
Definition strptime (s : text) : option datetime :=
  match match_groups format_regex s with
  | Some ([gY; gm; gd; gH; gM; gS], []) =>
      match int gY, int gm, int gd, int gH, int gM, int gS with
      | Some Y, Some m, Some d, Some H, Some Mi, Some Se =>
          if valid_fields Y m d H Mi Se then Some (Datetime Y m d H Mi Se 0) else None
      | _, _, _, _, _, _ => None
      end
  | _ => None
  end.

(** Lines 37-46 of list.py.  The result, an ISO 8601 text, is ASCII. *)
Definition parse_timestamp (name : text) : option string :=
  match re_search name with
  | None => None
  | Some (g1, g2) =>
      match strptime (g1 ++ g2) with
      | Some dt => Some (Datetime.isoformat dt)
      | None => None
      end
  end.

End Digits.

End Unicode.

(** ** manage.py *)

Module Manage.

(** What [json.loads] returns. *)
Inductive json :=
| JNull
| JBool (b : bool)
| JInt (n : Z)
| JFloat (f : float)
| JStr (s : string)
| JArr (l : list json)
| JObj (m : gmap string json).

(** [bool(v)] *)
Definition truthy (v : json) : bool :=
  match v with
  | JNull => false
  | JBool b => b
  | JInt n => negb (n =? 0)%Z
  | JFloat f => negb (PrimFloat.eqb f 0%float)
  | JStr s => negb (String.eqb s "")
  | JArr l => match l with [] => false | _ => true end
  | JObj m => negb (bool_decide (m = ∅))
  end.

(** [v.get(k)]: only a [dict] has the method. *)
Definition py_get (v : json) (k : string) : M json :=
  match v with
  | JObj m => mret (default JNull (m !! k))
  | _ => raise (AttributeError "object has no attribute 'get'")
  end.

(** [v.startswith(p)], [v.endswith(p)] and the like: only a [str] has
    the methods; any other value raises on the attribute lookup. *)
Definition as_str (v : json) (method : string) : M string :=
  match v with
  | JStr s => mret s
  | _ => raise (AttributeError ("object has no attribute '" +:+ method +:+ "'"))
  end.

(** [v == 'literal'] *)
Definition eq_str (v : json) (lit : string) : bool :=
  match v with
  | JStr s => String.eqb s lit
  | _ => false
  end.

(** The value given to [json.dumps] for the body. *)
Inductive body :=
| error_body (msg : string)              (* {'error': msg} *)
| error_unknown_action (action : json)   (* {'error': f'Unknown action: {action}'} *)
| ok_body.                               (* {'ok': True} *)

Record response := Response {
  statusCode : Z;
  headers : option (list (string * string));
  body_of : body
}.

Record event := Event { event_body : option string }.

Definition thumb_key (clip_key : string) : string :=
  let name := Py.slice clip_key (String.length "clips/") (String.length ".avi") in
  "thumbs/" +:+ name +:+ "_thumb.jpg".

Section Handler.
Variable BUCKET : string.
Variable aws : aws_client.
(** [json.loads] on a [str]. *)
Variable json_loads : string -> result json.

Definition set_keep_tag (clip_key value : string) : M unit :=
  let tag_set := [("keep", value)] in
  put_object_tagging aws BUCKET clip_key tag_set.

Definition delete_clip (clip_key : string) : M unit :=
  let objects := [clip_key] in
  let tk := thumb_key clip_key in
  objects ← try_except is_ClientError
    (head_object aws BUCKET tk;; mret (objects ++ [tk]))
    (fun _ => mret objects);
  delete_objects aws BUCKET objects true.

(** The last [try] block (lines 72-86) for an [action] and a [clip_key]
    that passed the checks; [Some r] is [return r] from inside it.  The
    handler's [print] is reached from the three branches where [action]
    is a [str]. *)
Definition dispatch (action : json) (clip_key : string) : M (option response) :=
  try_except is_ClientError
    (if eq_str action "keep" then
       set_keep_tag clip_key "true";;
       print ("Marked keep=true: " +:+ clip_key);;
       mret None
     else if eq_str action "unkeep" then
       set_keep_tag clip_key "false";;
       print ("Marked keep=false: " +:+ clip_key);;
       mret None
     else if eq_str action "delete" then
       delete_clip clip_key;;
       print ("Deleted: " +:+ clip_key);;
       mret None
     else
       mret (Some (Response 400 None (error_unknown_action action))))
    (fun e =>
       print ("S3 error for " +:+ match action with JStr a => a | _ => "" end +:+
              " on " +:+ clip_key +:+ ": " +:+ str_of_exn e);;
       mret (Some (Response 500 None (error_body (str_of_exn e))))).

(** [event.get('body') or '{}'] *)
Definition request_text (ev : event) : string :=
  if Py.truthy_opt_str (event_body ev) then default "" (event_body ev) else "{}".

Definition handler (ev : event) : M response :=
  parsed ← try_except is_JSONDecodeError_or_TypeError
    (body ← lift (json_loads (request_text ev));
     action ← py_get body "action";
     clip_key ← py_get body "clip_key";
     mret (inr (action, clip_key)))
    (fun _ => mret (inl (Response 400 None (error_body "Invalid JSON body"))));
  match parsed with
  | inl r => mret r
  | inr (action, clip_key) =>
      if negb (truthy action) || negb (truthy clip_key) then
        mret (Response 400 None (error_body "Missing action or clip_key"))
      else
        key ← as_str clip_key "startswith";
        if negb (Py.startswith key "clips/") || negb (Py.endswith key ".avi") then
          mret (Response 400 None (error_body "clip_key must be clips/*.avi"))
        else
          r ← dispatch action key;
          match r with
          | Some resp => mret resp
          | None =>
              mret (Response 200 (Some [("Content-Type", "application/json")]) ok_body)
          end
  end.

End Handler.

End Manage.

(** ** presign.py *)

Module Presign.

Inductive body :=
| error_body (msg : string)                 (* {'error': msg} *)
| urls_body (clip_url thumb_url : string).  (* {'clip_url': ..., 'thumb_url': ...} *)

Record response := Response {
  statusCode : Z;
  headers : list (string * string);
  body_of : body
}.

(** The two entries of the event the handler reads; each may be absent
    or [None]. *)
Record event := Event {
  event_headers : option (gmap string string);
  queryStringParameters : option (gmap string string)
}.

Definition json_headers : list (string * string) :=
  [("Content-Type", "application/json")].

Section Handler.
Variable BUCKET : string.
Variable API_KEY : string.
Variable aws : aws_client.

Definition PUT_EXPIRY : Z := 300.

Definition handler (ev : event) : M response :=
  let headers : gmap string string := default ∅ (event_headers ev) in
  if negb (bool_decide (headers !! "x-api-key" = Some API_KEY)) then
    mret (Response 403 json_headers (error_body "Forbidden"))
  else
    let params : gmap string string := default ∅ (queryStringParameters ev) in
    let clip := params !! "clip" in
    let thumb := params !! "thumb" in
    if negb (Py.truthy_opt_str clip) || negb (Py.truthy_opt_str thumb) then
      mret (Response 400 json_headers (error_body "Missing clip or thumb parameter"))
    else
      clip_url ← generate_presigned_url aws "put_object" BUCKET
                   ("clips/" +:+ default "" clip) PUT_EXPIRY;
      thumb_url ← generate_presigned_url aws "put_object" BUCKET
                    ("thumbs/" +:+ default "" thumb) PUT_EXPIRY;
      print ("Presigned URLs generated for clip=" +:+ default "" clip +:+
             " thumb=" +:+ default "" thumb);;
      mret (Response 200 json_headers (urls_body clip_url thumb_url)).

End Handler.

End Presign.

(** ** notify.py *)

Module Notify.

(** A notification: [record['s3']['object']['key']]. *)
Record record := Record_ { object_key : string }.

Record event := Event { Records : option (list record) }.

(** Line 39; the dash of the literal is held as its UTF-8 bytes. *)
Definition alert_subject (device_id : string) : string :=
  "Motion detected — " +:+ device_id.

(** Lines 40-45 *)
Definition alert_body (device_id clip_name view_url : string) : string :=
  "Motion detected on " +:+ device_id +:+ ListPy.newline +:+ ListPy.newline +:+
  "Clip: " +:+ clip_name +:+ ListPy.newline +:+ ListPy.newline +:+
  "Download / play (link expires in 7 days):" +:+ ListPy.newline +:+
  view_url +:+ ListPy.newline.

Section Handler.
Variable BUCKET : string.
Variable ALERT_EMAIL : string.
Variable aws : aws_client.
(** [urllib.parse.unquote_plus] *)
Variable unquote_plus : string -> string.

Definition GET_EXPIRY : Z := 7 * 24 * 3600.

(** The body of the loop (lines 24-71). *)
Definition notify_record (r : record) : M unit :=
  let key := unquote_plus (object_key r) in
  if negb (Py.endswith key ".avi") then mret tt
  else
    let clip_name := Py.split_last "/" key in
    let device_id := Py.split_first "_" clip_name in
    view_url ← generate_presigned_url aws "get_object" BUCKET key GET_EXPIRY;
    let subject := alert_subject device_id in
    let body := alert_body device_id clip_name view_url in
    send_email aws ALERT_EMAIL [ALERT_EMAIL] subject body;;
    print ("Alert sent for " +:+ clip_name);;
    try_except any_Exception
      (put_object_tagging aws BUCKET key [("keep", "false")];;
       print ("Tagged keep=false: " +:+ key))
      (fun e => print ("Warning: could not tag " +:+ key +:+ ": " +:+ str_of_exn e)).

(** [for record in event.get('Records', []): ...] *)
Fixpoint for_records (rs : list record) : M unit :=
  match rs with
  | [] => mret tt
  | r :: rest => notify_record r;; for_records rest
  end.

Definition handler (ev : event) : M unit :=
  for_records (default [] (Records ev)).

End Handler.

End Notify.

(** * Vocabulary of the properties, and sample services *)

(** Not in the source: the inverse derivation, as the specification
    words it (strip the [thumbs/] prefix and the [_thumb.jpg] suffix). *)
Definition spec_basename_of_thumb_key (tk : string) : string :=
  Py.slice tk (String.length "thumbs/") (String.length "_thumb.jpg").

(** Unfold the monad and the client calls, and compute. *)
Ltac run :=
  unfold mbind, M_bind, bind, mret, M_ret, ret, raise, lift, try_except,
    perform, print, generate_presigned_url, put_object_tagging,
    get_object_tagging, head_object, delete_objects, send_email in *;
  simpl in *.

(** Concrete services for the examples: each named after the one thing
    it does differently from [all_ok], where every request succeeds. *)
Module Samples.

Definition signed (method bucket key : string) : string :=
  "https://" +:+ bucket +:+ ".s3.example/" +:+ key +:+ "?op=" +:+ method.

Definition all_ok : aws_client := {|
  s3_generate_presigned_url := fun _ method bucket key _ => Ok (signed method bucket key);
  s3_put_object_tagging := fun _ _ _ _ => Ok tt;
  s3_get_object_tagging := fun _ _ _ => Ok (Tagging (Some []));
  s3_head_object := fun _ _ _ => Ok tt;
  s3_delete_objects := fun _ _ _ _ => Ok tt;
  s3_paginate := fun _ _ _ _ => [];
  ses_send_email := fun _ _ _ _ _ => Ok tt
|}.

Definition bucket : string := "cam-clips".

End Samples.

(** The answer of [manage.py] to a request it carried out. *)
Definition ok_response : Manage.response :=
  Manage.Response 200 (Some [("Content-Type", "application/json")]) Manage.ok_body.

(** Requests to [manage.py] about one clip. *)
Module ManageSamples.
Import Manage.

Definition dq : string := String (ascii_of_nat 34) "".

(** The text [{"action": "<a>", "clip_key": "<k>"}]. *)
Definition request (a k : string) : string :=
  "{" +:+ dq +:+ "action" +:+ dq +:+ ": " +:+ dq +:+ a +:+ dq +:+ ", " +:+
  dq +:+ "clip_key" +:+ dq +:+ ": " +:+ dq +:+ k +:+ dq +:+ "}".

(** What [json.loads] makes of that text. *)
Definition parsed (a k : string) : gmap string json :=
  {[ "action" := JStr a; "clip_key" := JStr k ]}.

(** A [json.loads] known at one text only. *)
Definition loads_as (text : string) (v : json) : string -> result json :=
  fun s => if String.eqb s text then Ok v
           else Raise (JSONDecodeError "Expecting value").

Definition clip : string := "clips/cam1_20260221_120000.avi".

(** The thumbnail probe answers 404. *)
Definition no_thumbnail : aws_client := {|
  s3_generate_presigned_url := s3_generate_presigned_url Samples.all_ok;
  s3_put_object_tagging := s3_put_object_tagging Samples.all_ok;
  s3_get_object_tagging := s3_get_object_tagging Samples.all_ok;
  s3_head_object := fun _ _ _ => Raise (ClientError "Not Found");
  s3_delete_objects := s3_delete_objects Samples.all_ok;
  s3_paginate := s3_paginate Samples.all_ok;
  ses_send_email := ses_send_email Samples.all_ok
|}.

Definition run_request (aws : aws_client) (text : string) (v : json) :=
  handler Samples.bucket aws (loads_as text v) (Event (Some text)) empty_world.

End ManageSamples.

(** A batch of two clips for [notify.py], and two services that fail. *)
Module NotifySamples.

(** [unquote_plus] on keys without [%] and [+], which it leaves alone. *)
Definition unquote_plain (s : string) : string := s.

Definition alert_email : string := "owner@example.org".

Definition key1 : string := "clips/cam1_20260221_120000.avi".
Definition key2 : string := "clips/cam2_20260221_120500.avi".

Definition batch : list Notify.record := [Notify.Record_ key1; Notify.Record_ key2].

(** The mail service rejects the alert about [cam1] and accepts others. *)
Definition cam1_mail_rejected : aws_client := {|
  s3_generate_presigned_url := s3_generate_presigned_url Samples.all_ok;
  s3_put_object_tagging := s3_put_object_tagging Samples.all_ok;
  s3_get_object_tagging := s3_get_object_tagging Samples.all_ok;
  s3_head_object := s3_head_object Samples.all_ok;
  s3_delete_objects := s3_delete_objects Samples.all_ok;
  s3_paginate := s3_paginate Samples.all_ok;
  ses_send_email := fun _ _ _ subject _ =>
    if String.eqb subject (Notify.alert_subject "cam1")
    then Raise (ClientError "MessageRejected") else Ok tt
|}.

(** Storage refuses every tag write. *)
Definition tagging_denied : aws_client := {|
  s3_generate_presigned_url := s3_generate_presigned_url Samples.all_ok;
  s3_put_object_tagging := fun _ _ _ _ => Raise (ClientError "AccessDenied");
  s3_get_object_tagging := s3_get_object_tagging Samples.all_ok;
  s3_head_object := s3_head_object Samples.all_ok;
  s3_delete_objects := s3_delete_objects Samples.all_ok;
  s3_paginate := s3_paginate Samples.all_ok;
  ses_send_email := ses_send_email Samples.all_ok
|}.

Definition sign (key : string) : call :=
  GeneratePresignedUrl "get_object" Samples.bucket key Notify.GET_EXPIRY.

Definition send (device_id clip_name key : string) : call :=
  SendEmail alert_email [alert_email] (Notify.alert_subject device_id)
    (Notify.alert_body device_id clip_name (Samples.signed "get_object" Samples.bucket key)).

Definition tag (key : string) : call :=
  PutObjectTagging Samples.bucket key [("keep", "false")].

Definition run (aws : aws_client) (rs : list Notify.record) :=
  Notify.handler Samples.bucket alert_email aws unquote_plain
    (Notify.Event (Some rs)) empty_world.

End NotifySamples.

(** [c] is not older than [d]: [not (c.timestamp < d.timestamp)]. *)
Definition not_older (c d : ListPy.clip) : Prop :=
  Py.str_lt (ListPy.timestamp c) (ListPy.timestamp d) = false.

(** [c] is newer than [d]: [d.timestamp < c.timestamp]. *)
Definition newer (c d : ListPy.clip) : Prop :=
  Py.str_lt (ListPy.timestamp d) (ListPy.timestamp c) = true.

(** What [kept] is, given how storage answered the tag read. *)
Definition kept_of_reply (r : result tagging) : bool :=
  match r with
  | Ok t => ListPy.any_keep_true (default [] (TagSet t))
  | Raise _ => false
  end.

(** The same services, except that a tag read refused with a client
    error answers instead with an empty tag set. *)
Definition tag_errors_as_untagged (aws : aws_client) : aws_client := {|
  s3_generate_presigned_url := s3_generate_presigned_url aws;
  s3_put_object_tagging := s3_put_object_tagging aws;
  s3_get_object_tagging := fun h bucket key =>
    match s3_get_object_tagging aws h bucket key with
    | Raise (ClientError _) => Ok (Tagging (Some []))
    | r => r
    end;
  s3_head_object := s3_head_object aws;
  s3_delete_objects := s3_delete_objects aws;
  s3_paginate := s3_paginate aws;
  ses_send_email := ses_send_email aws
|}.

(** In the run that ended in [w'], the tags of [c]'s object were read
    after the calls [h], and [c.kept] is what that reply gives. *)
Definition tag_read (BUCKET : string) (aws : aws_client) (w' : world)
    (c : ListPy.clip) : Prop :=
  exists h tl,
    calls w' = h ++ GetObjectTagging BUCKET (ListPy.clip_key c) :: tl /\
    ListPy.kept c = kept_of_reply (s3_get_object_tagging aws h BUCKET (ListPy.clip_key c)).

(** A bucket of three clips and a stray file, listed in two pages. *)
Module ListSamples.
Import ListPy.

Definition uploaded : datetime := Datetime 2026 2 22 8 30 0 0.

Definition key1 : string := "clips/cam1_20260221_120000.avi".
Definition key2 : string := "clips/cam1_20260222_070000.avi".
Definition key3 : string := "clips/cam2_20260220_235959.avi".

Definition pages : list (result page) :=
  [Ok (Page (Some [S3Object key1 uploaded 9856614; S3Object key2 uploaded 1048576]));
   Ok (Page (Some [S3Object key3 uploaded 524288; S3Object "clips/readme.txt" uploaded 12]))].

(** Two pages; [key1] is tagged [keep=true] and has a thumbnail, [key2]
    is tagged [keep=false], the tags of [key3] cannot be read. *)
Definition gallery : aws_client := {|
  s3_generate_presigned_url := s3_generate_presigned_url Samples.all_ok;
  s3_put_object_tagging := s3_put_object_tagging Samples.all_ok;
  s3_get_object_tagging := fun _ _ key =>
    if String.eqb key key1 then Ok (Tagging (Some [("keep", "true")]))
    else if String.eqb key key2 then Ok (Tagging (Some [("keep", "false")]))
    else Raise (ClientError "AccessDenied");
  s3_head_object := fun _ _ key =>
    if String.eqb key "thumbs/cam1_20260221_120000_thumb.jpg" then Ok tt
    else Raise (ClientError "Not Found");
  s3_delete_objects := s3_delete_objects Samples.all_ok;
  s3_paginate := fun _ _ _ _ => pages;
  ses_send_email := ses_send_email Samples.all_ok
|}.

Definition collected : result (list clip) * world :=
  for_pages Samples.bucket gallery 0 pages [] empty_world.

Definition collected_clips : list clip :=
  Eval vm_compute in match fst collected with Ok l => l | Raise _ => [] end.

Definition final_world : world := Eval vm_compute in snd collected.

Definition listing : response :=
  Response 200 [("Content-Type", "application/json")] (sort_desc collected_clips).

(** The clip of [key1], the first one collected. *)
Definition clip1 : clip :=
  Eval vm_compute in
    nth 0 collected_clips (Clip "" "" None "" (round2_div_1048576 0) false).

End ListSamples.

(** Every character is one of ['0'..'9']. *)
Fixpoint all_digits (s : string) : bool :=
  match s with
  | EmptyString => true
  | String c rest => Datetime.is_digit c && all_digits rest
  end.

(** The text the pattern matches: [_], eight digits, [_], six digits. *)
Definition stamp_text (g1 g2 : string) : string := "_" +:+ g1 +:+ "_" +:+ g2.

(** The two groups of a match, and what follows it. *)
Record stamp_groups (g1 g2 tl : string) : Prop := StampGroups {
  date_digits : all_digits g1 = true;
  date_length : String.length g1 = 8;
  time_digits : all_digits g2 = true;
  time_length : String.length g2 = 6;
  at_end : tl = "" \/ tl = ListPy.newline
}.

(** [YYYY-MM-DDTHH:MM:SS+00:00] *)
Definition iso_text (Y m d H Mi S : nat) : string :=
  Datetime.pad4 Y +:+ "-" +:+ Datetime.pad2 m +:+ "-" +:+ Datetime.pad2 d +:+ "T" +:+
  Datetime.pad2 H +:+ ":" +:+ Datetime.pad2 Mi +:+ ":" +:+ Datetime.pad2 S +:+ "+00:00".

(** A date and time of the proleptic Gregorian calendar, years from 1. *)
Definition calendar_valid (Y m d H Mi S : nat) : bool :=
  ((1 <=? Y) && (1 <=? m) && (m <=? 12) && (1 <=? d) &&
   (d <=? Datetime.days_in_month Y m) && (H <=? 23) && (Mi <=? 59) && (S <=? 59))%nat.

(** Numbers that fit the four- and two-digit fields. *)
Record in_range (Y m d H Mi S : nat) : Prop := InRange {
  year_range : Y < 100 * 100;
  month_range : m < 100;
  day_range : d < 100;
  hour_range : H < 100;
  minute_range : Mi < 100;
  second_range : S < 100
}.

(** ** Stamps in any digits *)

(** The ASCII digits and their values. *)
Definition ascii_digit (c : N) : bool := (48 <=? c)%N && (c <=? 57)%N.

Definition ascii_decimal (c : N) : option nat :=
  if ascii_digit c then Some (N.to_nat c - 48) else None.

(** What every version of Unicode's table of decimal digits has: below
    128 the digits are ['0'..'9'] with their values, and a digit value is
    below ten. *)
Record decimal_table (decimal : N -> option nat) : Prop := DecimalTable {
  table_ascii : forall c, (c < 128)%N -> decimal c = ascii_decimal c;
  table_values : forall c v, decimal c = Some v -> v < 10
}.

(** The fourteen characters of a stamp [YYYYMMDD_HHMMSS]. *)
Module Stamp.

Record t := Make {
  y1 : N; y2 : N; y3 : N; y4 : N; m1 : N; m2 : N; d1 : N; d2 : N;
  h1 : N; h2 : N; mi1 : N; mi2 : N; s1 : N; s2 : N
}.

Definition date (st : t) : Unicode.text :=
  [y1 st; y2 st; y3 st; y4 st; m1 st; m2 st; d1 st; d2 st].

Definition time (st : t) : Unicode.text :=
  [h1 st; h2 st; mi1 st; mi2 st; s1 st; s2 st].

End Stamp.

(** A name that carries a stamp: any prefix, [_], the date, [_], the
    time, and then the end of the name or one final newline. *)
Definition stamped_text (p : Unicode.text) (st : Stamp.t) (tl : Unicode.text) : Unicode.text :=
  p ++ [Unicode.ord "_"] ++ Stamp.date st ++ [Unicode.ord "_"] ++ Stamp.time st ++ tl.

Section StampValues.
Variable decimal : N -> option nat.

Definition digit_value (c : N) : nat := default 0 (decimal c).

(** The number two digits write. *)
Definition two (a b : N) : nat := 10 * digit_value a + digit_value b.

(** All fourteen characters are decimal digits. *)
Definition all_decimal (st : Stamp.t) : Prop :=
  Forall (fun c => Unicode.is_decimal decimal c = true) (Stamp.date st ++ Stamp.time st).

Definition year_of (st : Stamp.t) : nat :=
  100 * two (Stamp.y1 st) (Stamp.y2 st) + two (Stamp.y3 st) (Stamp.y4 st).

Definition month_of (st : Stamp.t) : nat := two (Stamp.m1 st) (Stamp.m2 st).

Definition day_of (st : Stamp.t) : nat := two (Stamp.d1 st) (Stamp.d2 st).

Definition hour_of (st : Stamp.t) : nat := two (Stamp.h1 st) (Stamp.h2 st).

Definition minute_of (st : Stamp.t) : nat := two (Stamp.mi1 st) (Stamp.mi2 st).

Definition second_of (st : Stamp.t) : nat := two (Stamp.s1 st) (Stamp.s2 st).

(** The places where a digit of another script is not taken: both
    digits of the month; the first digit of the day, the hour, the
    minute and the second; the second digit of a day outside 10..29 and
    of an hour outside 00..19. *)
Definition ascii_where_wanted (st : Stamp.t) : bool :=
  ascii_digit (Stamp.m1 st) && ascii_digit (Stamp.m2 st) &&
  ascii_digit (Stamp.d1 st) &&
  (ascii_digit (Stamp.d2 st) ||
   (1 <=? digit_value (Stamp.d1 st))%nat && (digit_value (Stamp.d1 st) <=? 2)%nat) &&
  ascii_digit (Stamp.h1 st) &&
  (ascii_digit (Stamp.h2 st) || (digit_value (Stamp.h1 st) <=? 1)%nat) &&
  ascii_digit (Stamp.mi1 st) && ascii_digit (Stamp.s1 st).

(** The characters [g] are in the classes [ks], one by one. *)
Definition matches (ks : list Unicode.cclass) (g : Unicode.text) : Prop :=
  Forall2 (fun k c => Unicode.in_class decimal k c = true) ks g.

(** [g] is matched by one of the alternatives. *)
Definition some_alternative (alts : list (list Unicode.cclass)) (g : Unicode.text) : Prop :=
  exists ks, In ks alts /\ matches ks g.

End StampValues.

(** The decimal digits of Unicode 14.0, the table of CPython 3.11: 66
    runs of ten consecutive code points, each given by its zero. *)
Module Unicode14.

Definition zeros : list N :=
  [48; 1632; 1776; 1984; 2406; 2534; 2662; 2790; 2918; 3046;
   3174; 3302; 3430; 3558; 3664; 3792; 3872; 4160; 4240; 6112;
   6160; 6470; 6608; 6784; 6800; 6992; 7088; 7232; 7248; 42528;
   43216; 43264; 43472; 43504; 43600; 44016; 65296; 66720; 68912; 69734;
   69872; 69942; 70096; 70384; 70736; 70864; 71248; 71360; 71472; 71904;
   72016; 72784; 73040; 73120; 92768; 92864; 93008; 120782; 120792; 120802;
   120812; 120822; 123200; 123632; 125264; 130032]%N.

Definition decimal (c : N) : option nat :=
  match List.find (fun z => (z <=? c) && (c <? z + 10))%N zeros with
  | Some z => Some (N.to_nat (c - z))
  | None => None
  end.

(** The stamp [２０２６0221_120000]: the year in fullwidth digits. *)
Definition fullwidth_year : Stamp.t :=
  Stamp.Make 65298 65296 65298 65302 48 50 50 49 49 50 48 48 48 48.

(** The stamp [２０２６０２２１_１２００００]: every digit fullwidth. *)
Definition fullwidth : Stamp.t :=
  Stamp.Make 65298 65296 65298 65302 65296 65298 65298 65297
             65297 65298 65296 65296 65296 65296.

End Unicode14.

(** The two groups of a match on a string, as text. *)
Definition text_pair (g : string * string) : Unicode.text * Unicode.text :=
  (Unicode.of_string (fst g), Unicode.of_string (snd g)).

(** Decide the range tests of the goal from the bounds at hand. *)
Ltac ranges :=
  cbn [Unicode.in_class];
  repeat match goal with
         | |- context [(?x <=? ?y)%N] =>
             first [ rewrite (proj2 (N.leb_le x y)) by (cbn; lia)
                   | rewrite (proj2 (N.leb_gt x y)) by (cbn; lia) ]
         end.

(** Case analysis on the alternative that a field of two characters
    fits, with the bounds each class puts on its character. *)
Ltac alternatives H :=
  let ks := fresh "ks" in
  let Hks := fresh "Hks" in
  let Hfit := fresh "Hfit" in
  let Hfit1 := fresh "Hfit" in
  let Hfit2 := fresh "Hfit" in
  let Ha := fresh "Ha" in
  let Hb := fresh "Hb" in
  destruct H as (ks & Hks & Hfit); simpl in Hks;
  repeat match goal with H0 : _ \/ _ |- _ => destruct H0 as [H0 | H0] end;
  try contradiction; subst ks; unfold matches in Hfit;
  inversion Hfit as [|? ? ? ? Ha Hfit1]; subst;
  inversion Hfit1 as [|? ? ? ? Hb Hfit2]; subst;
  inversion Hfit2; subst; clear Hfit Hfit1 Hfit2;
  cbn [Unicode.in_class] in Ha, Hb;
  try (apply andb_true_iff in Ha as [? ?]);
  try (apply andb_true_iff in Hb as [? ?]);
  repeat match goal with
         | H0 : (_ <=? _)%N = true |- _ => apply N.leb_le in H0; cbn in H0
         end.

(** The alternative [ks] fits the field. *)
Ltac fit_with ks :=
  exists ks; split; [simpl; auto 10 |];
  repeat constructor;
  try (cbn [Unicode.in_class]; apply andb_true_iff; split; apply N.leb_le; cbn; lia);
  try assumption.

(** ** What a handler may call *)

(** Whatever the services answer and however the computation ends, the
    calls [m] adds to the world all satisfy [P]. *)
Definition adds_only {A} (P : call -> Prop) (m : M A) : Prop :=
  forall w, exists l, calls (snd (m w)) = calls w ++ l /\ Forall P l.

(** The one kind of call [presign.py] makes. *)
Definition presign_call (BUCKET : string) (c : call) : Prop :=
  exists key, c = GeneratePresignedUrl "put_object" BUCKET key Presign.PUT_EXPIRY.

(** The calls of [list.py]: all of them reads. *)
Definition list_call (BUCKET : string) (c : call) : Prop :=
  match c with
  | ListObjectsV2 b prefix n _ => b = BUCKET /\ prefix = "clips/" /\ n = 1000%Z
  | GeneratePresignedUrl method b _ e =>
      method = "get_object" /\ b = BUCKET /\ e = ListPy.GET_EXPIRY
  | HeadObject b key => b = BUCKET /\ Py.startswith key "thumbs/" = true
  | GetObjectTagging b key => b = BUCKET /\ Py.endswith key ".avi" = true
  | _ => False
  end.

(** The calls of [notify.py] about the clip [key]. *)
Definition notify_call (BUCKET ALERT_EMAIL : string) (c : call) : Prop :=
  match c with
  | GeneratePresignedUrl method b key e =>
      method = "get_object" /\ b = BUCKET /\ Py.endswith key ".avi" = true /\
      e = Notify.GET_EXPIRY
  | SendEmail source to _ _ => source = ALERT_EMAIL /\ to = [ALERT_EMAIL]
  | PutObjectTagging b key tag_set =>
      b = BUCKET /\ Py.endswith key ".avi" = true /\ tag_set = [("keep", "false")]
  | _ => False
  end.

(** The calls [manage.py] may make for the clip [key]: the tag write on
    the clip, the probe of its thumbnail, and a delete of the clip alone
    or of the clip and its thumbnail. *)
Definition manage_calls (BUCKET key : string) (l : list call) : Prop :=
  let tk := Manage.thumb_key key in
  l = [PutObjectTagging BUCKET key [("keep", "true")]] \/
  l = [PutObjectTagging BUCKET key [("keep", "false")]] \/
  l = [HeadObject BUCKET tk] \/
  l = [HeadObject BUCKET tk; DeleteObjects BUCKET [key] true] \/
  l = [HeadObject BUCKET tk; DeleteObjects BUCKET [key; tk] true].

(** The keys [manage.py] accepts. *)
Definition valid_clip_key (key : string) : bool :=
  Py.startswith key "clips/" && Py.endswith key ".avi".

(** The records of a batch that [notify.py] acts on. *)
Definition is_avi (unquote_plus : string -> string) (r : Notify.record) : bool :=
  Py.endswith (unquote_plus (Notify.object_key r)) ".avi".

Definition is_SendEmail (c : call) : bool :=
  match c with SendEmail _ _ _ _ => true | _ => false end.

Definition is_PutObjectTagging (c : call) : bool :=
  match c with PutObjectTagging _ _ _ => true | _ => false end.

(** No occurrence of the character [c] in [s]. *)
Definition lacks (c : ascii) (s : string) : bool :=
  negb (existsb (Ascii.eqb c) (list_ascii_of_string s)).

(** The objects of the pages the paginator delivered. *)
Definition listed_objects (pages : list (result page)) : list s3_object :=
  flat_map (fun p => match p with
                     | Ok pg => default [] (Contents pg)
                     | Raise _ => []
                     end) pages.

Definition is_avi_object (obj : s3_object) : bool := Py.endswith (Key obj) ".avi".

(** The clips whose timestamp is [t]. *)
Definition with_timestamp (t : string) (l : list ListPy.clip) : list ListPy.clip :=
  List.filter (fun c => String.eqb (ListPy.timestamp c) t) l.

(** Chronological order of the calendar fields. *)
Definition earlier (a b : nat * nat * nat * nat * nat * nat) : bool :=
  let '(y, m, d, h, mi, sec) := a in
  let '(y', m', d', h', mi', sec') := b in
  ((y <? y') || (y =? y') &&
   ((m <? m') || (m =? m') &&
    ((d <? d') || (d =? d') &&
     ((h <? h') || (h =? h') &&
      ((mi <? mi') || (mi =? mi') && (sec <? sec'))))))%nat.

(** More sample services. *)
Module MoreSamples.

(** The thumbnail probe cannot reach storage. *)
Definition probe_unreachable : aws_client := {|
  s3_generate_presigned_url := s3_generate_presigned_url Samples.all_ok;
  s3_put_object_tagging := s3_put_object_tagging Samples.all_ok;
  s3_get_object_tagging := s3_get_object_tagging Samples.all_ok;
  s3_head_object := fun _ _ _ =>
    Raise (OtherException "EndpointConnectionError" "Could not connect to the endpoint URL");
  s3_delete_objects := s3_delete_objects Samples.all_ok;
  s3_paginate := s3_paginate Samples.all_ok;
  ses_send_email := ses_send_email Samples.all_ok
|}.

(** A batch of one clip, one file that is no clip, and a second clip. *)
Definition mixed_batch : list Notify.record :=
  [Notify.Record_ NotifySamples.key1; Notify.Record_ "clips/notes.txt";
   Notify.Record_ NotifySamples.key2].

(** Two cameras record in the same second; a third clip is older but
    listed first. *)
Definition tie_pages : list (result page) :=
  [Ok (Page (Some [S3Object "clips/cam3_20260220_090000.avi" ListSamples.uploaded 10;
                   S3Object "clips/cam2_20260221_120000.avi" ListSamples.uploaded 20;
                   S3Object "clips/cam1_20260221_120000.avi" ListSamples.uploaded 30]))].

Definition tie_gallery : aws_client := {|
  s3_generate_presigned_url := s3_generate_presigned_url Samples.all_ok;
  s3_put_object_tagging := s3_put_object_tagging Samples.all_ok;
  s3_get_object_tagging := s3_get_object_tagging Samples.all_ok;
  s3_head_object := s3_head_object Samples.all_ok;
  s3_delete_objects := s3_delete_objects Samples.all_ok;
  s3_paginate := fun _ _ _ _ => tie_pages;
  ses_send_email := ses_send_email Samples.all_ok
|}.

Definition tie_collected : result (list ListPy.clip) * world :=
  ListPy.for_pages Samples.bucket tie_gallery 0 tie_pages [] empty_world.

Definition tie_clips : list ListPy.clip :=
  Eval vm_compute in match fst tie_collected with Ok l => l | Raise _ => [] end.

Definition tie_world : world := Eval vm_compute in snd tie_collected.

End MoreSamples.

(** The fields of a returned clip that come from the listed object:
    the key, the size, and the timestamp, parsed from the basename or
    else the one storage reports. *)
Definition clip_from (obj : s3_object) (c : ListPy.clip) : Prop :=
  ListPy.clip_key c = Key obj /\
  ListPy.size_mb c = ListPy.round2_div_1048576 (Size obj) /\
  ListPy.timestamp c =
    match ListPy.parse_timestamp (ListPy.basename (Key obj)) with
    | Some t => t
    | None => Datetime.isoformat (LastModified obj)
    end.

Definition is_ListObjectsV2 (c : call) : bool :=
  match c with ListObjectsV2 _ _ _ _ => true | _ => false end.

(** The page was delivered. *)
Definition delivered (p : result page) : Prop := exists pg, p = Ok pg.

(** * Properties *)

(** ** Strings *)

Lemma length_app (a b : string) :
  String.length (a +:+ b) = String.length a + String.length b.
Proof. induction a as [|c a IH]; simpl; [reflexivity | now rewrite IH]. Qed.

Lemma substring_whole (a b : string) :
  substring 0 (String.length a) (a +:+ b) = a.
Proof. induction a as [|c a IH]; simpl; [now destruct b | now rewrite IH]. Qed.

Lemma substring_skip (p s : string) (n : nat) :
  substring (String.length p) n (p +:+ s) = substring 0 n s.
Proof. induction p as [|c p IH]; simpl; [reflexivity | exact IH]. Qed.

Lemma substring_tail (a b : string) :
  substring (String.length a) (String.length b) (a +:+ b) = b.
Proof.
  rewrite substring_skip.
  induction b as [|c b IH]; simpl; [reflexivity | now rewrite IH].
Qed.

Lemma app_cons (x : ascii) (a b : string) : String x a +:+ b = String x (a +:+ b).
Proof. reflexivity. Qed.

Lemma app_assoc_str (a b c : string) : (a +:+ b) +:+ c = a +:+ (b +:+ c).
Proof.
  induction a as [|x a IH]; [reflexivity | ].
  rewrite !app_cons. now rewrite IH.
Qed.

Lemma slice_middle (p base suf : string) :
  Py.slice (p +:+ base +:+ suf) (String.length p) (String.length suf) = base.
Proof.
  unfold Py.slice. rewrite !length_app.
  replace (String.length p + (String.length base + String.length suf)
           - String.length suf - String.length p) with (String.length base) by lia.
  rewrite substring_skip. apply substring_whole.
Qed.

Lemma endswith_app (a suf : string) : Py.endswith (a +:+ suf) suf = true.
Proof.
  unfold Py.endswith. rewrite length_app.
  replace (String.length a + String.length suf - String.length suf)
    with (String.length a) by lia.
  rewrite substring_tail, String.eqb_refl.
  apply andb_true_iff; split; [apply Nat.leb_le; lia | reflexivity].
Qed.


(** ** Key / name codec *)

Lemma thumb_key_basename (base : string) :
  Manage.thumb_key ("clips/" +:+ base +:+ ".avi") = "thumbs/" +:+ base +:+ "_thumb.jpg".
Proof. unfold Manage.thumb_key. now rewrite slice_middle. Qed.

Lemma list_basename (base : string) :
  ListPy.basename ("clips/" +:+ base +:+ ".avi") = base.
Proof. apply slice_middle. Qed.

(** C3.  For a clip key [clips/<d>_<YYYYMMDD>_<HHMMSS>.avi] the thumbnail
    key derived by [manage.py], and the one [list.py] derives inline, is
    [thumbs/<d>_<YYYYMMDD>_<HHMMSS>_thumb.jpg]; stripping the [thumbs/]
    prefix and the [_thumb.jpg] suffix from it gives back the clip's
    basename. *)
Theorem thumb_key_round_trip (d ymd hms : string) :
  let base := d +:+ "_" +:+ ymd +:+ "_" +:+ hms in
  let key := "clips/" +:+ base +:+ ".avi" in
  Manage.thumb_key key = "thumbs/" +:+ base +:+ "_thumb.jpg" /\
  ListPy.thumb_key_of (ListPy.basename key) = "thumbs/" +:+ base +:+ "_thumb.jpg" /\
  spec_basename_of_thumb_key (Manage.thumb_key key) = base /\
  ListPy.basename key = base.
Proof.
  intros base key. unfold key.
  rewrite thumb_key_basename, list_basename.
  repeat split; try reflexivity.
  apply slice_middle.
Qed.

(** ** Upload Authorizer *)

(** C7.  A request whose [x-api-key] header is absent or differs from the
    configured secret is answered 403 and leaves the world as it found
    it: no presigned URL is requested, whatever the query parameters. *)
Theorem presign_wrong_secret (BUCKET API_KEY : string) (aws : aws_client)
    (ev : Presign.event) (w : world) :
  default ∅ (Presign.event_headers ev) !! "x-api-key" ≠ Some API_KEY ->
  Presign.handler BUCKET API_KEY aws ev w =
    (Ok (Presign.Response 403 Presign.json_headers (Presign.error_body "Forbidden")), w).
Proof.
  intros Hkey. unfold Presign.handler.
  rewrite bool_decide_eq_false_2 by exact Hkey. reflexivity.
Qed.

Lemma presign_wrong_secret_witness :
  Presign.handler Samples.bucket "s3cret" Samples.all_ok
    (Presign.Event (Some {[ "x-api-key" := "guess" ]})
                   (Some {[ "clip" := "cam1_20260221_120000.avi";
                            "thumb" := "cam1_20260221_120000_thumb.jpg" ]}))
    empty_world =
  (Ok (Presign.Response 403 Presign.json_headers (Presign.error_body "Forbidden")),
   empty_world).
Proof. apply presign_wrong_secret. vm_compute. discriminate. Defined.

(** ** Retention Manager *)

Section ManageFacts.
Variable BUCKET : string.
Variable aws : aws_client.
Variable json_loads : string -> result Manage.json.

Local Abbreviation handler := (Manage.handler BUCKET aws json_loads).
Local Abbreviation dispatch := (Manage.dispatch BUCKET aws).

(** A request that passes every check reaches the last [try] block. *)
Lemma handler_valid (ev : Manage.event) (m : gmap string Manage.json)
    (action : Manage.json) (key : string) (w : world) :
  json_loads (Manage.request_text ev) = Ok (Manage.JObj m) ->
  m !! "action" = Some action ->
  Manage.truthy action = true ->
  m !! "clip_key" = Some (Manage.JStr key) ->
  Py.startswith key "clips/" = true ->
  Py.endswith key ".avi" = true ->
  handler ev w =
    match dispatch action key w with
    | (Ok (Some resp), w') => (Ok resp, w')
    | (Ok None, w') => (Ok ok_response, w')
    | (Raise e, w') => (Raise e, w')
    end.
Proof.
  intros Hload Ha Hta Hk Hs He. unfold Manage.handler. run.
  rewrite Hload. simpl. rewrite Ha, Hk. simpl. rewrite Hta. simpl.
  assert (Hne : String.eqb key "" = false).
  { destruct key; [discriminate Hs | reflexivity]. }
  rewrite Hne. simpl. unfold Py.startswith in *. rewrite Hs, He. simpl.
  destruct (dispatch action key w) as [[[resp|]|e] w']; reflexivity.
Qed.

Lemma thumb_key_not_clip_key (key : string) :
  Py.startswith key "clips/" = true -> Manage.thumb_key key <> key.
Proof.
  intros Hs Heq. unfold Manage.thumb_key in Heq. rewrite <- Heq in Hs.
  discriminate Hs.
Qed.

(** C6.  A [delete] of a valid clip key whose thumbnail probe answers
    with a client error (not found) makes two calls: the probe, and one
    [delete_objects] naming the clip alone.  The outcome is that of the
    delete request: success when storage accepts it; the missing
    thumbnail is no error. *)
Theorem delete_without_thumbnail (ev : Manage.event) (m : gmap string Manage.json)
    (key e : string) (w : world) :
  json_loads (Manage.request_text ev) = Ok (Manage.JObj m) ->
  m !! "action" = Some (Manage.JStr "delete") ->
  m !! "clip_key" = Some (Manage.JStr key) ->
  Py.startswith key "clips/" = true ->
  Py.endswith key ".avi" = true ->
  s3_head_object aws (calls w) BUCKET (Manage.thumb_key key) = Raise (ClientError e) ->
  let probe := HeadObject BUCKET (Manage.thumb_key key) in
  let delete := DeleteObjects BUCKET [key] true in
  calls (snd (handler ev w)) = calls w ++ [probe; delete] /\
  fst (handler ev w) =
    match s3_delete_objects aws (calls w ++ [probe]) BUCKET [key] true with
    | Ok _ => Ok ok_response
    | Raise (ClientError msg) =>
        Ok (Manage.Response 500 None (Manage.error_body msg))
    | Raise e' => Raise e'
    end.
Proof.
  intros Hload Ha Hk Hs He Hhead probe delete.
  rewrite (handler_valid ev m (Manage.JStr "delete") key w) by (assumption || reflexivity).
  unfold Manage.dispatch, Manage.delete_clip. run. rewrite Hhead. simpl.
  rewrite <- app_assoc. simpl.
  destruct (s3_delete_objects aws _ BUCKET [key] true) as [[]|[]]; simpl; split; reflexivity.
Qed.

(** C9, as the code has it.  A [keep] or [unkeep] of a valid clip key
    makes one call: the tag write on the clip.  The paired thumbnail,
    whose key differs from the clip's, is not tagged, although the
    comment at lines 58-62 of [notify.py] leaves that to this handler. *)
Theorem keep_tags_only_the_clip (ev : Manage.event) (m : gmap string Manage.json)
    (action value key : string) (w : world) :
  json_loads (Manage.request_text ev) = Ok (Manage.JObj m) ->
  m !! "action" = Some (Manage.JStr action) ->
  (action = "keep" /\ value = "true") \/ (action = "unkeep" /\ value = "false") ->
  m !! "clip_key" = Some (Manage.JStr key) ->
  Py.startswith key "clips/" = true ->
  Py.endswith key ".avi" = true ->
  calls (snd (handler ev w)) = calls w ++ [PutObjectTagging BUCKET key [("keep", value)]] /\
  Manage.thumb_key key <> key.
Proof.
  intros Hload Ha Hav Hk Hs He. split; [| now apply thumb_key_not_clip_key].
  rewrite (handler_valid ev m (Manage.JStr action) key w);
    [| assumption | assumption | destruct Hav as [[-> _]|[-> _]]; reflexivity
     | assumption | assumption | assumption ].
  unfold Manage.dispatch, Manage.set_keep_tag. run.
  destruct Hav as [[-> ->]|[-> ->]]; simpl;
    destruct (s3_put_object_tagging aws _ BUCKET key _) as [[]|[]]; reflexivity.
Qed.

(** C2, where the code departs from it.  When the request body is
    well-formed JSON but not an object, the attribute lookup of [.get]
    fails: the handler raises
    [AttributeError], which the [except] clause of the first [try] block
    does not name, instead of answering 400.  No call is made. *)
Theorem non_object_body_raises (ev : Manage.event) (v : Manage.json) (w : world) :
  json_loads (Manage.request_text ev) = Ok v ->
  (forall m, v <> Manage.JObj m) ->
  handler ev w = (Raise (AttributeError "object has no attribute 'get'"), w).
Proof.
  intros Hload Hv. unfold Manage.handler. run. rewrite Hload.
  destruct v; try reflexivity. now destruct (Hv m).
Qed.

(** X1.  What does hold of validation: a body that is not JSON, an object
    with a falsy [action] or [clip_key], a [clip_key] string of the wrong
    shape, and an unknown action with a well-shaped key are all answered
    400 with the world untouched. *)
Theorem validation_400 (ev : Manage.event) (w : world) :
  (forall msg, json_loads (Manage.request_text ev) = Raise (JSONDecodeError msg) ->
     handler ev w =
       (Ok (Manage.Response 400 None (Manage.error_body "Invalid JSON body")), w)) /\
  (forall m, json_loads (Manage.request_text ev) = Ok (Manage.JObj m) ->
     Manage.truthy (default Manage.JNull (m !! "action")) = false \/
     Manage.truthy (default Manage.JNull (m !! "clip_key")) = false ->
     handler ev w =
       (Ok (Manage.Response 400 None (Manage.error_body "Missing action or clip_key")), w)) /\
  (forall m action key, json_loads (Manage.request_text ev) = Ok (Manage.JObj m) ->
     m !! "action" = Some action -> Manage.truthy action = true ->
     m !! "clip_key" = Some (Manage.JStr key) -> key <> "" ->
     Py.startswith key "clips/" = false \/ Py.endswith key ".avi" = false ->
     handler ev w =
       (Ok (Manage.Response 400 None (Manage.error_body "clip_key must be clips/*.avi")), w)) /\
  (forall m action key, json_loads (Manage.request_text ev) = Ok (Manage.JObj m) ->
     m !! "action" = Some action -> Manage.truthy action = true ->
     m !! "clip_key" = Some (Manage.JStr key) ->
     Py.startswith key "clips/" = true -> Py.endswith key ".avi" = true ->
     Manage.eq_str action "keep" = false -> Manage.eq_str action "unkeep" = false ->
     Manage.eq_str action "delete" = false ->
     handler ev w =
       (Ok (Manage.Response 400 None (Manage.error_unknown_action action)), w)).
Proof.
  repeat split.
  - intros msg Hload. unfold Manage.handler. run. now rewrite Hload.
  - intros m Hload Hf. unfold Manage.handler. run. rewrite Hload. simpl.
    destruct Hf as [-> | ->]; simpl; [reflexivity | now rewrite orb_true_r].
  - intros m action key Hload Ha Hta Hk Hne Hshape.
    unfold Manage.handler. run. rewrite Hload. simpl. rewrite Ha, Hk. simpl.
    rewrite Hta. apply String.eqb_neq in Hne. rewrite Hne. simpl.
    unfold Py.startswith in *.
    destruct Hshape as [-> | ->]; simpl; [reflexivity | now rewrite orb_true_r].
  - intros m action key Hload Ha Hta Hk Hs He Hk1 Hk2 Hk3.
    rewrite (handler_valid ev m action key w) by assumption.
    unfold Manage.dispatch. run. now rewrite Hk1, Hk2, Hk3.
Qed.

End ManageFacts.

Lemma delete_without_thumbnail_witness :
  let r := ManageSamples.run_request ManageSamples.no_thumbnail
             (ManageSamples.request "delete" ManageSamples.clip)
             (Manage.JObj (ManageSamples.parsed "delete" ManageSamples.clip)) in
  calls (snd r) =
    [HeadObject Samples.bucket "thumbs/cam1_20260221_120000_thumb.jpg";
     DeleteObjects Samples.bucket [ManageSamples.clip] true] /\
  fst r = Ok ok_response.
Proof.
  refine (delete_without_thumbnail Samples.bucket ManageSamples.no_thumbnail _
            (Manage.Event (Some _)) (ManageSamples.parsed "delete" ManageSamples.clip)
            ManageSamples.clip "Not Found" empty_world _ _ _ _ _ _);
    vm_compute; reflexivity.
Defined.

Lemma keep_tags_only_the_clip_witness :
  let r := ManageSamples.run_request Samples.all_ok
             (ManageSamples.request "keep" ManageSamples.clip)
             (Manage.JObj (ManageSamples.parsed "keep" ManageSamples.clip)) in
  calls (snd r) = [PutObjectTagging Samples.bucket ManageSamples.clip [("keep", "true")]] /\
  Manage.thumb_key ManageSamples.clip <> ManageSamples.clip.
Proof.
  refine (keep_tags_only_the_clip Samples.bucket Samples.all_ok _
            (Manage.Event (Some _)) (ManageSamples.parsed "keep" ManageSamples.clip)
            "keep" "true" ManageSamples.clip empty_world _ _ _ _ _ _);
    try (vm_compute; reflexivity).
  left. split; reflexivity.
Defined.

Lemma non_object_body_raises_witness :
  ManageSamples.run_request Samples.all_ok "[]" (Manage.JArr []) =
    (Raise (AttributeError "object has no attribute 'get'"), empty_world).
Proof.
  refine (non_object_body_raises Samples.bucket Samples.all_ok _
            (Manage.Event (Some "[]")) (Manage.JArr []) empty_world _ _).
  - reflexivity.
  - intros m. discriminate.
Defined.

(** ** Ingest Notifier *)

Section NotifyFacts.
Variable BUCKET : string.
Variable ALERT_EMAIL : string.
Variable aws : aws_client.
Variable unquote_plus : string -> string.

Local Abbreviation for_records := (Notify.for_records BUCKET ALERT_EMAIL aws unquote_plus).

(** C1, as the code has it.  One turn of the loop on a record whose key
    ends in [.avi].  When signing the URL or sending the email raises,
    the exception leaves the handler and the rest of the batch is not
    processed.  Once the email is sent, the loop goes on to the remaining
    records whatever the tag write does: a failure there is printed as a
    warning and nothing more. *)
Theorem tagging_failure_does_not_abort (r : Notify.record) (rest : list Notify.record)
    (w : world) :
  let key := unquote_plus (Notify.object_key r) in
  let clip_name := Py.split_last "/" key in
  let device_id := Py.split_first "_" clip_name in
  let sign := GeneratePresignedUrl "get_object" BUCKET key Notify.GET_EXPIRY in
  Py.endswith key ".avi" = true ->
  for_records (r :: rest) w =
    match s3_generate_presigned_url aws (calls w) "get_object" BUCKET key Notify.GET_EXPIRY with
    | Raise e => (Raise e, World (calls w ++ [sign]) (stdout w))
    | Ok url =>
        let subject := Notify.alert_subject device_id in
        let body := Notify.alert_body device_id clip_name url in
        let send := SendEmail ALERT_EMAIL [ALERT_EMAIL] subject body in
        match ses_send_email aws (calls w ++ [sign]) ALERT_EMAIL [ALERT_EMAIL] subject body with
        | Raise e => (Raise e, World (calls w ++ [sign; send]) (stdout w))
        | Ok _ =>
            let tags := [("keep", "false")] in
            let tag := PutObjectTagging BUCKET key tags in
            for_records rest
              (World (calls w ++ [sign; send; tag])
                 (stdout w ++
                  ["Alert sent for " +:+ clip_name;
                   match s3_put_object_tagging aws (calls w ++ [sign; send]) BUCKET key tags with
                   | Ok _ => "Tagged keep=false: " +:+ key
                   | Raise e => "Warning: could not tag " +:+ key +:+ ": " +:+ str_of_exn e
                   end]))
        end
    end.
Proof.
  intros key clip_name device_id sign Hend.
  change (Notify.for_records BUCKET ALERT_EMAIL aws unquote_plus (r :: rest))
    with (Notify.notify_record BUCKET ALERT_EMAIL aws unquote_plus r ≫=
          (fun _ => Notify.for_records BUCKET ALERT_EMAIL aws unquote_plus rest)).
  unfold Notify.notify_record. fold key. rewrite Hend. simpl negb. cbv iota.
  fold clip_name device_id. run.
  destruct (s3_generate_presigned_url aws (calls w) _ _ _ _) as [url|e]; [|reflexivity].
  destruct (ses_send_email aws _ _ _ _ _) as [[]|e];
    [| rewrite <- ?app_assoc; reflexivity].
  rewrite <- ?app_assoc. simpl.
  destruct (s3_put_object_tagging aws _ _ _ _) as [[]|e]; simpl;
    rewrite <- ?app_assoc; reflexivity.
Qed.

End NotifyFacts.

(** A batch of two clips where the mail service rejects the first alert:
    the handler raises after two calls and makes none for the second
    clip, although that clip alone is processed without error. *)
Lemma email_failure_aborts_batch :
  NotifySamples.run NotifySamples.cam1_mail_rejected NotifySamples.batch =
    (Raise (ClientError "MessageRejected"),
     World [NotifySamples.sign NotifySamples.key1;
            NotifySamples.send "cam1" "cam1_20260221_120000.avi" NotifySamples.key1] []) /\
  NotifySamples.run NotifySamples.cam1_mail_rejected [Notify.Record_ NotifySamples.key2] =
    (Ok tt,
     World [NotifySamples.sign NotifySamples.key2;
            NotifySamples.send "cam2" "cam2_20260221_120500.avi" NotifySamples.key2;
            NotifySamples.tag NotifySamples.key2]
           ["Alert sent for cam2_20260221_120500.avi";
            "Tagged keep=false: clips/cam2_20260221_120500.avi"]).
Proof. split; vm_compute; reflexivity. Qed.

Lemma tagging_failure_does_not_abort_witness :
  NotifySamples.run NotifySamples.tagging_denied NotifySamples.batch =
    (Ok tt,
     World [NotifySamples.sign NotifySamples.key1;
            NotifySamples.send "cam1" "cam1_20260221_120000.avi" NotifySamples.key1;
            NotifySamples.tag NotifySamples.key1;
            NotifySamples.sign NotifySamples.key2;
            NotifySamples.send "cam2" "cam2_20260221_120500.avi" NotifySamples.key2;
            NotifySamples.tag NotifySamples.key2]
           ["Alert sent for cam1_20260221_120000.avi";
            "Warning: could not tag clips/cam1_20260221_120000.avi: AccessDenied";
            "Alert sent for cam2_20260221_120500.avi";
            "Warning: could not tag clips/cam2_20260221_120500.avi: AccessDenied"]).
Proof.
  refine (eq_trans
            (tagging_failure_does_not_abort Samples.bucket NotifySamples.alert_email
               NotifySamples.tagging_denied NotifySamples.unquote_plain
               (Notify.Record_ NotifySamples.key1) [Notify.Record_ NotifySamples.key2]
               empty_world _) _).
  - reflexivity.
  - vm_compute. reflexivity.
Defined.

(** ** Order of strings *)

Lemma ascii_compare_trans (a b c : ascii) :
  Ascii.compare a b = Lt -> Ascii.compare b c = Lt -> Ascii.compare a c = Lt.
Proof.
  unfold Ascii.compare. rewrite !N.compare_lt_iff. apply N.lt_trans.
Qed.

Lemma ascii_compare_refl (a : ascii) : Ascii.compare a a = Eq.
Proof. unfold Ascii.compare. apply N.compare_refl. Qed.

Lemma str_compare_refl (a : string) : String.compare a a = Eq.
Proof.
  induction a as [|x a IH]; simpl; [reflexivity | now rewrite ascii_compare_refl].
Qed.

Lemma str_compare_trans (a b c : string) :
  String.compare a b = Lt -> String.compare b c = Lt -> String.compare a c = Lt.
Proof.
  revert b c. induction a as [|x a IH]; intros [|y b] [|z c]; simpl; try easy.
  destruct (Ascii.compare x y) eqn:Exy; try easy;
    destruct (Ascii.compare y z) eqn:Eyz; try easy.
  - apply Ascii.compare_eq_iff in Exy, Eyz. subst.
    rewrite ascii_compare_refl. apply IH.
  - apply Ascii.compare_eq_iff in Exy. subst. now rewrite Eyz.
  - apply Ascii.compare_eq_iff in Eyz. subst. now rewrite Exy.
  - now rewrite (ascii_compare_trans x y z).
Qed.

Lemma str_lt_compare (a b : string) : Py.str_lt a b = true <-> String.compare a b = Lt.
Proof. unfold Py.str_lt, String.ltb. destruct (String.compare a b); easy. Qed.

Lemma str_lt_irrefl (a : string) : Py.str_lt a a = false.
Proof. unfold Py.str_lt, String.ltb. now rewrite str_compare_refl. Qed.

Lemma str_lt_trans (a b c : string) :
  Py.str_lt a b = true -> Py.str_lt b c = true -> Py.str_lt a c = true.
Proof. rewrite !str_lt_compare. apply str_compare_trans. Qed.

Lemma str_lt_asym (a b : string) : Py.str_lt a b = true -> Py.str_lt b a = false.
Proof.
  intros H. destruct (Py.str_lt b a) eqn:E; [|reflexivity].
  pose proof (str_lt_trans a b a H E) as Haa. now rewrite str_lt_irrefl in Haa.
Qed.

(** Two strings are equal or one is below the other. *)
Lemma str_lt_total (a b : string) :
  Py.str_lt a b = true \/ a = b \/ Py.str_lt b a = true.
Proof.
  destruct (String.compare a b) eqn:E.
  - right; left. now apply String.compare_eq_iff.
  - left. now apply str_lt_compare.
  - right; right. apply str_lt_compare.
    rewrite String.compare_antisym, E. reflexivity.
Qed.

(** ** Gallery Lister: the order of the result *)

Lemma not_older_trans (c d e : ListPy.clip) :
  not_older c d -> not_older d e -> not_older c e.
Proof.
  unfold not_older. intros Hcd Hde.
  destruct (Py.str_lt (ListPy.timestamp c) (ListPy.timestamp e)) eqn:Hce; [|reflexivity].
  destruct (str_lt_total (ListPy.timestamp c) (ListPy.timestamp d)) as [H|[H|H]].
  - congruence.
  - rewrite H in Hce. congruence.
  - pose proof (str_lt_trans _ _ _ H Hce). congruence.
Qed.

Lemma insert_desc_hd (c d : ListPy.clip) (l : list ListPy.clip) :
  not_older d c -> HdRel not_older d l -> HdRel not_older d (ListPy.insert_desc c l).
Proof.
  intros Hdc Hl. destruct l as [|x l]; simpl.
  - now constructor.
  - destruct (Py.str_lt (ListPy.timestamp c) (ListPy.timestamp x)).
    + constructor. now inversion Hl.
    + now constructor.
Qed.

Lemma insert_desc_sorted (c : ListPy.clip) (l : list ListPy.clip) :
  Sorted not_older l -> Sorted not_older (ListPy.insert_desc c l).
Proof.
  induction 1 as [|d l Hs IH Hhd]; simpl.
  - repeat constructor.
  - destruct (Py.str_lt (ListPy.timestamp c) (ListPy.timestamp d)) eqn:E.
    + constructor; [exact IH |].
      apply insert_desc_hd; [| exact Hhd]. now apply str_lt_asym.
    + constructor; [now constructor | now constructor].
Qed.

Lemma sort_desc_sorted (l : list ListPy.clip) : Sorted not_older (ListPy.sort_desc l).
Proof.
  induction l as [|c l IH]; simpl; [constructor | now apply insert_desc_sorted].
Qed.

Lemma insert_desc_perm (c : ListPy.clip) (l : list ListPy.clip) :
  Permutation (c :: l) (ListPy.insert_desc c l).
Proof.
  induction l as [|d l IH]; simpl; [reflexivity |].
  destruct (Py.str_lt _ _); [| reflexivity].
  rewrite <- IH. apply perm_swap.
Qed.

(** Sorting loses and invents no clip. *)
Lemma sort_desc_perm (l : list ListPy.clip) : Permutation l (ListPy.sort_desc l).
Proof.
  induction l as [|c l IH]; simpl; [reflexivity |].
  rewrite <- insert_desc_perm. now constructor.
Qed.

Lemma sort_desc_strongly_sorted (l : list ListPy.clip) :
  StronglySorted not_older (ListPy.sort_desc l).
Proof.
  apply Sorted_StronglySorted; [| apply sort_desc_sorted].
  intros c d e. apply not_older_trans.
Qed.

(** With pairwise distinct timestamps, "not older" is "newer". *)
Lemma strongly_sorted_distinct (l : list ListPy.clip) :
  StronglySorted not_older l -> List.NoDup (map ListPy.timestamp l) ->
  StronglySorted newer l.
Proof.
  induction 1 as [|c l Hs IH Hall]; intros Hnd; [constructor |].
  simpl in Hnd. apply NoDup_cons_iff in Hnd as [Hnotin Hnd].
  constructor; [now apply IH |].
  rewrite List.Forall_forall in *. intros d Hd.
  specialize (Hall d Hd). unfold not_older in Hall. unfold newer.
  destruct (str_lt_total (ListPy.timestamp c) (ListPy.timestamp d)) as [H|[H|H]].
  - congruence.
  - exfalso. apply Hnotin. rewrite H. now apply List.in_map.
  - exact H.
Qed.

(** ** Gallery Lister: where a returned clip comes from *)

Lemma bind_ext {A B} (m : M A) (k1 k2 : A -> M B) (w : world) :
  (forall a w1, k1 a w1 = k2 a w1) -> bind m k1 w = bind m k2 w.
Proof. intros H. unfold bind. destruct (m w) as [[a|e] w1]; [apply H | reflexivity]. Qed.

Lemma any_keep_true_iff (tags : list (string * string)) :
  ListPy.any_keep_true tags = true <-> In ("keep", "true") tags.
Proof.
  unfold ListPy.any_keep_true. rewrite existsb_exists. split.
  - intros [[k v] [Hin Hkv]]. apply andb_true_iff in Hkv as [Hk Hv].
    apply String.eqb_eq in Hk, Hv. simpl in *. now subst.
  - intros Hin. exists ("keep", "true"). split; [exact Hin | reflexivity].
Qed.

Section ListFacts.
Variable BUCKET : string.
Variable aws : aws_client.

Local Abbreviation clip_of_object := (ListPy.clip_of_object BUCKET aws).
Local Abbreviation for_objects := (ListPy.for_objects BUCKET aws).
Local Abbreviation for_pages := (ListPy.for_pages BUCKET aws).
Local Abbreviation handler := (ListPy.handler BUCKET aws).

Lemma tag_read_later (w1 w2 : world) (l : list call) (c : ListPy.clip) :
  calls w2 = calls w1 ++ l -> tag_read BUCKET aws w1 c -> tag_read BUCKET aws w2 c.
Proof.
  intros Hw (h & tl & Hc & Hk). exists h, (tl ++ l). split; [| exact Hk].
  rewrite Hw, Hc, <- app_assoc. reflexivity.
Qed.

Lemma clip_of_object_inv (obj : s3_object) (w w' : world) (r : option ListPy.clip) :
  clip_of_object obj w = (Ok r, w') ->
  (exists l, calls w' = calls w ++ l) /\
  (forall c, r = Some c -> tag_read BUCKET aws w' c).
Proof.
  unfold ListPy.clip_of_object, ListPy.thumb_url_of, ListPy.read_kept.
  destruct (Py.endswith (Key obj) ".avi"); simpl.
  2:{ intros H. injection H as <- <-.
      split; [exists []; now rewrite app_nil_r | discriminate]. }
  run.
  destruct (s3_generate_presigned_url aws (calls w) _ _ _ _) as [cu|e]; [|discriminate].
  set (tk := ListPy.thumb_key_of _).
  assert (Hend : forall (tu : option string) (h : list call),
    (exists l, h = calls w ++ l) ->
    (let (r0, w0) :=
       let (r1, w1) :=
         match s3_get_object_tagging aws h BUCKET (Key obj) with
         | Ok t => (Ok (ListPy.any_keep_true (default [] (TagSet t))),
                    World (h ++ [GetObjectTagging BUCKET (Key obj)]) (stdout w))
         | Raise e => (Raise e, World (h ++ [GetObjectTagging BUCKET (Key obj)]) (stdout w))
         end in
       match r1 with
       | Ok k => (Ok k, w1)
       | Raise e => if is_ClientError e then (Ok false, w1) else (Raise e, w1)
       end in
     match r0 with
     | Ok k => (Ok (Some (ListPy.Clip (Key obj) cu tu
                            (let parsed := ListPy.parse_timestamp (ListPy.basename (Key obj)) in
                             if Py.truthy_opt_str parsed then default "" parsed
                             else Datetime.isoformat (LastModified obj))
                            (ListPy.round2_div_1048576 (Size obj)) k)), w0)
     | Raise e => (Raise e, w0)
     end) = (Ok r, w') ->
    (exists l, calls w' = calls w ++ l) /\ (forall c, r = Some c -> tag_read BUCKET aws w' c)).
  { intros tu h [l ->].
    destruct (s3_get_object_tagging aws _ BUCKET (Key obj)) as [t|e] eqn:Et.
    - intros H. injection H as <- <-. simpl. split.
      + eexists. rewrite <- app_assoc. reflexivity.
      + intros c Hc. injection Hc as <-. eexists _, []. simpl.
        split; [reflexivity | now rewrite Et].
    - destruct e; simpl; try discriminate.
      intros H. injection H as <- <-. simpl. split.
      + eexists. rewrite <- app_assoc. reflexivity.
      + intros c Hc. injection Hc as <-. eexists _, []. simpl.
        split; [reflexivity | now rewrite Et]. }
  destruct (s3_head_object aws _ BUCKET tk) as [[]|e1]; simpl.
  - destruct (s3_generate_presigned_url aws _ _ _ tk _) as [tu|e2]; simpl.
    + apply Hend. eexists. rewrite <- !app_assoc. reflexivity.
    + destruct e2; simpl; try discriminate.
      apply Hend. eexists. rewrite <- !app_assoc. reflexivity.
  - destruct e1; simpl; try discriminate.
    apply Hend. eexists. rewrite <- !app_assoc. reflexivity.
Qed.

Lemma for_objects_inv (objs : list s3_object) (acc clips : list ListPy.clip)
    (w w' : world) :
  for_objects objs acc w = (Ok clips, w') ->
  (exists l, calls w' = calls w ++ l) /\
  (forall c, In c clips -> In c acc \/ tag_read BUCKET aws w' c).
Proof.
  revert acc w. induction objs as [|obj objs IH]; intros acc w; simpl.
  - intros H. injection H as <- <-. split; [exists []; now rewrite app_nil_r | auto].
  - unfold mbind, M_bind, bind.
    destruct (clip_of_object obj w) as [[r|e] w1] eqn:E1; [| discriminate].
    intros H. apply clip_of_object_inv in E1 as [[l1 Hl1] Hread].
    apply IH in H as [[l2 Hl2] Hin]. split.
    + exists (l1 ++ l2). now rewrite Hl2, Hl1, app_assoc.
    + intros c Hc. destruct (Hin c Hc) as [Hacc | Htr]; [| now right].
      destruct r as [c0|]; [| now left].
      apply in_app_or in Hacc as [Hacc | [<- | []]]; [now left |].
      right. eapply tag_read_later; [exact Hl2 | now apply Hread].
Qed.

Lemma for_pages_inv (pages : list (result page)) (i : nat)
    (acc clips : list ListPy.clip) (w w' : world) :
  for_pages i pages acc w = (Ok clips, w') ->
  (exists l, calls w' = calls w ++ l) /\
  (forall c, In c clips -> In c acc \/ tag_read BUCKET aws w' c).
Proof.
  revert i acc w. induction pages as [|p pages IH]; intros i acc w; simpl.
  - intros H. injection H as <- <-. split; [exists []; now rewrite app_nil_r | auto].
  - unfold mbind, M_bind, bind, perform.
    destruct p as [pg|e]; [| discriminate].
    destruct (for_objects _ acc _) as [[clips1|e] w1] eqn:E1; [| discriminate].
    intros H. apply for_objects_inv in E1 as [[l1 Hl1] Hin1]. simpl in Hl1.
    apply IH in H as [[l2 Hl2] Hin2]. split.
    + eexists. rewrite Hl2, Hl1, <- !app_assoc. reflexivity.
    + intros c Hc. destruct (Hin2 c Hc) as [Hc1 | Htr]; [| now right].
      destruct (Hin1 c Hc1) as [Hacc | Htr]; [now left |].
      right. eapply tag_read_later; [exact Hl2 | exact Htr].
Qed.

(** A successful listing is 200, and its body is the sorted list of the
    clips the loops collected. *)
Lemma handler_inv (w w' : world) (resp : ListPy.response) :
  handler w = (Ok resp, w') ->
  exists clips,
    for_pages 0 (s3_paginate aws (calls w) BUCKET "clips/" 1000) [] w = (Ok clips, w') /\
    resp = ListPy.Response 200 [("Content-Type", "application/json")]
             (ListPy.sort_desc clips).
Proof.
  unfold ListPy.handler, mbind, M_bind, bind, mret, M_ret, ret.
  destruct (for_pages 0 _ [] w) as [[clips|e] w1]; [| discriminate].
  intros H. injection H as <- <-. now exists clips.
Qed.

(** Every clip of a successful listing had its tags read during the run,
    and its [kept] is what that reply gives. *)
Lemma clip_in_listing (w w' : world) (resp : ListPy.response) (c : ListPy.clip) :
  handler w = (Ok resp, w') -> In c (ListPy.body resp) -> tag_read BUCKET aws w' c.
Proof.
  intros H Hc. apply handler_inv in H as (clips & Hrun & ->). simpl in Hc.
  apply for_pages_inv in Hrun as [_ Hin].
  assert (Hc' : In c clips).
  { eapply Permutation_in; [symmetry; apply sort_desc_perm | exact Hc]. }
  destruct (Hin c Hc') as [[] | Htr]. exact Htr.
Qed.

(** C4.  In a successful listing every clip had its tags read, and its
    [kept] follows the tag set of that reply: [false] when no tag is
    keyed [keep], [true] when the set holds [keep=true] exactly, [false]
    when every [keep] tag has another value. *)
Theorem kept_reflects_keep_tag (w w' : world) (resp : ListPy.response) (c : ListPy.clip) :
  handler w = (Ok resp, w') ->
  In c (ListPy.body resp) ->
  exists h tl,
    calls w' = h ++ GetObjectTagging BUCKET (ListPy.clip_key c) :: tl /\
    forall t, s3_get_object_tagging aws h BUCKET (ListPy.clip_key c) = Ok t ->
      let tags := default [] (TagSet t) in
      ((forall v, ~ In ("keep", v) tags) -> ListPy.kept c = false) /\
      (In ("keep", "true") tags -> ListPy.kept c = true) /\
      ((forall v, In ("keep", v) tags -> v <> "true") -> ListPy.kept c = false).
Proof.
  intros Hrun Hc. destruct (clip_in_listing w w' resp c Hrun Hc) as (h & tl & Hcalls & Hk).
  exists h, tl. split; [exact Hcalls |].
  intros t Ht tags. rewrite Ht in Hk. simpl in Hk. fold tags in Hk. rewrite Hk.
  repeat split.
  - intros Hno. apply not_true_is_false. rewrite any_keep_true_iff. apply Hno.
  - apply any_keep_true_iff.
  - intros Hother. apply not_true_is_false. rewrite any_keep_true_iff.
    intros Hin. now apply (Hother "true").
Qed.

(** C5.  When the loops have collected clips with pairwise distinct
    timestamps, the handler answers 200 with the same clips, each one
    newer (greater timestamp string) than all that follow it; in
    particular no clip is older than a later one. *)
Theorem listing_newest_first (w w' : world) (clips : list ListPy.clip) :
  for_pages 0 (s3_paginate aws (calls w) BUCKET "clips/" 1000) [] w = (Ok clips, w') ->
  List.NoDup (map ListPy.timestamp clips) ->
  exists resp,
    handler w = (Ok resp, w') /\
    ListPy.statusCode resp = 200%Z /\
    Permutation clips (ListPy.body resp) /\
    StronglySorted not_older (ListPy.body resp) /\
    StronglySorted newer (ListPy.body resp).
Proof.
  intros Hrun Hnd.
  exists (ListPy.Response 200 [("Content-Type", "application/json")] (ListPy.sort_desc clips)).
  split.
  { unfold ListPy.handler, mbind, M_bind, bind. now rewrite Hrun. }
  simpl. split; [reflexivity |]. split; [apply sort_desc_perm |].
  split; [apply sort_desc_strongly_sorted |].
  apply strongly_sorted_distinct; [apply sort_desc_strongly_sorted |].
  eapply Permutation_NoDup; [| exact Hnd].
  apply Permutation_map, sort_desc_perm.
Qed.

Lemma read_kept_untagged (key : string) (w : world) :
  ListPy.read_kept BUCKET aws key w =
  ListPy.read_kept BUCKET (tag_errors_as_untagged aws) key w.
Proof.
  unfold ListPy.read_kept. run.
  destruct (s3_get_object_tagging aws (calls w) BUCKET key) as [t|[]]; reflexivity.
Qed.

Lemma clip_of_object_untagged (obj : s3_object) (w : world) :
  clip_of_object obj w = ListPy.clip_of_object BUCKET (tag_errors_as_untagged aws) obj w.
Proof.
  unfold ListPy.clip_of_object. destruct (negb _); [reflexivity |].
  apply bind_ext. intros cu w1. apply bind_ext. intros tu w2.
  unfold mbind, M_bind, bind. now rewrite read_kept_untagged.
Qed.

Lemma for_objects_untagged (objs : list s3_object) (acc : list ListPy.clip) (w : world) :
  for_objects objs acc w =
  ListPy.for_objects BUCKET (tag_errors_as_untagged aws) objs acc w.
Proof.
  revert acc w. induction objs as [|obj objs IH]; intros acc w; [reflexivity |].
  simpl. unfold mbind, M_bind, bind. rewrite clip_of_object_untagged.
  destruct (ListPy.clip_of_object _ _ obj w) as [[r|e] w1]; [apply IH | reflexivity].
Qed.

Lemma for_pages_untagged (pages : list (result page)) (i : nat)
    (acc : list ListPy.clip) (w : world) :
  for_pages i pages acc w =
  ListPy.for_pages BUCKET (tag_errors_as_untagged aws) i pages acc w.
Proof.
  revert i acc w. induction pages as [|p pages IH]; intros i acc w; [reflexivity |].
  simpl. unfold mbind, M_bind, bind, perform. destruct p as [pg|e]; [| reflexivity].
  rewrite for_objects_untagged.
  destruct (ListPy.for_objects _ _ _ acc _) as [[cs|e] w1]; [apply IH | reflexivity].
Qed.

End ListFacts.

Lemma collected_run :
  ListSamples.collected = (Ok ListSamples.collected_clips, ListSamples.final_world).
Proof. vm_compute. reflexivity. Qed.

Lemma listing_run :
  ListPy.handler Samples.bucket ListSamples.gallery empty_world =
    (Ok ListSamples.listing, ListSamples.final_world).
Proof. vm_compute. reflexivity. Qed.

Example listing_order :
  map ListPy.clip_key (ListPy.body ListSamples.listing) =
    [ListSamples.key2; ListSamples.key1; ListSamples.key3] /\
  map ListPy.timestamp (ListPy.body ListSamples.listing) =
    ["2026-02-22T07:00:00+00:00"; "2026-02-21T12:00:00+00:00"; "2026-02-20T23:59:59+00:00"] /\
  map ListPy.kept (ListPy.body ListSamples.listing) = [false; true; false].
Proof. vm_compute. repeat split. Qed.

Lemma kept_reflects_keep_tag_witness :
  exists h tl,
    calls ListSamples.final_world =
      h ++ GetObjectTagging Samples.bucket (ListPy.clip_key ListSamples.clip1) :: tl /\
    forall t, s3_get_object_tagging ListSamples.gallery h Samples.bucket
                (ListPy.clip_key ListSamples.clip1) = Ok t ->
      let tags := default [] (TagSet t) in
      ((forall v, ~ In ("keep", v) tags) -> ListPy.kept ListSamples.clip1 = false) /\
      (In ("keep", "true") tags -> ListPy.kept ListSamples.clip1 = true) /\
      ((forall v, In ("keep", v) tags -> v <> "true") -> ListPy.kept ListSamples.clip1 = false).
Proof.
  refine (kept_reflects_keep_tag Samples.bucket ListSamples.gallery empty_world
            ListSamples.final_world ListSamples.listing ListSamples.clip1 listing_run _).
  vm_compute. right. left. reflexivity.
Defined.

Lemma listing_newest_first_witness :
  exists resp,
    ListPy.handler Samples.bucket ListSamples.gallery empty_world =
      (Ok resp, ListSamples.final_world) /\
    ListPy.statusCode resp = 200%Z /\
    Permutation ListSamples.collected_clips (ListPy.body resp) /\
    StronglySorted not_older (ListPy.body resp) /\
    StronglySorted newer (ListPy.body resp).
Proof.
  refine (listing_newest_first Samples.bucket ListSamples.gallery empty_world
            ListSamples.final_world ListSamples.collected_clips collected_run _).
  vm_compute. repeat constructor; simpl; intuition discriminate.
Defined.

(** ** Key / name codec: [parse_timestamp] *)

(** *** On strings *)

Lemma at_dollar_iff (tl : string) :
  ListPy.at_dollar tl = true <-> tl = "" \/ tl = ListPy.newline.
Proof.
  unfold ListPy.at_dollar. rewrite orb_true_iff, !String.eqb_eq. reflexivity.
Qed.

Lemma take_digits_some (n : nat) (s ds tl : string) :
  ListPy.take_digits n s = Some (ds, tl) ->
  s = ds +:+ tl /\ String.length ds = n /\ all_digits ds = true.
Proof.
  revert s ds tl. induction n as [|n IH]; intros s ds tl; simpl.
  - intros H. injection H as <- <-. now repeat split.
  - destruct s as [|c s]; [discriminate |].
    destruct (Datetime.is_digit c) eqn:Hc; [| discriminate].
    destruct (ListPy.take_digits n s) as [[ds' tl']|] eqn:E; [| discriminate].
    intros H. injection H as <- <-.
    destruct (IH _ _ _ E) as (-> & <- & Hd). simpl. rewrite Hc, Hd. now repeat split.
Qed.

Lemma match_here_some (s g1 g2 : string) :
  ListPy.match_here s = Some (g1, g2) ->
  exists tl, s = stamp_text g1 g2 +:+ tl /\ stamp_groups g1 g2 tl.
Proof.
  unfold ListPy.match_here. destruct s as [|c s]; [discriminate |].
  destruct (Ascii.eqb_spec c "_") as [-> |]; [| discriminate].
  destruct (ListPy.take_digits 8 s) as [[d1 r1]|] eqn:E1; [| discriminate].
  destruct r1 as [|c2 r2]; [discriminate |].
  destruct (Ascii.eqb_spec c2 "_") as [-> |]; [| discriminate].
  destruct (ListPy.take_digits 6 r2) as [[d2 tl]|] eqn:E2; [| discriminate].
  destruct (ListPy.at_dollar tl) eqn:Htl; [| discriminate].
  intros H. injection H as <- <-.
  apply take_digits_some in E1 as (-> & Hl1 & Hd1).
  apply take_digits_some in E2 as (-> & Hl2 & Hd2).
  exists tl. split.
  - unfold stamp_text. rewrite !app_assoc_str. reflexivity.
  - constructor; try assumption. now apply at_dollar_iff.
Qed.

Lemma re_search_cons (c : ascii) (s : string) :
  ListPy.re_search (String c s) =
  match ListPy.match_here (String c s) with
  | Some g => Some g
  | None => ListPy.re_search s
  end.
Proof. reflexivity. Qed.

Lemma re_search_some (s g1 g2 : string) :
  ListPy.re_search s = Some (g1, g2) ->
  exists p tl, s = p +:+ stamp_text g1 g2 +:+ tl /\ stamp_groups g1 g2 tl.
Proof.
  induction s as [|c s IH]; [discriminate |].
  rewrite re_search_cons.
  - destruct (ListPy.match_here (String c s)) as [[h1 h2]|] eqn:E.
    + intros H. injection H as <- <-.
      apply match_here_some in E as (tl & -> & Hg). now exists "", tl.
    + intros H. destruct (IH H) as (p & tl & -> & Hg). now exists (String c p), tl.
Qed.

(** *** Numbers and their digits *)

Lemma digit_char_code (n : nat) :
  nat_of_ascii (Datetime.digit_char n) = 48 + n mod 10.
Proof.
  unfold Datetime.digit_char. apply nat_ascii_embedding.
  pose proof (Nat.mod_upper_bound n 10). lia.
Qed.

(** From here on the digit characters are handled through the lemmas
    above only. *)
Opaque Datetime.digit_char Datetime.digit_val.

Lemma int_of_two (a b : ascii) :
  Datetime.int_of_digits (String a (String b "")) =
  10 * Datetime.digit_val a + Datetime.digit_val b.
Proof. unfold Datetime.int_of_digits. cbn [list_ascii_of_string fold_left]. lia. Qed.

Lemma int_of_four (a b c d : ascii) :
  Datetime.int_of_digits (String a (String b (String c (String d "")))) =
  10 * (10 * (10 * Datetime.digit_val a + Datetime.digit_val b) + Datetime.digit_val c)
  + Datetime.digit_val d.
Proof. unfold Datetime.int_of_digits. cbn [list_ascii_of_string fold_left]. lia. Qed.

Lemma two_digits (n : nat) : n < 100 -> 10 * ((n / 10) mod 10) + n mod 10 = n.
Proof.
  intros Hn. assert (n / 10 < 10) by (apply Nat.Div0.div_lt_upper_bound; lia).
  rewrite (Nat.mod_small (n / 10)) by lia.
  pose proof (Nat.div_mod_eq n 10). lia.
Qed.

(** *** The stamp in numbers *)

Lemma days_in_month_le (Y m : nat) : Datetime.days_in_month Y m <= 31.
Proof.
  unfold Datetime.days_in_month.
  do 12 (destruct m as [|m]; [destruct (Datetime.is_leap Y); lia |]). lia.
Qed.

Lemma all_digits_cons (c : ascii) (s : string) :
  all_digits (String c s) = true -> Datetime.is_digit c = true /\ all_digits s = true.
Proof. simpl. apply andb_true_iff. Qed.

Lemma isoformat_texts (Y m d H Mi S : nat) :
  Datetime.isoformat (Datetime Y m d H Mi S 0) = iso_text Y m d H Mi S.
Proof. reflexivity. Qed.

(** *** On text of any code points *)

Lemma first_of_some {A B} (f : A -> option B) (l : list A) (b : B) :
  Unicode.first_of f l = Some b -> exists a, In a l /\ f a = Some b.
Proof.
  induction l as [|a l IH]; simpl; [discriminate |].
  destruct (f a) as [b'|] eqn:E.
  - intros H. injection H as <-. exists a. auto.
  - intros H. destruct (IH H) as (a' & Ha' & Hf). exists a'. auto.
Qed.

Section UnicodeFacts.
Variable decimal : N -> option nat.
Hypothesis table : decimal_table decimal.

Local Abbreviation is_dec := (Unicode.is_decimal decimal).
Local Abbreviation in_class := (Unicode.in_class decimal).
Local Abbreviation val := (digit_value decimal).
Local Abbreviation num := (two decimal).
Local Abbreviation fits := (matches decimal).
Local Abbreviation some_alt := (some_alternative decimal).

Lemma digit_value_lt (c : N) : val c < 10.
Proof.
  unfold digit_value. destruct (decimal c) as [v|] eqn:E; simpl; [| lia].
  exact (table_values decimal table c v E).
Qed.

Lemma is_decimal_value (c : N) : is_dec c = true -> decimal c = Some (val c).
Proof.
  unfold Unicode.is_decimal, digit_value. now destruct (decimal c).
Qed.

Lemma ascii_digit_range (c : N) : ascii_digit c = true <-> (48 <= c <= 57)%N.
Proof. unfold ascii_digit. rewrite andb_true_iff, !N.leb_le. reflexivity. Qed.

Lemma ascii_digit_value (c : N) : ascii_digit c = true -> val c = N.to_nat c - 48.
Proof.
  intros H. unfold digit_value.
  rewrite (table_ascii decimal table c) by (apply ascii_digit_range in H; lia).
  unfold ascii_decimal. now rewrite H.
Qed.

Lemma ascii_digit_decimal (c : N) : ascii_digit c = true -> is_dec c = true.
Proof.
  intros H. unfold Unicode.is_decimal.
  rewrite (table_ascii decimal table c) by (apply ascii_digit_range in H; lia).
  unfold ascii_decimal. now rewrite H.
Qed.

Lemma decimal_below_128 (c : N) : (c < 128)%N -> is_dec c = ascii_digit c.
Proof.
  intros H. unfold Unicode.is_decimal. rewrite (table_ascii decimal table c H).
  unfold ascii_decimal. now destruct (ascii_digit c).
Qed.

Lemma in_class_range_true (lo hi : ascii) (c : N) :
  (Unicode.ord lo <= c <= Unicode.ord hi)%N -> in_class (Unicode.Range lo hi) c = true.
Proof. intros [H1 H2]. simpl. apply andb_true_iff. now rewrite !N.leb_le. Qed.

Lemma in_class_range_false (lo hi : ascii) (c : N) :
  (c < Unicode.ord lo \/ Unicode.ord hi < c)%N -> in_class (Unicode.Range lo hi) c = false.
Proof.
  intros H. simpl. apply andb_false_iff. rewrite !N.leb_gt. destruct H; auto.
Qed.

Lemma in_class_range (lo hi : ascii) (c : N) :
  in_class (Unicode.Range lo hi) c = true -> (Unicode.ord lo <= c <= Unicode.ord hi)%N.
Proof. simpl. rewrite andb_true_iff, !N.leb_le. auto. Qed.

(** *** The pattern of [parse_timestamp] *)

Lemma take_digits_some_text (n : nat) (s ds tl : Unicode.text) :
  Unicode.take_digits decimal n s = Some (ds, tl) ->
  s = ds ++ tl /\ length ds = n /\ Forall (fun c => is_dec c = true) ds.
Proof.
  revert s ds tl. induction n as [|n IH]; intros s ds tl; simpl.
  - intros H. injection H as <- <-. now repeat split.
  - destruct s as [|c s]; [discriminate |].
    destruct (is_dec c) eqn:Hc; [| discriminate].
    destruct (Unicode.take_digits decimal n s) as [[ds' tl']|] eqn:E; [| discriminate].
    intros H. injection H as <- <-.
    destruct (IH _ _ _ E) as (-> & <- & Hd). repeat split. now constructor.
Qed.

Lemma take_digits_app_text (ds tl : Unicode.text) :
  Forall (fun c => is_dec c = true) ds ->
  Unicode.take_digits decimal (length ds) (ds ++ tl) = Some (ds, tl).
Proof.
  induction 1 as [|c ds Hc _ IH]; [reflexivity |].
  simpl. now rewrite Hc, IH.
Qed.

Lemma at_dollar_iff_text (tl : Unicode.text) :
  Unicode.at_dollar tl = true <-> tl = [] \/ tl = [Unicode.newline].
Proof.
  destruct tl as [|c [|c' tl]]; simpl.
  - split; auto.
  - rewrite N.eqb_eq. split; [intros ->; auto | intros [H | H]; [discriminate | now injection H]].
  - split; [discriminate | intros [H | H]; discriminate].
Qed.

Lemma stamped_text_length (p : Unicode.text) (st : Stamp.t) (tl : Unicode.text) :
  length (stamped_text p st tl) = length p + 16 + length tl.
Proof. unfold stamped_text. rewrite !List.length_app. simpl. lia. Qed.

Lemma match_here_some_text (s g1 g2 : Unicode.text) :
  Unicode.match_here decimal s = Some (g1, g2) ->
  exists st tl,
    g1 = Stamp.date st /\ g2 = Stamp.time st /\ all_decimal decimal st /\
    (tl = [] \/ tl = [Unicode.newline]) /\ s = stamped_text [] st tl.
Proof.
  unfold Unicode.match_here. destruct s as [|c s]; [discriminate |].
  destruct (N.eqb_spec c (Unicode.ord "_")) as [-> |]; [| discriminate].
  destruct (Unicode.take_digits decimal 8 s) as [[ds1 r1]|] eqn:E1; [| discriminate].
  destruct r1 as [|c2 r2]; [discriminate |].
  destruct (N.eqb_spec c2 (Unicode.ord "_")) as [-> |]; [| discriminate].
  destruct (Unicode.take_digits decimal 6 r2) as [[ds2 tl]|] eqn:E2; [| discriminate].
  destruct (Unicode.at_dollar tl) eqn:Htl; [| discriminate].
  intros H. injection H as <- <-.
  apply take_digits_some_text in E1 as (-> & Hl1 & Hd1).
  apply take_digits_some_text in E2 as (-> & Hl2 & Hd2).
  do 8 (destruct ds1 as [|? ds1]; [discriminate Hl1 |]).
  destruct ds1; [| discriminate Hl1].
  do 6 (destruct ds2 as [|? ds2]; [discriminate Hl2 |]).
  destruct ds2; [| discriminate Hl2].
  exists (Stamp.Make n n0 n1 n2 n3 n4 n5 n6 n7 n8 n9 n10 n11 n12), tl.
  split; [reflexivity |]. split; [reflexivity |]. split.
  { unfold all_decimal. apply Forall_app. now split. }
  split; [now apply at_dollar_iff_text | reflexivity].
Qed.

Lemma match_here_stamped (st : Stamp.t) (tl : Unicode.text) :
  all_decimal decimal st -> tl = [] \/ tl = [Unicode.newline] ->
  Unicode.match_here decimal (stamped_text [] st tl) = Some (Stamp.date st, Stamp.time st).
Proof.
  intros Hd Htl. apply Forall_app in Hd as [Hd1 Hd2].
  unfold stamped_text, Unicode.match_here. cbn [app].
  rewrite N.eqb_refl.
  change (Unicode.take_digits decimal 8) with (Unicode.take_digits decimal (length (Stamp.date st))).
  change (Stamp.y1 st :: Stamp.y2 st :: Stamp.y3 st :: Stamp.y4 st :: Stamp.m1 st ::
          Stamp.m2 st :: Stamp.d1 st :: Stamp.d2 st :: Unicode.ord "_" :: Stamp.time st ++ tl)
    with (Stamp.date st ++ Unicode.ord "_" :: Stamp.time st ++ tl).
  rewrite take_digits_app_text by exact Hd1. rewrite N.eqb_refl.
  change (Unicode.take_digits decimal 6) with (Unicode.take_digits decimal (length (Stamp.time st))).
  rewrite take_digits_app_text by exact Hd2.
  apply at_dollar_iff_text in Htl. now rewrite Htl.
Qed.

Lemma newline_not_decimal : is_dec Unicode.newline = false.
Proof. now rewrite decimal_below_128. Qed.

Lemma re_search_cons_text (c : N) (s : Unicode.text) :
  Unicode.re_search decimal (c :: s) =
  match Unicode.match_here decimal (c :: s) with
  | Some g => Some g
  | None => Unicode.re_search decimal s
  end.
Proof. reflexivity. Qed.

Lemma re_search_some_text (s g1 g2 : Unicode.text) :
  Unicode.re_search decimal s = Some (g1, g2) ->
  exists p st tl,
    g1 = Stamp.date st /\ g2 = Stamp.time st /\ all_decimal decimal st /\
    (tl = [] \/ tl = [Unicode.newline]) /\ s = stamped_text p st tl.
Proof.
  induction s as [|c s IH]; [discriminate |].
  rewrite re_search_cons_text.
  destruct (Unicode.match_here decimal (c :: s)) as [[k1 k2]|] eqn:E.
  - intros H. injection H as <- <-.
    apply match_here_some_text in E as (st & tl & H1 & H2 & Hd & Htl & Hs).
    now exists [], st, tl.
  - intros H. destruct (IH H) as (p & st & tl & H1 & H2 & Hd & Htl & ->).
    now exists (c :: p), st, tl.
Qed.

(** A match is the only one: nothing earlier in the text matches. *)
Lemma re_search_stamped (p : Unicode.text) (st : Stamp.t) (tl : Unicode.text) :
  all_decimal decimal st -> tl = [] \/ tl = [Unicode.newline] ->
  Unicode.re_search decimal (stamped_text p st tl) = Some (Stamp.date st, Stamp.time st).
Proof.
  intros Hd Htl. induction p as [|c p IH].
  - pose proof (match_here_stamped st tl Hd Htl) as Hm.
    change (stamped_text [] st tl)
      with (Unicode.ord "_" :: Stamp.date st ++ [Unicode.ord "_"] ++ Stamp.time st ++ tl) in *.
    now rewrite re_search_cons_text, Hm.
  - change (stamped_text (c :: p) st tl) with (c :: stamped_text p st tl).
    rewrite re_search_cons_text.
    destruct (Unicode.match_here decimal (c :: stamped_text p st tl)) as [[k1 k2]|] eqn:E;
      [exfalso | exact IH].
    apply match_here_some_text in E as (st' & tl' & _ & _ & _ & Htl' & Heq).
    pose proof (f_equal (@length N) Heq) as Hlen.
    simpl in Hlen. rewrite !stamped_text_length in Hlen. simpl in Hlen.
    assert (Hp : p = []) by (destruct p; [reflexivity | destruct Htl as [-> | ->], Htl' as [-> | ->]; simpl in Hlen; lia]).
    subst p.
    destruct Htl as [-> | ->], Htl' as [-> | ->]; simpl in Hlen; try lia.
    apply Forall_app in Hd as [_ Hd2].
    destruct st, st'. unfold stamped_text in Heq. simpl in Heq.
    unfold Stamp.time in Hd2. cbn [Stamp.h1 Stamp.h2 Stamp.mi1 Stamp.mi2 Stamp.s1 Stamp.s2] in Hd2.
    injection Heq as _ _ _ _ _ _ _ _ _ _ _ _ _ _ _ _ Hs2.
    apply Forall_inv_tail, Forall_inv_tail, Forall_inv_tail, Forall_inv_tail,
      Forall_inv_tail, Forall_inv in Hd2.
    rewrite Hs2, newline_not_decimal in Hd2. discriminate Hd2.
Qed.

(** *** The pattern of [strptime] *)

Lemma match_seq_some (ks : list Unicode.cclass) (s g tl : Unicode.text) :
  Unicode.match_seq decimal ks s = Some (g, tl) -> s = g ++ tl /\ fits ks g.
Proof.
  revert s g tl. induction ks as [|k ks IH]; intros s g tl; simpl.
  - intros H. injection H as <- <-. split; [reflexivity | constructor].
  - destruct s as [|c s]; [discriminate |].
    destruct (in_class k c) eqn:Hk; [| discriminate].
    destruct (Unicode.match_seq decimal ks s) as [[g' tl']|] eqn:E; [| discriminate].
    intros H. injection H as <- <-. destruct (IH _ _ _ E) as [-> Hg].
    split; [reflexivity | now constructor].
Qed.

Lemma match_seq_fits (ks : list Unicode.cclass) (g tl : Unicode.text) :
  fits ks g -> Unicode.match_seq decimal ks (g ++ tl) = Some (g, tl).
Proof.
  induction 1 as [|k c ks g Hk _ IH]; [reflexivity |].
  simpl. now rewrite Hk, IH.
Qed.

Lemma fits_length (ks : list Unicode.cclass) (g : Unicode.text) :
  fits ks g -> length g = length ks.
Proof. intros H. symmetry. exact (Forall2_length _ _ _ H). Qed.

Lemma match_groups_sound (gs : list (list (list Unicode.cclass))) (s : Unicode.text)
    (found : list Unicode.text) (tl : Unicode.text) :
  Unicode.match_groups decimal gs s = Some (found, tl) ->
  s = concat found ++ tl /\ Forall2 some_alt gs found.
Proof.
  revert s found tl. induction gs as [|alts gs IH]; intros s found tl; simpl.
  - intros H. injection H as <- <-. split; [reflexivity | constructor].
  - intros H. apply first_of_some in H as (ks & Hks & H).
    destruct (Unicode.match_seq decimal ks s) as [[g rest]|] eqn:E; [| discriminate].
    destruct (Unicode.match_groups decimal gs rest) as [[found' tl']|] eqn:E'; [| discriminate].
    injection H as <- <-.
    apply match_seq_some in E as [-> Hg]. apply IH in E' as [-> Hf].
    split; [simpl; now rewrite <- app_assoc |].
    constructor; [now exists ks | exact Hf].
Qed.

Lemma year_step (gs : list (list (list Unicode.cclass))) (a b c d : N)
    (rest : Unicode.text) (found : list Unicode.text) (tl : Unicode.text) :
  is_dec a = true -> is_dec b = true -> is_dec c = true -> is_dec d = true ->
  Unicode.match_groups decimal gs rest = Some (found, tl) ->
  Unicode.match_groups decimal (Unicode.directive_Y :: gs) (a :: b :: c :: d :: rest) =
    Some ([a; b; c; d] :: found, tl).
Proof.
  intros Ha Hb Hc Hd Hrest. unfold Unicode.directive_Y.
  cbn [Unicode.match_groups Unicode.first_of Unicode.match_seq Unicode.in_class].
  now rewrite Ha, Hb, Hc, Hd, Hrest.
Qed.

Lemma fits_two (k1 k2 : Unicode.cclass) (ks : list Unicode.cclass) (a b : N) :
  fits (k1 :: k2 :: ks) [a; b] -> ks = [] /\ in_class k1 a = true /\ in_class k2 b = true.
Proof.
  intros H. inversion H as [|? ? ? ? Ha H']; subst.
  inversion H' as [|? ? ? ? Hb H'']; subst. inversion H''; subst. auto.
Qed.

Lemma fits_one_two (k : Unicode.cclass) (a b : N) : ~ fits [k] [a; b].
Proof. intros H. inversion H as [|? ? ? ? _ H']; subst. inversion H'. Qed.

(** A field of two characters that fits one of the alternatives of its
    directive is what the directive matches first. *)
Lemma two_step (alts : list (list Unicode.cclass)) (gs : list (list (list Unicode.cclass)))
    (a b : N) (rest : Unicode.text) (found : list Unicode.text) (tl : Unicode.text) :
  In alts [Unicode.directive_m; Unicode.directive_d; Unicode.directive_H;
           Unicode.directive_M; Unicode.directive_S] ->
  some_alt alts [a; b] ->
  Unicode.match_groups decimal gs rest = Some (found, tl) ->
  Unicode.match_groups decimal (alts :: gs) (a :: b :: rest) = Some ([a; b] :: found, tl).
Proof.
  intros Halts (ks & Hks & Hfit) Hrest.
  simpl in Halts.
  repeat match goal with H : _ \/ _ |- _ => destruct H as [H | H] end;
    try contradiction; subst alts; simpl in Hks;
    repeat match goal with H : _ \/ _ |- _ => destruct H as [H | H] end;
    try contradiction; subst ks;
    try (exfalso; exact (fits_one_two _ _ _ Hfit));
    apply fits_two in Hfit as (_ & Ha & Hb);
    try (apply in_class_range in Ha; cbn in Ha);
    try (apply in_class_range in Hb; cbn in Hb);
    cbn [Unicode.in_class] in Hb;
    cbn [Unicode.match_groups Unicode.first_of Unicode.match_seq
         Unicode.directive_m Unicode.directive_d Unicode.directive_H
         Unicode.directive_M Unicode.directive_S];
    repeat (progress (ranges; rewrite ?Hb;
                      cbn [Unicode.match_groups Unicode.first_of Unicode.match_seq andb]));
    now rewrite Hrest.
Qed.

Lemma some_alt_width (alts : list (list Unicode.cclass)) (g : Unicode.text) :
  In alts [Unicode.directive_m; Unicode.directive_d; Unicode.directive_H;
           Unicode.directive_M; Unicode.directive_S] ->
  some_alt alts g -> length g <= 2.
Proof.
  intros Halts (ks & Hks & Hfit). apply fits_length in Hfit. rewrite Hfit. clear Hfit.
  simpl in Halts.
  repeat match goal with H : _ \/ _ |- _ => destruct H as [H | H] end;
    try contradiction; subst alts; simpl in Hks;
    repeat match goal with H : _ \/ _ |- _ => destruct H as [H | H] end;
    try contradiction; subst ks; simpl; lia.
Qed.

Lemma year_width (g : Unicode.text) :
  some_alt Unicode.directive_Y g -> length g = 4.
Proof.
  intros (ks & [<- | []] & Hfit). now apply fits_length in Hfit.
Qed.

(** The groups of a match that leaves nothing of a stamp's fourteen
    characters: every field is two characters wide. *)
Lemma whole_match (st : Stamp.t) (found : list Unicode.text) :
  Unicode.match_groups decimal Unicode.format_regex (Stamp.date st ++ Stamp.time st) =
    Some (found, []) ->
  found = [[Stamp.y1 st; Stamp.y2 st; Stamp.y3 st; Stamp.y4 st];
           [Stamp.m1 st; Stamp.m2 st]; [Stamp.d1 st; Stamp.d2 st];
           [Stamp.h1 st; Stamp.h2 st]; [Stamp.mi1 st; Stamp.mi2 st];
           [Stamp.s1 st; Stamp.s2 st]] /\
  some_alt Unicode.directive_m [Stamp.m1 st; Stamp.m2 st] /\
  some_alt Unicode.directive_d [Stamp.d1 st; Stamp.d2 st] /\
  some_alt Unicode.directive_H [Stamp.h1 st; Stamp.h2 st] /\
  some_alt Unicode.directive_M [Stamp.mi1 st; Stamp.mi2 st] /\
  some_alt Unicode.directive_S [Stamp.s1 st; Stamp.s2 st].
Proof.
  intros H. apply match_groups_sound in H as [Hs Hf]. rewrite app_nil_r in Hs.
  unfold Unicode.format_regex in Hf.
  inversion Hf as [|? gY ? ? HY Hf1]; subst. inversion Hf1 as [|? gm ? ? Hm Hf2]; subst.
  inversion Hf2 as [|? gd ? ? Hd Hf3]; subst. inversion Hf3 as [|? gH ? ? HH Hf4]; subst.
  inversion Hf4 as [|? gM ? ? HM Hf5]; subst. inversion Hf5 as [|? gS ? ? HS Hf6]; subst.
  inversion Hf6; subst. clear Hf Hf1 Hf2 Hf3 Hf4 Hf5 Hf6.
  pose proof (year_width gY HY) as LY.
  pose proof (some_alt_width Unicode.directive_m gm ltac:(simpl; auto 10) Hm) as Lm.
  pose proof (some_alt_width Unicode.directive_d gd ltac:(simpl; auto 10) Hd) as Ld.
  pose proof (some_alt_width Unicode.directive_H gH ltac:(simpl; auto 10) HH) as LH.
  pose proof (some_alt_width Unicode.directive_M gM ltac:(simpl; auto 10) HM) as LM.
  pose proof (some_alt_width Unicode.directive_S gS ltac:(simpl; auto 10) HS) as LS.
  pose proof (f_equal (@length N) Hs) as Hlen. simpl in Hlen.
  rewrite !List.length_app in Hlen. simpl in Hlen.
  destruct gY as [|? [|? [|? [|? [|? ?]]]]]; try discriminate LY.
  destruct gm as [|? [|? [|? ?]]]; simpl in Lm, Hlen; try lia.
  destruct gd as [|? [|? [|? ?]]]; simpl in Ld, Hlen; try lia.
  destruct gH as [|? [|? [|? ?]]]; simpl in LH, Hlen; try lia.
  destruct gM as [|? [|? [|? ?]]]; simpl in LM, Hlen; try lia.
  destruct gS as [|? [|? [|? ?]]]; simpl in LS, Hlen; try lia.
  destruct st. simpl in Hs. injection Hs as -> -> -> -> -> -> -> -> -> -> -> -> -> ->.
  simpl. auto 10.
Qed.

(** And a stamp whose fields fit is matched whole, field by field. *)
Lemma match_whole (st : Stamp.t) :
  all_decimal decimal st ->
  some_alt Unicode.directive_m [Stamp.m1 st; Stamp.m2 st] ->
  some_alt Unicode.directive_d [Stamp.d1 st; Stamp.d2 st] ->
  some_alt Unicode.directive_H [Stamp.h1 st; Stamp.h2 st] ->
  some_alt Unicode.directive_M [Stamp.mi1 st; Stamp.mi2 st] ->
  some_alt Unicode.directive_S [Stamp.s1 st; Stamp.s2 st] ->
  Unicode.match_groups decimal Unicode.format_regex (Stamp.date st ++ Stamp.time st) =
    Some ([[Stamp.y1 st; Stamp.y2 st; Stamp.y3 st; Stamp.y4 st];
           [Stamp.m1 st; Stamp.m2 st]; [Stamp.d1 st; Stamp.d2 st];
           [Stamp.h1 st; Stamp.h2 st]; [Stamp.mi1 st; Stamp.mi2 st];
           [Stamp.s1 st; Stamp.s2 st]], []).
Proof.
  intros Hdec Hm Hd HH HM HS. unfold Unicode.format_regex, Stamp.date, Stamp.time.
  cbn [app]. unfold all_decimal, Stamp.date in Hdec. cbn [app] in Hdec.
  inversion Hdec as [|? ? D1 Hdec1]; subst. inversion Hdec1 as [|? ? D2 Hdec2]; subst.
  inversion Hdec2 as [|? ? D3 Hdec3]; subst. inversion Hdec3 as [|? ? D4 _]; subst.
  apply year_step; try assumption.
  apply two_step; [simpl; auto | exact Hm |].
  apply two_step; [simpl; auto | exact Hd |].
  apply two_step; [simpl; auto | exact HH |].
  apply two_step; [simpl; auto | exact HM |].
  apply two_step; [simpl; auto 10 | exact HS |].
  reflexivity.
Qed.

(** *** The numbers of the fields *)

Lemma blank_not_decimal (c : N) : is_dec c = true -> (c =? Unicode.ord " ")%N = false.
Proof.
  intros H. apply N.eqb_neq. intros ->. rewrite decimal_below_128 in H by (cbn; lia).
  discriminate H.
Qed.

Lemma int_two (a b : N) :
  is_dec a = true -> is_dec b = true -> Unicode.int decimal [a; b] = Some (num a b).
Proof.
  intros Ha Hb. cbn [Unicode.int Unicode.digits_value].
  rewrite (blank_not_decimal a Ha), (is_decimal_value a Ha), (is_decimal_value b Hb).
  unfold two. f_equal; lia.
Qed.

Lemma int_four (a b c d : N) :
  is_dec a = true -> is_dec b = true -> is_dec c = true -> is_dec d = true ->
  Unicode.int decimal [a; b; c; d] = Some (100 * num a b + num c d).
Proof.
  intros Ha Hb Hc Hd. cbn [Unicode.int Unicode.digits_value].
  rewrite (blank_not_decimal a Ha), (is_decimal_value a Ha), (is_decimal_value b Hb),
    (is_decimal_value c Hc), (is_decimal_value d Hd).
  unfold two. f_equal; lia.
Qed.

Lemma ascii_digit_facts (c : N) :
  ascii_digit c = true -> (48 <= c <= 57)%N /\ val c = N.to_nat c - 48.
Proof.
  intros H. split; [now apply ascii_digit_range | now apply ascii_digit_value].
Qed.

Lemma ascii_digit_of_range (c : N) : (48 <= c <= 57)%N -> ascii_digit c = true.
Proof. apply ascii_digit_range. Qed.

Lemma month_fits (a b : N) :
  is_dec a = true -> is_dec b = true ->
  (some_alt Unicode.directive_m [a; b] <->
   ascii_digit a = true /\ ascii_digit b = true /\ 1 <= num a b <= 12).
Proof.
  intros Da Db. unfold two. split.
  - intros H. alternatives H.
    all: assert (Aa : ascii_digit a = true) by (apply ascii_digit_of_range; lia).
    all: assert (Ab : ascii_digit b = true) by (apply ascii_digit_of_range; lia).
    all: destruct (ascii_digit_facts a Aa) as [_ Va], (ascii_digit_facts b Ab) as [_ Vb].
    all: repeat split; try assumption; lia.
  - intros (Aa & Ab & Hn).
    destruct (ascii_digit_facts a Aa) as [Ra Va], (ascii_digit_facts b Ab) as [Rb Vb].
    assert (Hc : (a = 48 \/ a = 49)%N) by lia. destruct Hc as [-> | ->].
    + fit_with [Unicode.Range "0" "0"; Unicode.Range "1" "9"].
    + fit_with [Unicode.Range "1" "1"; Unicode.Range "0" "2"].
Qed.

Lemma day_fits (a b : N) :
  is_dec a = true -> is_dec b = true ->
  (some_alt Unicode.directive_d [a; b] <->
   ascii_digit a = true /\ (ascii_digit b = true \/ 1 <= val a <= 2) /\
   1 <= num a b <= 31).
Proof.
  intros Da Db. unfold two. pose proof (digit_value_lt b) as Lb. split.
  - intros H. alternatives H.
    4:{ rewrite decimal_below_128 in Da by lia.
        apply ascii_digit_range in Da. lia. }
    all: assert (Aa : ascii_digit a = true) by (apply ascii_digit_of_range; lia).
    all: destruct (ascii_digit_facts a Aa) as [_ Va].
    1,3: (assert (Ab : ascii_digit b = true) by (apply ascii_digit_of_range; lia);
          destruct (ascii_digit_facts b Ab) as [_ Vb]).
    all: repeat split; try assumption; try lia.
    all: try (left; assumption); try (right; lia).
  - intros (Aa & Hb & Hn). destruct (ascii_digit_facts a Aa) as [Ra Va].
    assert (Hc : (a = 48 \/ a = 49 \/ a = 50 \/ a = 51)%N) by lia.
    destruct Hc as [-> | [-> | [-> | ->]]].
    + destruct Hb as [Ab | Hb]; [| simpl in Va; lia].
      destruct (ascii_digit_facts b Ab) as [Rb Vb].
      fit_with [Unicode.Range "0" "0"; Unicode.Range "1" "9"].
    + fit_with [Unicode.Range "1" "2"; Unicode.D].
    + fit_with [Unicode.Range "1" "2"; Unicode.D].
    + destruct Hb as [Ab | Hb]; [| simpl in Va; lia].
      destruct (ascii_digit_facts b Ab) as [Rb Vb].
      fit_with [Unicode.Range "3" "3"; Unicode.Range "0" "1"].
Qed.

Lemma hour_fits (a b : N) :
  is_dec a = true -> is_dec b = true ->
  (some_alt Unicode.directive_H [a; b] <->
   ascii_digit a = true /\ (ascii_digit b = true \/ val a <= 1) /\ num a b <= 23).
Proof.
  intros Da Db. unfold two. pose proof (digit_value_lt b) as Lb. split.
  - intros H. alternatives H.
    all: assert (Aa : ascii_digit a = true) by (apply ascii_digit_of_range; lia).
    all: destruct (ascii_digit_facts a Aa) as [_ Va].
    1: (assert (Ab : ascii_digit b = true) by (apply ascii_digit_of_range; lia);
        destruct (ascii_digit_facts b Ab) as [_ Vb]).
    all: repeat split; try assumption; try lia.
    all: try (left; assumption); try (right; lia).
  - intros (Aa & Hb & Hn). destruct (ascii_digit_facts a Aa) as [Ra Va].
    assert (Hc : (a = 48 \/ a = 49 \/ a = 50)%N) by lia.
    destruct Hc as [-> | [-> | ->]].
    + fit_with [Unicode.Range "0" "1"; Unicode.D].
    + fit_with [Unicode.Range "0" "1"; Unicode.D].
    + destruct Hb as [Ab | Hb]; [| simpl in Va; lia].
      destruct (ascii_digit_facts b Ab) as [Rb Vb].
      fit_with [Unicode.Range "2" "2"; Unicode.Range "0" "3"].
Qed.

Lemma minute_fits (a b : N) :
  is_dec a = true -> is_dec b = true ->
  (some_alt Unicode.directive_M [a; b] <-> ascii_digit a = true /\ num a b <= 59).
Proof.
  intros Da Db. unfold two. pose proof (digit_value_lt b) as Lb. split.
  - intros H. alternatives H.
    assert (Aa : ascii_digit a = true) by (apply ascii_digit_of_range; lia).
    destruct (ascii_digit_facts a Aa) as [_ Va]. split; [assumption | lia].
  - intros (Aa & Hn). destruct (ascii_digit_facts a Aa) as [Ra Va].
    fit_with [Unicode.Range "0" "5"; Unicode.D].
Qed.

Lemma second_fits (a b : N) :
  is_dec a = true -> is_dec b = true ->
  (some_alt Unicode.directive_S [a; b] <-> ascii_digit a = true /\ 
   (num a b <= 59 \/ ascii_digit b = true /\ num a b <= 61)).
Proof.
  intros Da Db. unfold two. pose proof (digit_value_lt b) as Lb. split.
  - intros H. alternatives H.
    all: assert (Aa : ascii_digit a = true) by (apply ascii_digit_of_range; lia).
    all: destruct (ascii_digit_facts a Aa) as [_ Va].
    1: (assert (Ab : ascii_digit b = true) by (apply ascii_digit_of_range; lia);
        destruct (ascii_digit_facts b Ab) as [_ Vb]).
    all: split; [assumption |].
    + right. split; [assumption | lia].
    + left. lia.
  - intros (Aa & Hn). destruct (ascii_digit_facts a Aa) as [Ra Va].
    destruct (Nat.le_gt_cases (10 * val a + val b) 59) as [Hle | Hgt].
    + fit_with [Unicode.Range "0" "5"; Unicode.D].
    + destruct Hn as [Hn | [Ab Hn]]; [lia |].
      destruct (ascii_digit_facts b Ab) as [Rb Vb].
      fit_with [Unicode.Range "6" "6"; Unicode.Range "0" "1"].
Qed.

Lemma all_decimal_each (st : Stamp.t) :
  all_decimal decimal st ->
  (is_dec (Stamp.y1 st) = true /\ is_dec (Stamp.y2 st) = true /\
   is_dec (Stamp.y3 st) = true /\ is_dec (Stamp.y4 st) = true) /\
  (is_dec (Stamp.m1 st) = true /\ is_dec (Stamp.m2 st) = true) /\
  (is_dec (Stamp.d1 st) = true /\ is_dec (Stamp.d2 st) = true) /\
  (is_dec (Stamp.h1 st) = true /\ is_dec (Stamp.h2 st) = true) /\
  (is_dec (Stamp.mi1 st) = true /\ is_dec (Stamp.mi2 st) = true) /\
  (is_dec (Stamp.s1 st) = true /\ is_dec (Stamp.s2 st) = true).
Proof.
  unfold all_decimal, Stamp.date, Stamp.time. cbn [app]. intros H.
  repeat match goal with
         | H : Forall _ (_ :: _) |- _ => apply Forall_cons_iff in H as [? H]
         end.
  auto 20.
Qed.

(** What [strptime] accepts of a stamp, in numbers. *)
Lemma accepted_iff (st : Stamp.t) :
  all_decimal decimal st ->
  (ascii_where_wanted decimal st &&
   calendar_valid (year_of decimal st) (month_of decimal st) (day_of decimal st)
     (hour_of decimal st) (minute_of decimal st) (second_of decimal st) = true
   <->
   some_alt Unicode.directive_m [Stamp.m1 st; Stamp.m2 st] /\
   some_alt Unicode.directive_d [Stamp.d1 st; Stamp.d2 st] /\
   some_alt Unicode.directive_H [Stamp.h1 st; Stamp.h2 st] /\
   some_alt Unicode.directive_M [Stamp.mi1 st; Stamp.mi2 st] /\
   some_alt Unicode.directive_S [Stamp.s1 st; Stamp.s2 st] /\
   Unicode.valid_fields (year_of decimal st) (month_of decimal st) (day_of decimal st)
     (hour_of decimal st) (minute_of decimal st) (second_of decimal st) = true).
Proof.
  intros Hdec.
  destruct (all_decimal_each st Hdec) as (_ & [Dm1 Dm2] & [Dd1 Dd2] & [Dh1 Dh2] & [Di1 Di2] & [Ds1 Ds2]).
  rewrite (month_fits _ _ Dm1 Dm2), (day_fits _ _ Dd1 Dd2), (hour_fits _ _ Dh1 Dh2),
    (minute_fits _ _ Di1 Di2), (second_fits _ _ Ds1 Ds2).
  unfold ascii_where_wanted, calendar_valid, Unicode.valid_fields.
  fold (month_of decimal st) (day_of decimal st) (hour_of decimal st)
    (minute_of decimal st) (second_of decimal st).
  pose proof (days_in_month_le (year_of decimal st) (month_of decimal st)) as Hdim.
  assert (HY : year_of decimal st < 100 * 100).
  { unfold year_of, two.
    pose proof (digit_value_lt (Stamp.y1 st)). pose proof (digit_value_lt (Stamp.y2 st)).
    pose proof (digit_value_lt (Stamp.y3 st)). pose proof (digit_value_lt (Stamp.y4 st)). lia. }
  rewrite !andb_true_iff, !orb_true_iff, !andb_true_iff, !Nat.leb_le, Nat.ltb_lt.
  intuition lia.
Qed.

Lemma strptime_stamp (st : Stamp.t) :
  all_decimal decimal st ->
  Unicode.strptime decimal (Stamp.date st ++ Stamp.time st) =
    if ascii_where_wanted decimal st &&
       calendar_valid (year_of decimal st) (month_of decimal st) (day_of decimal st)
         (hour_of decimal st) (minute_of decimal st) (second_of decimal st)
    then Some (Datetime (year_of decimal st) (month_of decimal st) (day_of decimal st)
                 (hour_of decimal st) (minute_of decimal st) (second_of decimal st) 0)
    else None.
Proof.
  intros Hdec.
  destruct (all_decimal_each st Hdec)
    as ((Dy1 & Dy2 & Dy3 & Dy4) & [Dm1 Dm2] & [Dd1 Dd2] & [Dh1 Dh2] & [Di1 Di2] & [Ds1 Ds2]).
  assert (Hint : forall found,
    found = [[Stamp.y1 st; Stamp.y2 st; Stamp.y3 st; Stamp.y4 st];
             [Stamp.m1 st; Stamp.m2 st]; [Stamp.d1 st; Stamp.d2 st];
             [Stamp.h1 st; Stamp.h2 st]; [Stamp.mi1 st; Stamp.mi2 st];
             [Stamp.s1 st; Stamp.s2 st]] ->
    Unicode.match_groups decimal Unicode.format_regex (Stamp.date st ++ Stamp.time st) =
      Some (found, []) ->
    Unicode.strptime decimal (Stamp.date st ++ Stamp.time st) =
      if Unicode.valid_fields (year_of decimal st) (month_of decimal st) (day_of decimal st)
           (hour_of decimal st) (minute_of decimal st) (second_of decimal st)
      then Some (Datetime (year_of decimal st) (month_of decimal st) (day_of decimal st)
                   (hour_of decimal st) (minute_of decimal st) (second_of decimal st) 0)
      else None).
  { intros found -> E. unfold Unicode.strptime. rewrite E.
    rewrite int_four, !int_two by assumption. reflexivity. }
  destruct (ascii_where_wanted decimal st && _) eqn:Hacc.
  - apply accepted_iff in Hacc as (Hm & Hd & HH & HM & HS & Hv); [| exact Hdec].
    rewrite (Hint _ eq_refl (match_whole st Hdec Hm Hd HH HM HS)). now rewrite Hv.
  - destruct (Unicode.strptime decimal (Stamp.date st ++ Stamp.time st)) as [dt|] eqn:Es;
      [exfalso | reflexivity].
    assert (Hw : exists found,
      Unicode.match_groups decimal Unicode.format_regex (Stamp.date st ++ Stamp.time st) =
        Some (found, [])).
    { unfold Unicode.strptime in Es.
      destruct (Unicode.match_groups decimal Unicode.format_regex _) as [[found tl]|];
        [| discriminate Es].
      destruct tl; [now exists found |].
      do 7 (try (destruct found as [|? found]; try discriminate Es)). }
    destruct Hw as [found E].
    destruct (whole_match st found E) as (Hf & Hm & Hd & HH & HM & HS).
    pose proof (Hint found Hf E) as Hdt. revert Hdt.
    destruct (Unicode.valid_fields _ _ _ _ _ _) eqn:Hv; [intros _ | discriminate].
    assert (Hyes : ascii_where_wanted decimal st &&
      calendar_valid (year_of decimal st) (month_of decimal st) (day_of decimal st)
        (hour_of decimal st) (minute_of decimal st) (second_of decimal st) = true)
      by (apply accepted_iff; auto 10).
    rewrite Hyes in Hacc. discriminate Hacc.
Qed.

(** C8, as the code has it.  A digit is any decimal digit of Unicode.  On
    a name that ends in [_], eight digits, [_], six digits, or in that
    followed by one newline, [parse_timestamp] gives
    [YYYY-MM-DDTHH:MM:SS+00:00] when the numbers the digits write are a
    date and time of the calendar and the digits are ASCII in the places
    where [strptime] takes no other; it gives [None] when they are not,
    and on every other name; and the two examples of the specification
    come out as stated.  This holds for every table [decimal] of digit
    values that has, below 128, the digits ['0'..'9'] with their values
    and no other, and gives values below ten ([decimal_table]): whatever
    the decimal digits beyond ASCII are. *)
Theorem parse_timestamp_spec :
  (forall p st tl,
     all_decimal decimal st -> tl = [] \/ tl = [Unicode.newline] ->
     Unicode.parse_timestamp decimal (stamped_text p st tl) =
       if ascii_where_wanted decimal st &&
          calendar_valid (year_of decimal st) (month_of decimal st) (day_of decimal st)
            (hour_of decimal st) (minute_of decimal st) (second_of decimal st)
       then Some (iso_text (year_of decimal st) (month_of decimal st) (day_of decimal st)
                    (hour_of decimal st) (minute_of decimal st) (second_of decimal st))
       else None) /\
  (forall name,
     (forall p st tl,
        all_decimal decimal st -> tl = [] \/ tl = [Unicode.newline] ->
        name <> stamped_text p st tl) ->
     Unicode.parse_timestamp decimal name = None) /\
  Unicode.parse_timestamp decimal (Unicode.of_string "cam1_20260221_120000") =
    Some "2026-02-21T12:00:00+00:00" /\
  Unicode.parse_timestamp decimal (Unicode.of_string "cam1_bad_data") = None.
Proof.
  assert (H1 : forall p st tl,
     all_decimal decimal st -> tl = [] \/ tl = [Unicode.newline] ->
     Unicode.parse_timestamp decimal (stamped_text p st tl) =
       if ascii_where_wanted decimal st &&
          calendar_valid (year_of decimal st) (month_of decimal st) (day_of decimal st)
            (hour_of decimal st) (minute_of decimal st) (second_of decimal st)
       then Some (iso_text (year_of decimal st) (month_of decimal st) (day_of decimal st)
                    (hour_of decimal st) (minute_of decimal st) (second_of decimal st))
       else None).
  { intros p st tl Hdec Htl. unfold Unicode.parse_timestamp.
    rewrite (re_search_stamped p st tl Hdec Htl), (strptime_stamp st Hdec).
    now destruct (ascii_where_wanted decimal st && _). }
  assert (H2 : forall name,
     (forall p st tl,
        all_decimal decimal st -> tl = [] \/ tl = [Unicode.newline] ->
        name <> stamped_text p st tl) ->
     Unicode.parse_timestamp decimal name = None).
  { intros name Hno. unfold Unicode.parse_timestamp.
    destruct (Unicode.re_search decimal name) as [[g1 g2]|] eqn:E; [exfalso | reflexivity].
    apply re_search_some_text in E as (p & st & tl & _ & _ & Hdec & Htl & Hname).
    exact (Hno p st tl Hdec Htl Hname). }
  split; [exact H1 |]. split; [exact H2 |]. split.
  - change (Unicode.of_string "cam1_20260221_120000")
      with (stamped_text (Unicode.of_string "cam1")
              (Stamp.Make 50 48 50 54 48 50 50 49 49 50 48 48 48 48) []).
    rewrite H1; [| | now left].
    + unfold ascii_where_wanted, year_of, month_of, day_of, hour_of, minute_of, second_of, two.
      cbn [Stamp.y1 Stamp.y2 Stamp.y3 Stamp.y4 Stamp.m1 Stamp.m2 Stamp.d1 Stamp.d2
           Stamp.h1 Stamp.h2 Stamp.mi1 Stamp.mi2 Stamp.s1 Stamp.s2].
      rewrite !ascii_digit_value by reflexivity. reflexivity.
    + unfold all_decimal. repeat constructor; now apply ascii_digit_decimal.
  - apply H2. intros p st tl _ _ Heq. apply (f_equal (@length N)) in Heq.
    rewrite stamped_text_length in Heq. simpl in Heq. lia.
Qed.

End UnicodeFacts.

Lemma all_decimal_check (decimal : N -> option nat) (st : Stamp.t) :
  forallb (Unicode.is_decimal decimal) (Stamp.date st ++ Stamp.time st) = true ->
  all_decimal decimal st.
Proof.
  intros H. apply List.Forall_forall. intros c Hc.
  exact (proj1 (forallb_forall _ _) H c Hc).
Qed.

Lemma find_none_all {A} (f : A -> bool) (l : list A) :
  Forall (fun a => f a = false) l -> List.find f l = None.
Proof. induction 1 as [|a l Ha _ IH]; simpl; [reflexivity | now rewrite Ha]. Qed.

Lemma find_cons_eq {A} (f : A -> bool) (a : A) (l : list A) :
  List.find f (a :: l) = if f a then Some a else List.find f l.
Proof. reflexivity. Qed.

(** The table of Unicode 14.0 is such a table. *)
Lemma unicode14_table : decimal_table Unicode14.decimal.
Proof.
  split.
  - intros c Hc. unfold Unicode14.decimal, Unicode14.zeros, ascii_decimal, ascii_digit.
    rewrite find_cons_eq.
    rewrite find_none_all
      by (repeat constructor; apply andb_false_iff; left; apply N.leb_gt; lia).
    destruct (N.leb_spec 48 c) as [H1 | H1]; destruct (N.ltb_spec c (48 + 10)) as [H2 | H2];
      destruct (N.leb_spec c 57) as [H3 | H3]; try lia; cbn [andb]; try reflexivity.
    f_equal. lia.
  - intros c v. unfold Unicode14.decimal.
    destruct (List.find _ Unicode14.zeros) as [z|] eqn:E; [| discriminate].
    apply List.find_some in E as [_ E]. apply andb_true_iff in E as [E1 E2].
    apply N.leb_le in E1. apply N.ltb_lt in E2. intros H. injection H as <-. lia.
Qed.

Lemma parse_timestamp_spec_witness :
  Unicode.parse_timestamp Unicode14.decimal
    (stamped_text (Unicode.of_string "cam1") Unicode14.fullwidth_year []) =
    Some "2026-02-21T12:00:00+00:00" /\
  Unicode.parse_timestamp Unicode14.decimal
    (stamped_text (Unicode.of_string "cam1") Unicode14.fullwidth [Unicode.newline]) = None.
Proof.
  split.
  - refine (eq_trans
              (proj1 (parse_timestamp_spec Unicode14.decimal unicode14_table)
                 (Unicode.of_string "cam1") Unicode14.fullwidth_year [] _ _) _).
    + apply all_decimal_check. vm_compute. reflexivity.
    + now left.
    + vm_compute. reflexivity.
  - refine (eq_trans
              (proj1 (parse_timestamp_spec Unicode14.decimal unicode14_table)
                 (Unicode.of_string "cam1") Unicode14.fullwidth [Unicode.newline] _ _) _).
    + apply all_decimal_check. vm_compute. reflexivity.
    + now right.
    + vm_compute. reflexivity.
Defined.

(** The name [cam1_20260221_120000] followed by a newline does not end
    in the pattern, its last character being the newline, which is no
    digit, and yet is given a timestamp: [$] also matches before a final
    newline. *)
Lemma parse_timestamp_trailing_newline :
  let name := Unicode.of_string "cam1_20260221_120000" ++ [Unicode.newline] in
  Unicode.parse_timestamp Unicode14.decimal name = Some "2026-02-21T12:00:00+00:00" /\
  last name = Some Unicode.newline /\
  Unicode.is_decimal Unicode14.decimal Unicode.newline = false.
Proof. vm_compute. repeat split. Qed.

(** *** The handlers' [parse_timestamp] is this one, on strings *)

Section Latin1.
Variable decimal : N -> option nat.
Hypothesis table : decimal_table decimal.
Hypothesis latin1 : forall c, (128 <= c < 256)%N -> decimal c = None.

Lemma ord_below_256 (c : ascii) : (Unicode.ord c < 256)%N.
Proof. apply N_ascii_bounded. Qed.

Lemma ascii_digit_ord (c : ascii) : ascii_digit (Unicode.ord c) = Datetime.is_digit c.
Proof.
  unfold ascii_digit, Datetime.is_digit, Unicode.ord, nat_of_ascii.
  apply eq_true_iff_eq. rewrite !andb_true_iff, !N.leb_le, !Nat.leb_le. lia.
Qed.

Lemma is_decimal_ord (c : ascii) :
  Unicode.is_decimal decimal (Unicode.ord c) = Datetime.is_digit c.
Proof.
  rewrite <- ascii_digit_ord.
  destruct (N.lt_ge_cases (Unicode.ord c) 128) as [H | H].
  - now apply decimal_below_128.
  - unfold Unicode.is_decimal. rewrite latin1 by (pose proof (ord_below_256 c); lia).
    symmetry. apply not_true_is_false. rewrite ascii_digit_range. lia.
Qed.

Lemma of_string_cons (c : ascii) (s : string) :
  Unicode.of_string (String c s) = Unicode.ord c :: Unicode.of_string s.
Proof. reflexivity. Qed.

Lemma of_string_app (a b : string) :
  Unicode.of_string (a +:+ b) = Unicode.of_string a ++ Unicode.of_string b.
Proof.
  induction a as [|c a IH]; [reflexivity |].
  rewrite app_cons, !of_string_cons, IH. reflexivity.
Qed.

Lemma ord_inj (a b : ascii) : Unicode.ord a = Unicode.ord b -> a = b.
Proof.
  unfold Unicode.ord. intros H.
  rewrite <- (ascii_N_embedding a), <- (ascii_N_embedding b). now rewrite H.
Qed.

Lemma ord_eqb (a b : ascii) : (Unicode.ord a =? Unicode.ord b)%N = Ascii.eqb a b.
Proof.
  destruct (Ascii.eqb_spec a b) as [-> | Hne]; [apply N.eqb_refl |].
  apply N.eqb_neq. intros H. now apply Hne, ord_inj.
Qed.

Lemma take_digits_of_string (n : nat) (s : string) :
  Unicode.take_digits decimal n (Unicode.of_string s) =
  option_map text_pair (ListPy.take_digits n s).
Proof.
  revert s. induction n as [|n IH]; intros s; [reflexivity |].
  destruct s as [|c s]; [reflexivity |].
  rewrite of_string_cons. cbn [Unicode.take_digits ListPy.take_digits].
  rewrite is_decimal_ord, IH. destruct (Datetime.is_digit c); [| reflexivity].
  now destruct (ListPy.take_digits n s) as [[ds tl]|].
Qed.

Lemma at_dollar_of_string (s : string) :
  Unicode.at_dollar (Unicode.of_string s) = ListPy.at_dollar s.
Proof.
  destruct s as [|c [|c' s]]; [reflexivity | |].
  - rewrite !of_string_cons. cbn [Unicode.at_dollar Unicode.of_string].
    change Unicode.newline with (Unicode.ord (ascii_of_nat 10)). rewrite ord_eqb.
    unfold ListPy.at_dollar, ListPy.newline. cbn [String.eqb orb].
    now destruct (Ascii.eqb c (ascii_of_nat 10)).
  - rewrite !of_string_cons. cbn [Unicode.at_dollar].
    unfold ListPy.at_dollar, ListPy.newline. cbn [String.eqb orb].
    now destruct (Ascii.eqb c (ascii_of_nat 10)).
Qed.

Lemma match_here_of_string (s : string) :
  Unicode.match_here decimal (Unicode.of_string s) = option_map text_pair (ListPy.match_here s).
Proof.
  destruct s as [|c s]; [reflexivity |].
  rewrite of_string_cons. unfold Unicode.match_here, ListPy.match_here.
  rewrite ord_eqb. destruct (Ascii.eqb c "_"); [| reflexivity].
  rewrite take_digits_of_string.
  destruct (ListPy.take_digits 8 s) as [[g1 r1]|]; [| reflexivity].
  cbn [option_map text_pair fst snd]. destruct r1 as [|c2 r2]; [reflexivity |].
  rewrite of_string_cons, ord_eqb. destruct (Ascii.eqb c2 "_"); [| reflexivity].
  rewrite take_digits_of_string.
  destruct (ListPy.take_digits 6 r2) as [[g2 tl]|]; [| reflexivity].
  cbn [option_map text_pair fst snd]. rewrite at_dollar_of_string.
  now destruct (ListPy.at_dollar tl).
Qed.

Lemma re_search_of_string (s : string) :
  Unicode.re_search decimal (Unicode.of_string s) = option_map text_pair (ListPy.re_search s).
Proof.
  induction s as [|c s IH]; [reflexivity |].
  rewrite re_search_cons, of_string_cons, re_search_cons_text, <- of_string_cons.
  rewrite match_here_of_string.
  destruct (ListPy.match_here (String c s)) as [g|]; [reflexivity | exact IH].
Qed.

Lemma digit_value_ord (c : ascii) :
  Datetime.is_digit c = true -> digit_value decimal (Unicode.ord c) = Datetime.digit_val c.
Proof.
  intros H. rewrite (ascii_digit_value decimal table) by now rewrite ascii_digit_ord.
  reflexivity.
Qed.

Lemma two_ord (a b : ascii) :
  Datetime.is_digit a = true -> Datetime.is_digit b = true ->
  two decimal (Unicode.ord a) (Unicode.ord b) =
  10 * Datetime.digit_val a + Datetime.digit_val b.
Proof. intros Ha Hb. unfold two. now rewrite !digit_value_ord. Qed.

Lemma strptime_of_string (g1 g2 : string) :
  all_digits g1 = true -> String.length g1 = 8 ->
  all_digits g2 = true -> String.length g2 = 6 ->
  Unicode.strptime decimal (Unicode.of_string g1 ++ Unicode.of_string g2) =
  Datetime.strptime (g1 +:+ g2).
Proof.
  intros Hd1 Hl1 Hd2 Hl2.
  do 8 (destruct g1 as [|? g1]; [discriminate Hl1 |]). destruct g1; [| discriminate Hl1].
  do 6 (destruct g2 as [|? g2]; [discriminate Hl2 |]). destruct g2; [| discriminate Hl2].
  repeat match goal with
         | H : all_digits (String _ _) = true |- _ => apply all_digits_cons in H as [? H]
         end.
  clear Hd1 Hd2 Hl1 Hl2.
  set (st := Stamp.Make (Unicode.ord a) (Unicode.ord a0) (Unicode.ord a1) (Unicode.ord a2)
               (Unicode.ord a3) (Unicode.ord a4) (Unicode.ord a5) (Unicode.ord a6)
               (Unicode.ord a7) (Unicode.ord a8) (Unicode.ord a9) (Unicode.ord a10)
               (Unicode.ord a11) (Unicode.ord a12)).
  change (Unicode.strptime decimal (Stamp.date st ++ Stamp.time st) =
          Datetime.strptime (String a (String a0 (String a1 (String a2 (String a3 (String a4
            (String a5 (String a6 (String a7 (String a8 (String a9 (String a10
            (String a11 (String a12 ""))))))))))))))).
  rewrite (strptime_stamp decimal table).
  2:{ apply all_decimal_check. subst st. unfold Stamp.date, Stamp.time.
      cbn [Stamp.y1 Stamp.y2 Stamp.y3 Stamp.y4 Stamp.m1 Stamp.m2 Stamp.d1 Stamp.d2
           Stamp.h1 Stamp.h2 Stamp.mi1 Stamp.mi2 Stamp.s1 Stamp.s2 app forallb].
      rewrite !is_decimal_ord.
      repeat match goal with H : Datetime.is_digit _ = true |- _ => rewrite H; clear H end.
      reflexivity. }
  unfold Datetime.strptime. cbn [substring].
  rewrite int_of_four, !int_of_two.
  unfold ascii_where_wanted, year_of, month_of, day_of, hour_of, minute_of, second_of.
  subst st.
  cbn [Stamp.y1 Stamp.y2 Stamp.y3 Stamp.y4 Stamp.m1 Stamp.m2 Stamp.d1 Stamp.d2
       Stamp.h1 Stamp.h2 Stamp.mi1 Stamp.mi2 Stamp.s1 Stamp.s2].
  rewrite !two_ord by assumption. rewrite !ascii_digit_ord.
  repeat match goal with H : Datetime.is_digit _ = true |- _ => rewrite H; clear H end.
  cbn [andb orb].
  set (Y := 10 * (10 * (10 * Datetime.digit_val a + Datetime.digit_val a0)
                  + Datetime.digit_val a1) + Datetime.digit_val a2).
  replace (100 * (10 * Datetime.digit_val a + Datetime.digit_val a0)
           + (10 * Datetime.digit_val a1 + Datetime.digit_val a2)) with Y by (subst Y; lia).
  set (m := 10 * Datetime.digit_val a3 + Datetime.digit_val a4).
  set (d := 10 * Datetime.digit_val a5 + Datetime.digit_val a6).
  set (H := 10 * Datetime.digit_val a7 + Datetime.digit_val a8).
  set (Mi := 10 * Datetime.digit_val a9 + Datetime.digit_val a10).
  set (Se := 10 * Datetime.digit_val a11 + Datetime.digit_val a12).
  replace ((1 <=? m) && (m <=? 12) && (1 <=? d) && (d <=? 31) && (H <=? 23) &&
           (Mi <=? 59) && (Se <=? 61) && (1 <=? Y) &&
           (d <=? Datetime.days_in_month Y m) && (Se <=? 59))%nat
    with (calendar_valid Y m d H Mi Se); [reflexivity |].
  unfold calendar_valid. pose proof (days_in_month_le Y m).
  apply eq_true_iff_eq. rewrite !andb_true_iff, !Nat.leb_le. lia.
Qed.

(** On a string, whose characters are below 256, [ListPy.parse_timestamp]
    is [parse_timestamp] on text. *)
Lemma parse_timestamp_of_string (name : string) :
  ListPy.parse_timestamp name = Unicode.parse_timestamp decimal (Unicode.of_string name).
Proof.
  unfold ListPy.parse_timestamp, Unicode.parse_timestamp.
  rewrite re_search_of_string.
  destruct (ListPy.re_search name) as [[g1 g2]|] eqn:E; [| reflexivity].
  apply re_search_some in E as (p & tl & _ & [Hd1 Hl1 Hd2 Hl2 _]).
  cbn [option_map text_pair fst snd].
  now rewrite (strptime_of_string g1 g2 Hd1 Hl1 Hd2 Hl2).
Qed.

End Latin1.

Lemma unicode14_latin1 (c : N) : (128 <= c < 256)%N -> Unicode14.decimal c = None.
Proof.
  intros Hc. unfold Unicode14.decimal, Unicode14.zeros.
  rewrite find_none_all; [reflexivity |].
  constructor.
  - apply andb_false_iff. right. apply N.ltb_ge. lia.
  - repeat constructor; apply andb_false_iff; left; apply N.leb_gt; lia.
Qed.

(** With the digits of Unicode 14.0: what the handlers compute on a
    string is what [parse_timestamp] gives on its text. *)
Lemma parse_timestamp_on_strings (name : string) :
  ListPy.parse_timestamp name =
  Unicode.parse_timestamp Unicode14.decimal (Unicode.of_string name).
Proof. exact (parse_timestamp_of_string _ unicode14_table unicode14_latin1 name). Qed.

(** * Further properties of the handlers *)

(** ** Upload Authorizer: requests with the right secret *)

Section PresignFacts.
Variable BUCKET : string.
Variable API_KEY : string.
Variable aws : aws_client.

Local Abbreviation presign := (Presign.handler BUCKET API_KEY aws).

(** X2.  With the right secret, a request that lacks the [clip] or the
    [thumb] parameter, or has it empty, is answered 400 and nothing is
    signed. *)
Theorem presign_missing_parameter (ev : Presign.event) (w : world) :
  default ∅ (Presign.event_headers ev) !! "x-api-key" = Some API_KEY ->
  Py.truthy_opt_str (default ∅ (Presign.queryStringParameters ev) !! "clip") = false \/
  Py.truthy_opt_str (default ∅ (Presign.queryStringParameters ev) !! "thumb") = false ->
  presign ev w =
    (Ok (Presign.Response 400 Presign.json_headers
           (Presign.error_body "Missing clip or thumb parameter")), w).
Proof.
  intros Hkey Hmiss. unfold Presign.handler.
  rewrite bool_decide_eq_true_2 by exact Hkey. simpl.
  destruct Hmiss as [-> | ->]; [reflexivity | now rewrite orb_true_r].
Qed.

(** X3.  With the right secret and both parameters, the handler signs a
    [put_object] URL for [clips/<clip>] and then one for [thumbs/<thumb>],
    each for 300 seconds, and answers 200 with the two URLs; an exception
    from either signing is not caught. *)
Theorem presign_issues_two_put_urls (ev : Presign.event) (clip thumb : string) (w : world) :
  default ∅ (Presign.event_headers ev) !! "x-api-key" = Some API_KEY ->
  default ∅ (Presign.queryStringParameters ev) !! "clip" = Some clip ->
  default ∅ (Presign.queryStringParameters ev) !! "thumb" = Some thumb ->
  clip <> "" -> thumb <> "" ->
  let sign1 := GeneratePresignedUrl "put_object" BUCKET ("clips/" +:+ clip) 300 in
  let sign2 := GeneratePresignedUrl "put_object" BUCKET ("thumbs/" +:+ thumb) 300 in
  presign ev w =
    match s3_generate_presigned_url aws (calls w) "put_object" BUCKET ("clips/" +:+ clip) 300 with
    | Raise e => (Raise e, World (calls w ++ [sign1]) (stdout w))
    | Ok clip_url =>
        match s3_generate_presigned_url aws (calls w ++ [sign1]) "put_object" BUCKET
                ("thumbs/" +:+ thumb) 300 with
        | Raise e => (Raise e, World (calls w ++ [sign1; sign2]) (stdout w))
        | Ok thumb_url =>
            (Ok (Presign.Response 200 Presign.json_headers
                   (Presign.urls_body clip_url thumb_url)),
             World (calls w ++ [sign1; sign2])
                   (stdout w ++ ["Presigned URLs generated for clip=" +:+ clip +:+
                                 " thumb=" +:+ thumb]))
        end
    end.
Proof.
  intros Hkey Hclip Hthumb Hc Ht sign1 sign2. unfold Presign.handler.
  rewrite bool_decide_eq_true_2 by exact Hkey. simpl negb. cbv iota.
  rewrite Hclip, Hthumb. simpl.
  apply String.eqb_neq in Hc, Ht. rewrite Hc, Ht. simpl. run.
  unfold Presign.PUT_EXPIRY.
  destruct (s3_generate_presigned_url aws (calls w) _ _ _ _) as [u1|e]; [| reflexivity].
  destruct (s3_generate_presigned_url aws (calls w ++ _) _ _ _ _) as [u2|e];
    rewrite <- ?app_assoc; reflexivity.
Qed.

(** X4.  Whatever the event and whatever the services answer, every call
    of the handler is the signing of a [put_object] URL in the bucket for
    300 seconds, and there are at most two: it reads, tags and deletes
    nothing. *)
Theorem presign_only_signs_puts (ev : Presign.event) (w : world) :
  exists l, calls (snd (presign ev w)) = calls w ++ l /\
            Forall (presign_call BUCKET) l /\ length l <= 2.
Proof.
  unfold Presign.handler.
  destruct (negb (bool_decide _)); [exists []; simpl; rewrite app_nil_r; auto |].
  destruct (negb _ || negb _); [exists []; simpl; rewrite app_nil_r; auto |].
  run.
  destruct (s3_generate_presigned_url aws (calls w) _ _ _ _) as [u1|e]; simpl.
  - destruct (s3_generate_presigned_url aws (calls w ++ _) _ _ _ _) as [u2|e]; simpl;
      rewrite <- app_assoc; eexists; (split; [reflexivity |]);
      (split; [repeat constructor; eexists; reflexivity | simpl; lia]).
  - eexists; split; [reflexivity |].
    split; [repeat constructor; eexists; reflexivity | simpl; lia].
Qed.

End PresignFacts.

Lemma presign_missing_parameter_witness :
  Presign.handler Samples.bucket "s3cret" Samples.all_ok
    (Presign.Event (Some {[ "x-api-key" := "s3cret" ]})
                   (Some {[ "clip" := "cam1_20260221_120000.avi"; "thumb" := "" ]}))
    empty_world =
  (Ok (Presign.Response 400 Presign.json_headers
         (Presign.error_body "Missing clip or thumb parameter")), empty_world).
Proof.
  apply presign_missing_parameter; [vm_compute; reflexivity |].
  right. vm_compute. reflexivity.
Defined.

Lemma presign_issues_two_put_urls_witness :
  Presign.handler Samples.bucket "s3cret" Samples.all_ok
    (Presign.Event (Some {[ "x-api-key" := "s3cret" ]})
                   (Some {[ "clip" := "cam1_20260221_120000.avi";
                            "thumb" := "cam1_20260221_120000_thumb.jpg" ]}))
    empty_world =
  (Ok (Presign.Response 200 Presign.json_headers
         (Presign.urls_body
            (Samples.signed "put_object" Samples.bucket "clips/cam1_20260221_120000.avi")
            (Samples.signed "put_object" Samples.bucket
               "thumbs/cam1_20260221_120000_thumb.jpg"))),
   World [GeneratePresignedUrl "put_object" Samples.bucket
            "clips/cam1_20260221_120000.avi" 300;
          GeneratePresignedUrl "put_object" Samples.bucket
            "thumbs/cam1_20260221_120000_thumb.jpg" 300]
         ["Presigned URLs generated for clip=cam1_20260221_120000.avi thumb=cam1_20260221_120000_thumb.jpg"]).
Proof.
  refine (eq_trans
            (presign_issues_two_put_urls Samples.bucket "s3cret" Samples.all_ok _
               "cam1_20260221_120000.avi" "cam1_20260221_120000_thumb.jpg" empty_world
               _ _ _ _ _) _);
    try (vm_compute; reflexivity); discriminate.
Defined.

(** ** More on strings *)

Lemma substring_all (s : string) : substring 0 (String.length s) s = s.
Proof. induction s as [|c s IH]; simpl; [reflexivity | now rewrite IH]. Qed.

Lemma substring_split (s : string) (n : nat) :
  n <= String.length s ->
  s = substring 0 n s +:+ substring n (String.length s - n) s.
Proof.
  revert n. induction s as [|c s IH]; intros n Hn; simpl in Hn.
  - replace n with 0 by lia. reflexivity.
  - destruct n as [|n].
    + change (String c s = "" +:+ substring 0 (String.length (String c s)) (String c s)).
      now rewrite substring_all.
    + simpl. rewrite app_cons. f_equal. apply IH. lia.
Qed.

Lemma substring_skip_more (p s : string) (n m : nat) :
  substring (String.length p + n) m (p +:+ s) = substring n m s.
Proof. induction p as [|c p IH]; [reflexivity | rewrite app_cons; simpl; exact IH]. Qed.

Lemma endswith_inv (s suf : string) :
  Py.endswith s suf = true ->
  s = substring 0 (String.length s - String.length suf) s +:+ suf.
Proof.
  unfold Py.endswith. intros H. apply andb_true_iff in H as [Hl He].
  apply Nat.leb_le in Hl. apply String.eqb_eq in He.
  pose proof (substring_split s (String.length s - String.length suf)) as Hsplit.
  replace (String.length s - (String.length s - String.length suf))
    with (String.length suf) in Hsplit by lia.
  rewrite He in Hsplit. apply Hsplit. lia.
Qed.

Lemma startswith_inv (s p : string) :
  Py.startswith s p = true -> exists r, s = p +:+ r.
Proof.
  unfold Py.startswith. revert s. induction p as [|c p IH]; intros s H.
  - now exists s.
  - destruct s as [|d s]; [discriminate H |]. simpl in H.
    destruct (ascii_dec c d) as [-> |]; [| discriminate H].
    destruct (IH s H) as [r ->]. now exists r.
Qed.

Lemma app_inv_tail_str (a b c : string) : a +:+ c = b +:+ c -> a = b.
Proof.
  revert b. induction a as [|x a IH]; intros [|y b] H.
  - reflexivity.
  - apply (f_equal String.length) in H. rewrite !length_app in H. simpl in H. lia.
  - apply (f_equal String.length) in H. rewrite !length_app in H. simpl in H. lia.
  - rewrite !app_cons in H. injection H as -> H. f_equal. now apply IH.
Qed.

(** A key that [manage.py] accepts is [clips/], a basename, [.avi]: the
    prefix and the suffix do not overlap. *)
Lemma valid_clip_key_shape (key : string) :
  valid_clip_key key = true -> exists base, key = "clips/" +:+ base +:+ ".avi".
Proof.
  unfold valid_clip_key. intros H. apply andb_true_iff in H as [Hs He].
  apply startswith_inv in Hs as [r ->].
  assert (Hr : Py.endswith r ".avi" = true).
  { destruct r as [|a [|b [|c [|d r]]]]; try discriminate He.
    unfold Py.endswith in *. apply andb_true_iff in He as [_ He].
    apply andb_true_iff; split; [reflexivity |].
    rewrite length_app in He.
    replace (String.length "clips/" + String.length (String a (String b (String c (String d r))))
             - String.length ".avi")
      with (String.length "clips/" +
            (String.length (String a (String b (String c (String d r)))) - String.length ".avi"))
      in He by (simpl; lia).
    now rewrite substring_skip_more in He. }
  apply endswith_inv in Hr. rewrite Hr. eexists. reflexivity.
Qed.

(** ** Retention Manager: outcomes of the three actions *)

Section ManageMore.
Variable BUCKET : string.
Variable aws : aws_client.
Variable json_loads : string -> result Manage.json.

Local Abbreviation manage := (Manage.handler BUCKET aws json_loads).

(** X5.  A [keep] ([unkeep]) of a valid clip key writes the tag set
    [keep=true] ([keep=false]) on the clip.  The
    answer is 200 when storage accepts the write; a client error from
    storage is printed and answered 500 with its message; any other
    exception leaves the handler. *)
Theorem keep_outcome (ev : Manage.event) (m : gmap string Manage.json)
    (action value key : string) (w : world) :
  json_loads (Manage.request_text ev) = Ok (Manage.JObj m) ->
  m !! "action" = Some (Manage.JStr action) ->
  (action = "keep" /\ value = "true") \/ (action = "unkeep" /\ value = "false") ->
  m !! "clip_key" = Some (Manage.JStr key) ->
  valid_clip_key key = true ->
  let put := PutObjectTagging BUCKET key [("keep", value)] in
  manage ev w =
    match s3_put_object_tagging aws (calls w) BUCKET key [("keep", value)] with
    | Ok _ =>
        (Ok ok_response,
         World (calls w ++ [put]) (stdout w ++ ["Marked keep=" +:+ value +:+ ": " +:+ key]))
    | Raise (ClientError msg) =>
        (Ok (Manage.Response 500 None (Manage.error_body msg)),
         World (calls w ++ [put])
               (stdout w ++ ["S3 error for " +:+ action +:+ " on " +:+ key +:+ ": " +:+ msg]))
    | Raise e => (Raise e, World (calls w ++ [put]) (stdout w))
    end.
Proof.
  intros Hload Ha Hav Hk Hvalid put.
  apply andb_true_iff in Hvalid as [Hs He].
  rewrite (handler_valid BUCKET aws json_loads ev m (Manage.JStr action) key w);
    [| assumption | assumption | destruct Hav as [[-> _]|[-> _]]; reflexivity
     | assumption | assumption | assumption ].
  unfold Manage.dispatch, Manage.set_keep_tag. run.
  destruct Hav as [[-> ->]|[-> ->]]; simpl;
    destruct (s3_put_object_tagging aws _ BUCKET key _) as [[]|[]]; reflexivity.
Qed.

(** X6.  A [delete] of a valid clip key whose thumbnail probe succeeds
    deletes the clip and its thumbnail in one quiet [delete_objects]
    request, clip first; the outcome is that of the request. *)
Theorem delete_with_thumbnail (ev : Manage.event) (m : gmap string Manage.json)
    (key : string) (w : world) :
  json_loads (Manage.request_text ev) = Ok (Manage.JObj m) ->
  m !! "action" = Some (Manage.JStr "delete") ->
  m !! "clip_key" = Some (Manage.JStr key) ->
  valid_clip_key key = true ->
  s3_head_object aws (calls w) BUCKET (Manage.thumb_key key) = Ok tt ->
  let tk := Manage.thumb_key key in
  let probe := HeadObject BUCKET tk in
  let delete := DeleteObjects BUCKET [key; tk] true in
  manage ev w =
    match s3_delete_objects aws (calls w ++ [probe]) BUCKET [key; tk] true with
    | Ok _ =>
        (Ok ok_response,
         World (calls w ++ [probe; delete]) (stdout w ++ ["Deleted: " +:+ key]))
    | Raise (ClientError msg) =>
        (Ok (Manage.Response 500 None (Manage.error_body msg)),
         World (calls w ++ [probe; delete])
               (stdout w ++ ["S3 error for delete on " +:+ key +:+ ": " +:+ msg]))
    | Raise e => (Raise e, World (calls w ++ [probe; delete]) (stdout w))
    end.
Proof.
  intros Hload Ha Hk Hvalid Hhead tk probe delete.
  apply andb_true_iff in Hvalid as [Hs He].
  rewrite (handler_valid BUCKET aws json_loads ev m (Manage.JStr "delete") key w)
    by (assumption || reflexivity).
  unfold Manage.dispatch, Manage.delete_clip. run. fold tk. fold tk in Hhead.
  rewrite Hhead. simpl. rewrite <- app_assoc. simpl.
  destruct (s3_delete_objects aws _ BUCKET _ true) as [[]|[]]; reflexivity.
Qed.

(** X7.  When the thumbnail probe of a [delete] fails with anything but
    a client error, the exception leaves the handler and no delete
    request is made: the clip stays. *)
Theorem delete_probe_error_propagates (ev : Manage.event) (m : gmap string Manage.json)
    (key : string) (e : exn) (w : world) :
  json_loads (Manage.request_text ev) = Ok (Manage.JObj m) ->
  m !! "action" = Some (Manage.JStr "delete") ->
  m !! "clip_key" = Some (Manage.JStr key) ->
  valid_clip_key key = true ->
  s3_head_object aws (calls w) BUCKET (Manage.thumb_key key) = Raise e ->
  is_ClientError e = false ->
  manage ev w =
    (Raise e, World (calls w ++ [HeadObject BUCKET (Manage.thumb_key key)]) (stdout w)).
Proof.
  intros Hload Ha Hk Hvalid Hhead He.
  apply andb_true_iff in Hvalid as [Hs Hend].
  rewrite (handler_valid BUCKET aws json_loads ev m (Manage.JStr "delete") key w)
    by (assumption || reflexivity).
  unfold Manage.dispatch, Manage.delete_clip. run. rewrite Hhead. simpl.
  rewrite He. simpl. now rewrite He.
Qed.

End ManageMore.

(** X8.  Two clip keys that [manage.py] accepts have the same thumbnail
    key only if they are the same key, and no thumbnail key is itself an
    acceptable clip key. *)
Theorem thumb_key_injective :
  (forall k1 k2,
     valid_clip_key k1 = true -> valid_clip_key k2 = true ->
     Manage.thumb_key k1 = Manage.thumb_key k2 -> k1 = k2) /\
  (forall k, valid_clip_key (Manage.thumb_key k) = false).
Proof.
  split.
  - intros k1 k2 H1 H2 Heq.
    apply valid_clip_key_shape in H1 as [b1 ->].
    apply valid_clip_key_shape in H2 as [b2 ->].
    rewrite !thumb_key_basename in Heq.
    assert (Hb : b1 +:+ "_thumb.jpg" = b2 +:+ "_thumb.jpg").
    { change ("thumbs/" +:+ b1 +:+ "_thumb.jpg")
        with (String "t" (String "h" (String "u" (String "m" (String "b" (String "s"
               (String "/" (b1 +:+ "_thumb.jpg")))))))) in Heq.
      change ("thumbs/" +:+ b2 +:+ "_thumb.jpg")
        with (String "t" (String "h" (String "u" (String "m" (String "b" (String "s"
               (String "/" (b2 +:+ "_thumb.jpg")))))))) in Heq.
      now injection Heq. }
    apply app_inv_tail_str in Hb. now subst.
  - intros k. reflexivity.
Qed.

Section ManageCalls.
Variable BUCKET : string.
Variable aws : aws_client.
Variable json_loads : string -> result Manage.json.

Lemma dispatch_calls (action : Manage.json) (key : string) (w : world) :
  exists l, calls (snd (Manage.dispatch BUCKET aws action key w)) = calls w ++ l /\
            (l = [] \/ manage_calls BUCKET key l).
Proof.
  unfold Manage.dispatch, Manage.set_keep_tag, Manage.delete_clip, manage_calls. run.
  destruct (Manage.eq_str action "keep").
  { eexists. split; [| right; left; reflexivity].
    destruct (s3_put_object_tagging aws _ _ _ _) as [[]|[]]; reflexivity. }
  destruct (Manage.eq_str action "unkeep").
  { eexists. split; [| right; right; left; reflexivity].
    destruct (s3_put_object_tagging aws _ _ _ _) as [[]|[]]; reflexivity. }
  destruct (Manage.eq_str action "delete").
  2:{ exists []. simpl. rewrite app_nil_r. auto. }
  destruct (s3_head_object aws (calls w) BUCKET (Manage.thumb_key key)) as [[]|e]; simpl.
  - eexists. split; [| right; do 4 right; reflexivity].
    rewrite <- app_assoc.
    destruct (s3_delete_objects aws _ _ _ _) as [[]|[]]; reflexivity.
  - destruct (is_ClientError e) eqn:He; simpl.
    + eexists. split; [| right; right; right; right; left; reflexivity].
      rewrite <- app_assoc.
      destruct (s3_delete_objects aws _ _ _ _) as [[]|[]]; reflexivity.
    + rewrite He. simpl. eexists. split; [reflexivity |].
      right; right; right; left; reflexivity.
Qed.

(** X9.  Whatever the request and whatever the services answer, the
    handler either makes no call or makes, for one clip key of the shape
    [clips/*.avi], one of: the tag write [keep=true] or [keep=false] on
    that key, the probe of that clip's thumbnail, or the probe followed
    by one delete request naming the clip alone or the clip and its
    thumbnail.  It signs no URL, lists nothing, and touches no other
    object. *)
Theorem manage_touches_only_clip_and_thumbnail (ev : Manage.event) (w : world) :
  exists l,
    calls (snd (Manage.handler BUCKET aws json_loads ev w)) = calls w ++ l /\
    (l = [] \/ exists key, valid_clip_key key = true /\ manage_calls BUCKET key l).
Proof.
  assert (Hnone : forall (r : result Manage.response * world),
             calls (snd r) = calls w ->
             exists l, calls (snd r) = calls w ++ l /\
                       (l = [] \/ exists key, valid_clip_key key = true /\
                                              manage_calls BUCKET key l)).
  { intros r Hr. exists []. rewrite app_nil_r. auto. }
  unfold Manage.handler, Manage.py_get, Manage.as_str. run.
  destruct (json_loads (Manage.request_text ev)) as [v|e]; simpl.
  2:{ apply Hnone. now destruct (is_JSONDecodeError_or_TypeError e). }
  destruct v; try (apply Hnone; reflexivity). simpl.
  destruct (negb _ || negb _); [apply Hnone; reflexivity |].
  destruct (default Manage.JNull (m !! "clip_key")); try (apply Hnone; reflexivity).
  simpl.
  destruct (Py.startswith s "clips/") eqn:Hs; [| apply Hnone; reflexivity].
  destruct (Py.endswith s ".avi") eqn:He; [| apply Hnone; reflexivity].
  simpl.
  destruct (dispatch_calls (default Manage.JNull (m !! "action")) s w) as (l & Hl & Hc).
  exists l. split.
  - rewrite <- Hl.
    destruct (Manage.dispatch BUCKET aws _ s w) as [[[r|]|e] w1]; reflexivity.
  - destruct Hc as [-> | Hc]; [now left |]. right. exists s. split; [| exact Hc].
    unfold valid_clip_key. now rewrite Hs, He.
Qed.

End ManageCalls.

Lemma keep_outcome_witness :
  ManageSamples.run_request Samples.all_ok
    (ManageSamples.request "unkeep" ManageSamples.clip)
    (Manage.JObj (ManageSamples.parsed "unkeep" ManageSamples.clip)) =
  (Ok ok_response,
   World [PutObjectTagging Samples.bucket ManageSamples.clip [("keep", "false")]]
         ["Marked keep=false: clips/cam1_20260221_120000.avi"]).
Proof.
  refine (eq_trans
            (keep_outcome Samples.bucket Samples.all_ok _ (Manage.Event (Some _))
               (ManageSamples.parsed "unkeep" ManageSamples.clip)
               "unkeep" "false" ManageSamples.clip empty_world _ _ _ _ _) _);
    try (vm_compute; reflexivity).
  right. split; reflexivity.
Defined.

Lemma delete_with_thumbnail_witness :
  ManageSamples.run_request Samples.all_ok
    (ManageSamples.request "delete" ManageSamples.clip)
    (Manage.JObj (ManageSamples.parsed "delete" ManageSamples.clip)) =
  (Ok ok_response,
   World [HeadObject Samples.bucket "thumbs/cam1_20260221_120000_thumb.jpg";
          DeleteObjects Samples.bucket
            [ManageSamples.clip; "thumbs/cam1_20260221_120000_thumb.jpg"] true]
         ["Deleted: clips/cam1_20260221_120000.avi"]).
Proof.
  refine (eq_trans
            (delete_with_thumbnail Samples.bucket Samples.all_ok _ (Manage.Event (Some _))
               (ManageSamples.parsed "delete" ManageSamples.clip)
               ManageSamples.clip empty_world _ _ _ _ _) _);
    vm_compute; reflexivity.
Defined.

Lemma delete_probe_error_propagates_witness :
  ManageSamples.run_request MoreSamples.probe_unreachable
    (ManageSamples.request "delete" ManageSamples.clip)
    (Manage.JObj (ManageSamples.parsed "delete" ManageSamples.clip)) =
  (Raise (OtherException "EndpointConnectionError" "Could not connect to the endpoint URL"),
   World [HeadObject Samples.bucket "thumbs/cam1_20260221_120000_thumb.jpg"] []).
Proof.
  refine (delete_probe_error_propagates Samples.bucket MoreSamples.probe_unreachable _
            (Manage.Event (Some _)) (ManageSamples.parsed "delete" ManageSamples.clip)
            ManageSamples.clip _ empty_world _ _ _ _ _ _);
    vm_compute; reflexivity.
Defined.

(** ** Ingest Notifier: the whole batch *)

Lemma lacks_app (c : ascii) (a b : string) :
  lacks c (a +:+ b) = lacks c a && lacks c b.
Proof.
  unfold lacks. induction a as [|x a IH].
  - reflexivity.
  - rewrite app_cons. simpl. destruct (Ascii.eqb c x); simpl; [reflexivity | exact IH].
Qed.

Lemma split_last_app (sep : ascii) (p name : string) :
  lacks sep name = true ->
  Py.split_last sep (p +:+ String sep name) = name.
Proof.
  intros Hname. induction p as [|c p IH].
  - change ("" +:+ String sep name) with (String sep name). simpl.
    unfold lacks in Hname. apply negb_true_iff in Hname. rewrite Hname.
    now rewrite Ascii.eqb_refl.
  - rewrite app_cons. simpl.
    assert (Hin : existsb (Ascii.eqb sep) (list_ascii_of_string (p +:+ String sep name)) = true).
    { pose proof (lacks_app sep p (String sep name)) as H. unfold lacks in H.
      simpl in H. rewrite Ascii.eqb_refl in H. simpl in H.
      rewrite andb_false_r in H. now apply negb_false_iff in H. }
    now rewrite Hin.
Qed.

Lemma split_first_app (sep : ascii) (d r : string) :
  lacks sep d = true ->
  Py.split_first sep (d +:+ String sep r) = d.
Proof.
  unfold lacks. induction d as [|c d IH]; intros H.
  - change ("" +:+ String sep r) with (String sep r). simpl. now rewrite Ascii.eqb_refl.
  - rewrite app_cons. simpl in *. rewrite Ascii.eqb_sym.
    destruct (Ascii.eqb sep c); [discriminate H |]. simpl in H. now rewrite IH.
Qed.

Section NotifyMore.
Variable BUCKET : string.
Variable ALERT_EMAIL : string.
Variable aws : aws_client.
Variable unquote_plus : string -> string.

Local Abbreviation notify_record := (Notify.notify_record BUCKET ALERT_EMAIL aws unquote_plus).
Local Abbreviation notify_records := (Notify.for_records BUCKET ALERT_EMAIL aws unquote_plus).

(** One record, whatever the services answer. *)
Lemma notify_record_run (r : Notify.record) (w : world) :
  let key := unquote_plus (Notify.object_key r) in
  let clip_name := Py.split_last "/" key in
  let device_id := Py.split_first "_" clip_name in
  let sign := GeneratePresignedUrl "get_object" BUCKET key Notify.GET_EXPIRY in
  notify_record r w =
    if Py.endswith key ".avi" then
      match s3_generate_presigned_url aws (calls w) "get_object" BUCKET key Notify.GET_EXPIRY with
      | Raise e => (Raise e, World (calls w ++ [sign]) (stdout w))
      | Ok url =>
          let subject := Notify.alert_subject device_id in
          let body := Notify.alert_body device_id clip_name url in
          let send := SendEmail ALERT_EMAIL [ALERT_EMAIL] subject body in
          match ses_send_email aws (calls w ++ [sign]) ALERT_EMAIL [ALERT_EMAIL] subject body with
          | Raise e => (Raise e, World (calls w ++ [sign; send]) (stdout w))
          | Ok _ =>
              let tags := [("keep", "false")] in
              (Ok tt,
               World (calls w ++ [sign; send; PutObjectTagging BUCKET key tags])
                 (stdout w ++
                  ["Alert sent for " +:+ clip_name;
                   match s3_put_object_tagging aws (calls w ++ [sign; send]) BUCKET key tags with
                   | Ok _ => "Tagged keep=false: " +:+ key
                   | Raise e => "Warning: could not tag " +:+ key +:+ ": " +:+ str_of_exn e
                   end]))
          end
      end
    else (Ok tt, w).
Proof.
  intros key clip_name device_id sign.
  unfold Notify.notify_record. fold key.
  destruct (Py.endswith key ".avi"); [| reflexivity]. simpl negb. cbv iota.
  fold clip_name device_id. run.
  destruct (s3_generate_presigned_url aws (calls w) _ _ _ _) as [url|e]; [|reflexivity].
  destruct (ses_send_email aws _ _ _ _ _) as [[]|e];
    [| rewrite <- ?app_assoc; reflexivity].
  rewrite <- ?app_assoc. simpl.
  destruct (s3_put_object_tagging aws _ _ _ _) as [[]|e]; simpl;
    rewrite <- ?app_assoc; reflexivity.
Qed.

(** X10.  When signing and mailing never fail, the handler completes
    whatever the tag writes do, and the calls it made are three for each
    record whose key ends in [.avi] and none for the others: as many
    emails, and as many tag writes, as there are such records. *)
Theorem notify_one_alert_per_clip (rs : list Notify.record) (w : world) :
  (forall h key, exists url,
     s3_generate_presigned_url aws h "get_object" BUCKET key Notify.GET_EXPIRY = Ok url) ->
  (forall h subject body,
     ses_send_email aws h ALERT_EMAIL [ALERT_EMAIL] subject body = Ok tt) ->
  exists l out,
    notify_records rs w = (Ok tt, World (calls w ++ l) (stdout w ++ out)) /\
    length l = 3 * length (List.filter (is_avi unquote_plus) rs) /\
    length (List.filter is_SendEmail l) = length (List.filter (is_avi unquote_plus) rs) /\
    length (List.filter is_PutObjectTagging l) = length (List.filter (is_avi unquote_plus) rs).
Proof.
  intros Hsign Hsend. revert w. induction rs as [|r rs IH]; intros w.
  - exists [], []. simpl. rewrite !app_nil_r. destruct w. auto.
  - change (notify_records (r :: rs) w)
      with (bind (notify_record r) (fun _ => notify_records rs) w).
    unfold bind. rewrite notify_record_run.
    assert (Hf : List.filter (is_avi unquote_plus) (r :: rs) =
                 if Py.endswith (unquote_plus (Notify.object_key r)) ".avi"
                 then r :: List.filter (is_avi unquote_plus) rs
                 else List.filter (is_avi unquote_plus) rs) by reflexivity.
    rewrite Hf. clear Hf.
    destruct (Py.endswith (unquote_plus (Notify.object_key r)) ".avi").
    + destruct (Hsign (calls w) (unquote_plus (Notify.object_key r))) as [url ->].
      cbv beta iota zeta. rewrite Hsend.
      match goal with |- context [notify_records rs ?w1] =>
        destruct (IH w1) as (l & out & -> & Hl & Hs & Ht) end.
      simpl calls. simpl stdout.
      eexists (_ :: _ :: _ :: l), (_ :: _ :: out).
      split; [rewrite <- !app_assoc; reflexivity |].
      simpl. rewrite Hl, Hs, Ht. repeat split; lia.
    + destruct (IH w) as (l & out & -> & Hl & Hs & Ht). exists l, out. auto.
Qed.

(** X11.  Whatever the batch and whatever the services answer, every
    call of the handler is, for a key that ends in [.avi]: the signing of
    a 7-day [get_object] URL, an email from and to the alert address, or
    the tag write [keep=false].  It never deletes, never lists, and
    never writes another tag. *)
Theorem notify_calls_invariant (rs : list Notify.record) :
  adds_only (notify_call BUCKET ALERT_EMAIL) (notify_records rs).
Proof.
  induction rs as [|r rs IH]; intros w.
  - exists []. simpl. rewrite app_nil_r. auto.
  - change (notify_records (r :: rs) w)
      with (bind (notify_record r) (fun _ => notify_records rs) w).
    unfold bind. rewrite notify_record_run.
    destruct (Py.endswith (unquote_plus (Notify.object_key r)) ".avi") eqn:Havi.
    2:{ apply IH. }
    destruct (s3_generate_presigned_url aws (calls w) _ _ _ _) as [url|e].
    2:{ eexists. split; [reflexivity |]. repeat constructor. exact Havi. }
    cbv beta iota zeta.
    destruct (ses_send_email aws _ _ _ _ _) as [[]|e].
    2:{ eexists. split; [reflexivity |]. repeat constructor. exact Havi. }
    match goal with |- context [notify_records rs ?w1] =>
      destruct (IH w1) as (l & Hl & Hall) end.
    rewrite Hl. simpl calls. eexists (_ :: _ :: _ :: l).
    split; [rewrite <- !app_assoc; reflexivity |].
    repeat (constructor; [simpl; auto |]). exact Hall.
Qed.

(** X12.  For a key [<dirs>/<device>_<rest>] that ends in [.avi], where
    neither [<device>] nor [<rest>] has a slash and [<device>] has no
    underscore, the email is about the file [<device>_<rest>] and the
    device [<device>]: its subject is [Motion detected — <device>] and
    its body names the file and carries the signed URL. *)
Theorem alert_names_device_and_clip (r : Notify.record) (dirs device rest url : string)
    (w : world) :
  let key := dirs +:+ "/" +:+ device +:+ "_" +:+ rest in
  unquote_plus (Notify.object_key r) = key ->
  Py.endswith key ".avi" = true ->
  lacks "/" device = true -> lacks "/" rest = true -> lacks "_" device = true ->
  s3_generate_presigned_url aws (calls w) "get_object" BUCKET key Notify.GET_EXPIRY = Ok url ->
  exists tl,
    calls (snd (notify_record r w)) =
      calls w ++
      GeneratePresignedUrl "get_object" BUCKET key Notify.GET_EXPIRY ::
      SendEmail ALERT_EMAIL [ALERT_EMAIL] (Notify.alert_subject device)
        (Notify.alert_body device (device +:+ "_" +:+ rest) url) :: tl.
Proof.
  intros key Hkey Havi Hd Hr Hu Hsign.
  rewrite notify_record_run, Hkey. fold key. rewrite Havi, Hsign.
  assert (Hname : Py.split_last "/" key = device +:+ "_" +:+ rest).
  { apply (split_last_app "/" dirs (device +:+ "_" +:+ rest)).
    rewrite lacks_app, Hd. simpl. change ("_" +:+ rest) with (String "_" rest).
    unfold lacks in *. simpl. exact Hr. }
  rewrite Hname.
  change (device +:+ "_" +:+ rest) with (device +:+ String "_" rest).
  rewrite (split_first_app "_" device rest Hu). cbv beta iota zeta.
  destruct (ses_send_email aws _ _ _ _ _) as [[]|e]; simpl; eexists; reflexivity.
Qed.

End NotifyMore.

Lemma notify_one_alert_per_clip_witness :
  exists l out,
    Notify.for_records Samples.bucket NotifySamples.alert_email NotifySamples.tagging_denied
      NotifySamples.unquote_plain MoreSamples.mixed_batch empty_world =
      (Ok tt, World (calls empty_world ++ l) (stdout empty_world ++ out)) /\
    length l = 3 * length (List.filter (is_avi NotifySamples.unquote_plain) MoreSamples.mixed_batch) /\
    length (List.filter is_SendEmail l) =
      length (List.filter (is_avi NotifySamples.unquote_plain) MoreSamples.mixed_batch) /\
    length (List.filter is_PutObjectTagging l) =
      length (List.filter (is_avi NotifySamples.unquote_plain) MoreSamples.mixed_batch).
Proof.
  apply (notify_one_alert_per_clip Samples.bucket NotifySamples.alert_email
           NotifySamples.tagging_denied NotifySamples.unquote_plain
           MoreSamples.mixed_batch empty_world).
  - intros h key. eexists. reflexivity.
  - intros h subject body. reflexivity.
Defined.

Lemma alert_names_device_and_clip_witness :
  exists tl,
    calls (snd (Notify.notify_record Samples.bucket NotifySamples.alert_email
                  Samples.all_ok NotifySamples.unquote_plain
                  (Notify.Record_ NotifySamples.key1) empty_world)) =
      calls empty_world ++
      GeneratePresignedUrl "get_object" Samples.bucket
        ("clips" +:+ "/" +:+ "cam1" +:+ "_" +:+ "20260221_120000.avi") Notify.GET_EXPIRY ::
      SendEmail NotifySamples.alert_email [NotifySamples.alert_email]
        (Notify.alert_subject "cam1")
        (Notify.alert_body "cam1" ("cam1" +:+ "_" +:+ "20260221_120000.avi")
           (Samples.signed "get_object" Samples.bucket NotifySamples.key1)) :: tl.
Proof.
  apply (alert_names_device_and_clip Samples.bucket NotifySamples.alert_email
           Samples.all_ok NotifySamples.unquote_plain
           (Notify.Record_ NotifySamples.key1) "clips" "cam1" "20260221_120000.avi"
           (Samples.signed "get_object" Samples.bucket NotifySamples.key1) empty_world);
    vm_compute; reflexivity.
Defined.

(** ** Calls of a composed computation *)

Lemma adds_only_ret {A} (P : call -> Prop) (a : A) : adds_only P (mret a).
Proof. intros w. exists []. simpl. rewrite app_nil_r. auto. Qed.

Lemma adds_only_bind {A B} (P : call -> Prop) (m : M A) (k : A -> M B) :
  adds_only P m -> (forall a, adds_only P (k a)) -> adds_only P (m ≫= k).
Proof.
  intros Hm Hk w. unfold mbind, M_bind, bind.
  destruct (Hm w) as (l1 & H1 & F1). destruct (m w) as [[a|e] w1]; simpl in H1.
  - destruct (Hk a w1) as (l2 & H2 & F2). exists (l1 ++ l2). split.
    + now rewrite H2, H1, app_assoc.
    + apply Forall_app. auto.
  - exists l1. auto.
Qed.

Lemma adds_only_perform {A} (P : call -> Prop) (c : call) (reply : list call -> result A) :
  P c -> adds_only P (perform c reply).
Proof. intros Hc w. exists [c]. simpl. auto. Qed.

Lemma adds_only_try {A} (P : call -> Prop) (catches : exn -> bool) (body : M A)
    (handler : exn -> M A) :
  adds_only P body -> (forall e, adds_only P (handler e)) ->
  adds_only P (try_except catches body handler).
Proof.
  intros Hb Hh w. unfold try_except.
  destruct (Hb w) as (l1 & H1 & F1). destruct (body w) as [[a|e] w1]; simpl in H1.
  - exists l1. auto.
  - destruct (catches e); [| exists l1; auto].
    destruct (Hh e w1) as (l2 & H2 & F2). exists (l1 ++ l2). split.
    + now rewrite H2, H1, app_assoc.
    + apply Forall_app. auto.
Qed.

(** ** Gallery Lister: what is listed, and how *)

Lemma isoformat_nonempty (dt : datetime) : String.eqb (Datetime.isoformat dt) "" = false.
Proof. reflexivity. Qed.

Lemma timestamp_or_fallback (name : string) (dt : datetime) :
  (let parsed := ListPy.parse_timestamp name in
   if Py.truthy_opt_str parsed then default "" parsed else Datetime.isoformat dt) =
  match ListPy.parse_timestamp name with
  | Some t => t
  | None => Datetime.isoformat dt
  end.
Proof.
  cbv zeta. unfold ListPy.parse_timestamp.
  destruct (ListPy.re_search name) as [[g1 g2]|]; [| reflexivity].
  destruct (Datetime.strptime (g1 +:+ g2)) as [d|]; [| reflexivity].
  unfold Py.truthy_opt_str. now rewrite isoformat_nonempty.
Qed.

Section ListMore.
Variable BUCKET : string.
Variable aws : aws_client.

Local Abbreviation clip_of_object := (ListPy.clip_of_object BUCKET aws).
Local Abbreviation for_objects := (ListPy.for_objects BUCKET aws).
Local Abbreviation for_pages := (ListPy.for_pages BUCKET aws).
Local Abbreviation listing := (ListPy.handler BUCKET aws).

Lemma clip_of_object_fields (obj : s3_object) (w w' : world) (r : option ListPy.clip) :
  clip_of_object obj w = (Ok r, w') ->
  match r with
  | None => is_avi_object obj = false
  | Some c => is_avi_object obj = true /\ clip_from obj c
  end.
Proof.
  unfold ListPy.clip_of_object, is_avi_object.
  destruct (Py.endswith (Key obj) ".avi"); simpl.
  2:{ intros H. injection H as <- <-. reflexivity. }
  unfold mbind, M_bind, bind.
  destruct (generate_presigned_url aws _ _ _ _ w) as [[cu|e] w1]; [| discriminate].
  destruct (ListPy.thumb_url_of BUCKET aws _ w1) as [[tu|e] w2]; [| discriminate].
  destruct (ListPy.read_kept BUCKET aws _ w2) as [[k|e] w3]; [| discriminate].
  intros H. injection H as <- <-. split; [reflexivity |].
  unfold clip_from. simpl. repeat split. apply timestamp_or_fallback.
Qed.

Lemma Forall2_In_r {A B} (R : A -> B -> Prop) (la : list A) (lb : list B) :
  Forall2 R la lb -> forall b, In b lb -> exists a, In a la /\ R a b.
Proof.
  induction 1 as [|a b0 la lb Hab _ IH]; intros b Hb; [destruct Hb |].
  destruct Hb as [<- | Hb]; [exists a; simpl; auto |].
  destruct (IH b Hb) as (a' & Ha' & HR). exists a'. simpl. auto.
Qed.

Lemma for_objects_from (objs : list s3_object) (acc clips : list ListPy.clip)
    (w w' : world) :
  for_objects objs acc w = (Ok clips, w') ->
  exists new, clips = acc ++ new /\
              Forall2 clip_from (List.filter is_avi_object objs) new.
Proof.
  revert acc w. induction objs as [|obj objs IH]; intros acc w; simpl.
  - intros H. injection H as <- <-. exists []. rewrite app_nil_r. auto.
  - unfold mbind, M_bind, bind.
    destruct (clip_of_object obj w) as [[r|e] w1] eqn:E1; [| discriminate].
    apply clip_of_object_fields in E1. intros H. apply IH in H as (new & -> & Hnew).
    destruct r as [c|].
    + destruct E1 as [-> Hc]. exists (c :: new). split.
      * now rewrite <- app_assoc.
      * now constructor.
    + rewrite E1. now exists new.
Qed.

Lemma for_pages_from (pages : list (result page)) (i : nat)
    (acc clips : list ListPy.clip) (w w' : world) :
  for_pages i pages acc w = (Ok clips, w') ->
  exists new, clips = acc ++ new /\
              Forall2 clip_from (List.filter is_avi_object (listed_objects pages)) new.
Proof.
  revert i acc w. induction pages as [|p pages IH]; intros i acc w; simpl.
  - intros H. injection H as <- <-. exists []. rewrite app_nil_r. auto.
  - unfold mbind, M_bind, bind, perform.
    destruct p as [pg|e]; [| discriminate].
    destruct (for_objects _ acc _) as [[clips1|e] w1] eqn:E1; [| discriminate].
    apply for_objects_from in E1 as (new1 & -> & H1).
    intros H. apply IH in H as (new2 & -> & H2).
    exists (new1 ++ new2). split; [now rewrite app_assoc |].
    unfold listed_objects. simpl. rewrite List.filter_app.
    now apply Forall2_app.
Qed.

(** X13.  A successful listing holds one record for each object, of any
    page, whose key ends in [.avi], and no other: the clip keys of the
    body are a rearrangement of those object keys.  Nothing is cut off at
    a page boundary. *)
Theorem listing_complete (w w' : world) (resp : ListPy.response) :
  listing w = (Ok resp, w') ->
  Permutation
    (map Key (List.filter is_avi_object
                (listed_objects (s3_paginate aws (calls w) BUCKET "clips/" 1000))))
    (map ListPy.clip_key (ListPy.body resp)).
Proof.
  intros H. apply (handler_inv BUCKET aws) in H as (clips & Hrun & ->). simpl.
  apply for_pages_from in Hrun as (new & -> & Hnew). simpl.
  rewrite <- (sort_desc_perm new).
  assert (Heq : map Key (List.filter is_avi_object
                  (listed_objects (s3_paginate aws (calls w) BUCKET "clips/" 1000))) =
                map ListPy.clip_key new).
  { induction Hnew as [|obj c objs cs [Hk _] _ IH]; simpl; [reflexivity |].
    now rewrite Hk, IH. }
  now rewrite Heq.
Qed.

(** X14.  Every record of a successful listing comes from a listed object
    whose key ends in [.avi]: it carries that key, the size expression
    over that object's bytes, and as timestamp the one parsed from the
    basename, or the object's [LastModified] when the basename has no
    valid stamp. *)
Theorem listed_clip_fields (w w' : world) (resp : ListPy.response) (c : ListPy.clip) :
  listing w = (Ok resp, w') ->
  In c (ListPy.body resp) ->
  exists obj,
    In obj (listed_objects (s3_paginate aws (calls w) BUCKET "clips/" 1000)) /\
    is_avi_object obj = true /\ clip_from obj c.
Proof.
  intros H Hc. apply (handler_inv BUCKET aws) in H as (clips & Hrun & ->). simpl in Hc.
  apply for_pages_from in Hrun as (new & -> & Hnew). simpl in Hc.
  assert (Hin : In c new).
  { eapply Permutation_in; [symmetry; apply sort_desc_perm | exact Hc]. }
  destruct (Forall2_In_r _ _ _ Hnew c Hin) as (obj & Hobj & Hfrom).
  apply List.filter_In in Hobj as [Hobj Havi]. now exists obj.
Qed.

End ListMore.

Lemma listing_complete_witness :
  Permutation
    (map Key (List.filter is_avi_object
                (listed_objects (s3_paginate ListSamples.gallery (calls empty_world)
                                   Samples.bucket "clips/" 1000))))
    (map ListPy.clip_key (ListPy.body ListSamples.listing)).
Proof.
  exact (listing_complete Samples.bucket ListSamples.gallery empty_world
           ListSamples.final_world ListSamples.listing listing_run).
Defined.

Lemma listed_clip_fields_witness :
  exists obj,
    In obj (listed_objects (s3_paginate ListSamples.gallery (calls empty_world)
                              Samples.bucket "clips/" 1000)) /\
    is_avi_object obj = true /\ clip_from obj ListSamples.clip1.
Proof.
  refine (listed_clip_fields Samples.bucket ListSamples.gallery empty_world
            ListSamples.final_world ListSamples.listing ListSamples.clip1 listing_run _).
  vm_compute. right. left. reflexivity.
Defined.

(** ** Gallery Lister: a tag read that is refused *)

Lemma Forall2_In_l {A B} (R : A -> B -> Prop) (la : list A) (lb : list B) :
  Forall2 R la lb -> forall a, In a la -> exists b, In b lb /\ R a b.
Proof.
  induction 1 as [|a0 b la lb Hab _ IH]; intros a Ha; [destruct Ha |].
  destruct Ha as [<- | Ha]; [exists b; simpl; auto |].
  destruct (IH a Ha) as (b' & Hb' & HR). exists b'. simpl. auto.
Qed.

Section ListTagFailure.
Variable BUCKET : string.
Variable aws : aws_client.

Local Abbreviation listing := (ListPy.handler BUCKET aws).

(** Nothing but a tag read goes wrong: signing a URL never raises, and
    the thumbnail probe and the tag read raise client errors only. *)
Hypothesis signing_succeeds : forall h key, exists url,
  s3_generate_presigned_url aws h "get_object" BUCKET key ListPy.GET_EXPIRY = Ok url.
Hypothesis probe_client_errors : forall h key e,
  s3_head_object aws h BUCKET key = Raise e -> is_ClientError e = true.
Hypothesis tag_client_errors : forall h key e,
  s3_get_object_tagging aws h BUCKET key = Raise e -> is_ClientError e = true.

Lemma read_kept_succeeds (key : string) (w : world) :
  exists k w', ListPy.read_kept BUCKET aws key w = (Ok k, w').
Proof.
  unfold ListPy.read_kept. run.
  destruct (s3_get_object_tagging aws (calls w) BUCKET key) as [t|e] eqn:E.
  - eexists _, _. reflexivity.
  - rewrite (tag_client_errors _ _ _ E). eexists _, _. reflexivity.
Qed.

Lemma thumb_url_of_succeeds (tk : string) (w : world) :
  exists u w', ListPy.thumb_url_of BUCKET aws tk w = (Ok u, w').
Proof.
  unfold ListPy.thumb_url_of. run.
  destruct (s3_head_object aws (calls w) BUCKET tk) as [[]|e] eqn:E.
  - destruct (signing_succeeds (calls w ++ [HeadObject BUCKET tk]) tk) as [u ->].
    eexists _, _. reflexivity.
  - rewrite (probe_client_errors _ _ _ E). eexists _, _. reflexivity.
Qed.

Lemma clip_of_object_succeeds (obj : s3_object) (w : world) :
  exists r w', ListPy.clip_of_object BUCKET aws obj w = (Ok r, w').
Proof.
  unfold ListPy.clip_of_object.
  destruct (negb _); [eexists _, _; reflexivity |].
  unfold mbind, M_bind, bind, generate_presigned_url, perform.
  destruct (signing_succeeds (calls w) (Key obj)) as [cu ->].
  match goal with |- context [ListPy.thumb_url_of BUCKET aws ?tk ?w0] =>
    destruct (thumb_url_of_succeeds tk w0) as (tu & w1 & ->) end.
  match goal with |- context [ListPy.read_kept BUCKET aws ?k ?w0] =>
    destruct (read_kept_succeeds k w0) as (kp & w2 & ->) end.
  eexists _, _. reflexivity.
Qed.

Lemma for_objects_succeeds (objs : list s3_object) (acc : list ListPy.clip) (w : world) :
  exists clips w', ListPy.for_objects BUCKET aws objs acc w = (Ok clips, w').
Proof.
  revert acc w. induction objs as [|obj objs IH]; intros acc w; simpl.
  - eexists _, _. reflexivity.
  - unfold mbind, M_bind, bind.
    destruct (clip_of_object_succeeds obj w) as (r & w1 & ->). apply IH.
Qed.

Lemma for_pages_succeeds (pages : list (result page)) (i : nat)
    (acc : list ListPy.clip) (w : world) :
  Forall delivered pages ->
  exists clips w', ListPy.for_pages BUCKET aws i pages acc w = (Ok clips, w').
Proof.
  intros Hp. revert i acc w. induction Hp as [|p pages [pg ->] _ IH]; intros i acc w; simpl.
  - eexists _, _. reflexivity.
  - unfold mbind, M_bind, bind, perform.
    match goal with |- context [ListPy.for_objects BUCKET aws ?objs acc ?w0] =>
      destruct (for_objects_succeeds objs acc w0) as (cs & w1 & ->) end.
    apply IH.
Qed.

(** C10.  Let every page be delivered, signing never raise, and the
    thumbnail probe and the tag read raise client errors only.  Then the
    listing succeeds with status 200, however many tag reads are refused.
    Every listed object whose key ends in [.avi] has a record in the
    body, under its key; the tags of that key were read during the run,
    and when that read raised, the record says [kept = false].  Moreover
    the whole run, result and calls, is the one against a storage that
    answers a refused tag read with an empty tag set. *)
Theorem tag_read_failure_is_not_fatal (w : world) :
  let pages := s3_paginate aws (calls w) BUCKET "clips/" 1000 in
  Forall delivered pages ->
  exists resp w',
    listing w = (Ok resp, w') /\
    ListPy.statusCode resp = 200%Z /\
    (forall obj, In obj (listed_objects pages) -> is_avi_object obj = true ->
       exists c h tl,
         In c (ListPy.body resp) /\ ListPy.clip_key c = Key obj /\
         calls w' = h ++ GetObjectTagging BUCKET (Key obj) :: tl /\
         (forall e, s3_get_object_tagging aws h BUCKET (Key obj) = Raise e ->
            ListPy.kept c = false)) /\
    listing w = ListPy.handler BUCKET (tag_errors_as_untagged aws) w.
Proof.
  intros pages Hp.
  destruct (for_pages_succeeds pages 0 [] w Hp) as (clips & w' & Hrun).
  exists (ListPy.Response 200 [("Content-Type", "application/json")] (ListPy.sort_desc clips)), w'.
  split.
  { unfold ListPy.handler, mbind, M_bind, bind. fold pages. now rewrite Hrun. }
  split; [reflexivity |]. split.
  2:{ unfold ListPy.handler, mbind, M_bind, bind. simpl.
      now rewrite (for_pages_untagged BUCKET aws). }
  simpl. intros obj Hobj Havi.
  destruct (for_pages_from BUCKET aws _ _ _ _ _ _ Hrun) as (new & -> & Hnew).
  destruct (for_pages_inv BUCKET aws _ _ _ _ _ _ Hrun) as [_ Hread].
  simpl in Hread.
  destruct (Forall2_In_l _ _ _ Hnew obj) as (c & Hc & Hkey & _).
  { apply List.filter_In. now split. }
  destruct (Hread c Hc) as [[] | (h & tl & Hcalls & Hk)].
  exists c, h, tl. rewrite <- Hkey. repeat split.
  - eapply Permutation_in; [apply sort_desc_perm | exact Hc].
  - exact Hcalls.
  - intros e He. now rewrite He in Hk.
Qed.

End ListTagFailure.

Lemma tag_read_failure_is_not_fatal_witness :
  exists resp w',
    ListPy.handler Samples.bucket ListSamples.gallery empty_world = (Ok resp, w') /\
    ListPy.statusCode resp = 200%Z /\
    (forall obj, In obj (listed_objects ListSamples.pages) -> is_avi_object obj = true ->
       exists c h tl,
         In c (ListPy.body resp) /\ ListPy.clip_key c = Key obj /\
         calls w' = h ++ GetObjectTagging Samples.bucket (Key obj) :: tl /\
         (forall e, s3_get_object_tagging ListSamples.gallery h Samples.bucket (Key obj) =
                      Raise e ->
            ListPy.kept c = false)) /\
    ListPy.handler Samples.bucket ListSamples.gallery empty_world =
      ListPy.handler Samples.bucket (tag_errors_as_untagged ListSamples.gallery) empty_world.
Proof.
  apply (tag_read_failure_is_not_fatal Samples.bucket ListSamples.gallery).
  - intros h key. eexists. reflexivity.
  - intros h key e. simpl.
    destruct (String.eqb key _); [discriminate | intros [= <-]; reflexivity].
  - intros h key e. simpl.
    destruct (String.eqb key _); [discriminate |].
    destruct (String.eqb key _); [discriminate | intros [= <-]; reflexivity].
  - repeat constructor; eexists; reflexivity.
Defined.

Lemma startswith_app (a b : string) : Py.startswith (a +:+ b) a = true.
Proof. unfold Py.startswith. apply prefix_correct. apply substring_whole. Qed.

Section ListCalls.
Variable BUCKET : string.
Variable aws : aws_client.

Lemma thumb_url_of_calls (name : string) :
  adds_only (list_call BUCKET)
    (ListPy.thumb_url_of BUCKET aws (ListPy.thumb_key_of name)).
Proof.
  unfold ListPy.thumb_url_of. apply adds_only_try; [| intros; apply adds_only_ret].
  apply adds_only_bind.
  - apply adds_only_perform. repeat split; try reflexivity.
    apply startswith_app.
  - intros _. apply adds_only_bind; [| intros; apply adds_only_ret].
    apply adds_only_perform. repeat split; try reflexivity; auto.
Qed.

Lemma read_kept_calls (key : string) :
  Py.endswith key ".avi" = true ->
  adds_only (list_call BUCKET) (ListPy.read_kept BUCKET aws key).
Proof.
  intros Hkey. unfold ListPy.read_kept.
  apply adds_only_try; [| intros; apply adds_only_ret].
  apply adds_only_bind; [| intros; apply adds_only_ret].
  apply adds_only_perform. repeat split; try reflexivity; auto.
Qed.

Lemma clip_of_object_calls (obj : s3_object) :
  adds_only (list_call BUCKET) (ListPy.clip_of_object BUCKET aws obj).
Proof.
  unfold ListPy.clip_of_object.
  destruct (Py.endswith (Key obj) ".avi") eqn:Havi; simpl; [| apply adds_only_ret].
  apply adds_only_bind; [apply adds_only_perform; repeat split; try reflexivity; auto |]. intros cu.
  apply adds_only_bind; [apply thumb_url_of_calls |]. intros tu.
  apply adds_only_bind; [now apply read_kept_calls |]. intros k.
  apply adds_only_ret.
Qed.

Lemma for_objects_calls (objs : list s3_object) (acc : list ListPy.clip) :
  adds_only (list_call BUCKET) (ListPy.for_objects BUCKET aws objs acc).
Proof.
  revert acc. induction objs as [|obj objs IH]; intros acc; simpl.
  - apply adds_only_ret.
  - apply adds_only_bind; [apply clip_of_object_calls |]. intros r. apply IH.
Qed.

Lemma for_pages_calls (pages : list (result page)) (i : nat) (acc : list ListPy.clip) :
  adds_only (list_call BUCKET) (ListPy.for_pages BUCKET aws i pages acc).
Proof.
  revert i acc. induction pages as [|p pages IH]; intros i acc; simpl.
  - apply adds_only_ret.
  - apply adds_only_bind; [apply adds_only_perform; repeat split; try reflexivity; auto |]. intros pg.
    apply adds_only_bind; [apply for_objects_calls |]. intros clips. apply IH.
Qed.

(** X15.  Whatever the bucket holds and whatever the services answer,
    every call of the handler is a read: a page of the listing under
    [clips/], the signing of a 7-day [get_object] URL, the probe of a key
    under [thumbs/], or the tag read of a key ending in [.avi].  It
    writes no tag, deletes nothing and sends no mail. *)
Theorem listing_is_read_only : adds_only (list_call BUCKET) (ListPy.handler BUCKET aws).
Proof.
  intros w. unfold ListPy.handler. cbv zeta.
  apply (adds_only_bind (list_call BUCKET)
           (ListPy.for_pages BUCKET aws 0 (s3_paginate aws (calls w) BUCKET "clips/" 1000) [])).
  - apply for_pages_calls.
  - intros clips. apply adds_only_ret.
Qed.

Lemma insert_desc_with_timestamp (t : string) (c : ListPy.clip) (l : list ListPy.clip) :
  with_timestamp t (ListPy.insert_desc c l) = with_timestamp t (c :: l).
Proof.
  unfold with_timestamp. induction l as [|d l IH]; [reflexivity |]. simpl.
  destruct (Py.str_lt (ListPy.timestamp c) (ListPy.timestamp d)) eqn:Hlt; [| reflexivity].
  simpl. rewrite IH. simpl.
  destruct (String.eqb_spec (ListPy.timestamp c) t) as [Hc|Hc];
    destruct (String.eqb_spec (ListPy.timestamp d) t) as [Hd|Hd]; try reflexivity.
  rewrite Hc, Hd, str_lt_irrefl in Hlt. discriminate Hlt.
Qed.

Lemma sort_desc_with_timestamp (t : string) (l : list ListPy.clip) :
  with_timestamp t (ListPy.sort_desc l) = with_timestamp t l.
Proof.
  induction l as [|c l IH]; [reflexivity |]. simpl.
  rewrite insert_desc_with_timestamp. unfold with_timestamp in *. simpl. now rewrite IH.
Qed.

(** X16.  The sort is stable: among the clips the loops collected, those
    that share a timestamp come out in the order in which they were
    listed. *)
Theorem equal_timestamps_keep_listing_order (w w' : world) (clips : list ListPy.clip) :
  ListPy.for_pages BUCKET aws 0 (s3_paginate aws (calls w) BUCKET "clips/" 1000) [] w =
    (Ok clips, w') ->
  exists resp,
    ListPy.handler BUCKET aws w = (Ok resp, w') /\
    forall t, with_timestamp t (ListPy.body resp) = with_timestamp t clips.
Proof.
  intros Hrun.
  exists (ListPy.Response 200 [("Content-Type", "application/json")] (ListPy.sort_desc clips)).
  split.
  - unfold ListPy.handler, mbind, M_bind, bind. now rewrite Hrun.
  - intros t. apply sort_desc_with_timestamp.
Qed.

End ListCalls.

Lemma equal_timestamps_keep_listing_order_witness :
  exists resp,
    ListPy.handler Samples.bucket MoreSamples.tie_gallery empty_world =
      (Ok resp, MoreSamples.tie_world) /\
    forall t, with_timestamp t (ListPy.body resp) = with_timestamp t MoreSamples.tie_clips.
Proof.
  apply (equal_timestamps_keep_listing_order Samples.bucket MoreSamples.tie_gallery
           empty_world MoreSamples.tie_world MoreSamples.tie_clips).
  vm_compute. reflexivity.
Defined.

Example tie_order :
  map ListPy.clip_key
    (ListPy.sort_desc MoreSamples.tie_clips) =
  ["clips/cam2_20260221_120000.avi"; "clips/cam1_20260221_120000.avi";
   "clips/cam3_20260220_090000.avi"].
Proof. vm_compute. reflexivity. Qed.

(** ** Timestamps as strings and as dates *)

Lemma ascii_compare_digit_char (a b : nat) :
  Ascii.compare (Datetime.digit_char a) (Datetime.digit_char b) =
  Nat.compare (a mod 10) (b mod 10).
Proof.
  unfold Ascii.compare. rewrite N2Nat.inj_compare.
  change (N.to_nat (N_of_ascii (Datetime.digit_char a)))
    with (nat_of_ascii (Datetime.digit_char a)).
  change (N.to_nat (N_of_ascii (Datetime.digit_char b)))
    with (nat_of_ascii (Datetime.digit_char b)).
  rewrite !digit_char_code.
  destruct (Nat.compare_spec (a mod 10) (b mod 10)).
  - apply Nat.compare_eq_iff. lia.
  - apply Nat.compare_lt_iff. lia.
  - apply Nat.compare_gt_iff. lia.
Qed.

Lemma compare_pad2 (n n' : nat) (x y : string) :
  n < 100 -> n' < 100 ->
  String.compare (Datetime.pad2 n +:+ x) (Datetime.pad2 n' +:+ y) =
  match Nat.compare n n' with
  | Eq => String.compare x y
  | Lt => Lt
  | Gt => Gt
  end.
Proof.
  intros Hn Hn'.
  change (Datetime.pad2 n +:+ x)
    with (String (Datetime.digit_char (n / 10)) (String (Datetime.digit_char n) x)).
  change (Datetime.pad2 n' +:+ y)
    with (String (Datetime.digit_char (n' / 10)) (String (Datetime.digit_char n') y)).
  cbn [String.compare]. rewrite !ascii_compare_digit_char.
  pose proof (two_digits n Hn). pose proof (two_digits n' Hn').
  pose proof (Nat.mod_upper_bound n 10). pose proof (Nat.mod_upper_bound n' 10).
  destruct (Nat.compare_spec ((n / 10) mod 10) ((n' / 10) mod 10));
    destruct (Nat.compare_spec (n mod 10) (n' mod 10));
    destruct (Nat.compare_spec n n'); try reflexivity; exfalso; lia.
Qed.

Lemma compare_pad4 (n n' : nat) (x y : string) :
  n < 100 * 100 -> n' < 100 * 100 ->
  String.compare (Datetime.pad4 n +:+ x) (Datetime.pad4 n' +:+ y) =
  match Nat.compare n n' with
  | Eq => String.compare x y
  | Lt => Lt
  | Gt => Gt
  end.
Proof.
  intros Hn Hn'. unfold Datetime.pad4. rewrite !app_assoc_str.
  assert (n / 100 < 100) by (apply Nat.Div0.div_lt_upper_bound; lia).
  assert (n' / 100 < 100) by (apply Nat.Div0.div_lt_upper_bound; lia).
  pose proof (Nat.mod_upper_bound n 100 ltac:(lia)).
  pose proof (Nat.mod_upper_bound n' 100 ltac:(lia)).
  rewrite compare_pad2 by assumption. rewrite compare_pad2 by assumption.
  pose proof (Nat.div_mod_eq n 100). pose proof (Nat.div_mod_eq n' 100).
  destruct (Nat.compare_spec (n / 100) (n' / 100));
    destruct (Nat.compare_spec (n mod 100) (n' mod 100));
    destruct (Nat.compare_spec n n'); try reflexivity; exfalso; lia.
Qed.

Lemma compare_same_head (c : ascii) (x y : string) :
  String.compare (String c "" +:+ x) (String c "" +:+ y) = String.compare x y.
Proof.
  change (String c "" +:+ x) with (String c x). change (String c "" +:+ y) with (String c y).
  simpl. now rewrite ascii_compare_refl.
Qed.

(** X17.  The order of the timestamp strings is the order of the dates:
    for two date-times written [YYYY-MM-DDTHH:MM:SS+00:00], the first
    string is below the second exactly when the first date-time is the
    earlier one. *)
Theorem timestamp_order_is_chronological (Y m d H Mi S Y' m' d' H' Mi' S' : nat) :
  in_range Y m d H Mi S -> in_range Y' m' d' H' Mi' S' ->
  Py.str_lt (iso_text Y m d H Mi S) (iso_text Y' m' d' H' Mi' S') =
  earlier (Y, m, d, H, Mi, S) (Y', m', d', H', Mi', S').
Proof.
  intros [HY Hm Hd HH HMi HS] [HY' Hm' Hd' HH' HMi' HS'].
  unfold Py.str_lt, String.ltb, iso_text.
  rewrite compare_pad4 by assumption. rewrite compare_same_head.
  rewrite compare_pad2 by assumption. rewrite compare_same_head.
  rewrite compare_pad2 by assumption. rewrite compare_same_head.
  rewrite compare_pad2 by assumption. rewrite compare_same_head.
  rewrite compare_pad2 by assumption. rewrite compare_same_head.
  rewrite compare_pad2 by assumption. rewrite str_compare_refl.
  unfold earlier.
  repeat match goal with
         | |- context [Nat.compare ?a ?b] =>
             destruct (Nat.compare_spec a b);
             [ subst; rewrite ?Nat.ltb_irrefl, ?Nat.eqb_refl; simpl
             | rewrite (proj2 (Nat.ltb_lt a b)) by assumption; reflexivity
             | rewrite (proj2 (Nat.ltb_ge a b)) by lia;
               try rewrite (proj2 (Nat.eqb_neq a b)) by lia; reflexivity ]
         end.
  reflexivity.
Qed.

Lemma timestamp_order_is_chronological_witness :
  Py.str_lt (iso_text 2026 2 21 12 0 0) (iso_text 2026 10 3 9 30 0) =
  earlier (2026, 2, 21, 12, 0, 0) (2026, 10, 3, 9, 30, 0).
Proof.
  apply timestamp_order_is_chronological; constructor; lia.
Defined.

(** ** Gallery Lister: the pages *)

Lemma filter_none {A} (f : A -> bool) (l : list A) :
  Forall (fun a => f a = false) l -> List.filter f l = [].
Proof. induction 1 as [|a l Ha _ IH]; simpl; [reflexivity | now rewrite Ha]. Qed.

Section ListPages.
Variable BUCKET : string.
Variable aws : aws_client.

Local Abbreviation no_fetch := (fun c : call => is_ListObjectsV2 c = false).

Lemma clip_of_object_no_fetch (obj : s3_object) :
  adds_only no_fetch (ListPy.clip_of_object BUCKET aws obj).
Proof.
  unfold ListPy.clip_of_object, ListPy.thumb_url_of, ListPy.read_kept.
  destruct (negb _); [apply adds_only_ret |].
  apply adds_only_bind; [now apply adds_only_perform |]. intros cu.
  apply adds_only_bind.
  { apply adds_only_try; [| intros; apply adds_only_ret].
    apply adds_only_bind; [now apply adds_only_perform |]. intros _.
    apply adds_only_bind; [now apply adds_only_perform | intros; apply adds_only_ret]. }
  intros tu. apply adds_only_bind; [| intros; apply adds_only_ret].
  apply adds_only_try; [| intros; apply adds_only_ret].
  apply adds_only_bind; [now apply adds_only_perform | intros; apply adds_only_ret].
Qed.

Lemma for_objects_no_fetch (objs : list s3_object) (acc : list ListPy.clip) :
  adds_only no_fetch (ListPy.for_objects BUCKET aws objs acc).
Proof.
  revert acc. induction objs as [|obj objs IH]; intros acc; simpl.
  - apply adds_only_ret.
  - apply adds_only_bind; [apply clip_of_object_no_fetch |]. intros r. apply IH.
Qed.

Lemma for_pages_fetches (pages : list (result page)) (i : nat)
    (acc clips : list ListPy.clip) (w w' : world) :
  ListPy.for_pages BUCKET aws i pages acc w = (Ok clips, w') ->
  Forall delivered pages /\
  exists l, calls w' = calls w ++ l /\
            List.filter is_ListObjectsV2 l =
              map (ListObjectsV2 BUCKET "clips/" 1000) (seq i (length pages)).
Proof.
  revert i acc w. induction pages as [|p pages IH]; intros i acc w; simpl.
  - intros H. injection H as <- <-. split; [constructor |].
    exists []. now rewrite app_nil_r.
  - unfold mbind, M_bind, bind, perform.
    destruct p as [pg|e]; [| discriminate].
    match goal with |- context [ListPy.for_objects BUCKET aws ?objs acc ?w0] =>
      destruct (for_objects_no_fetch objs acc w0) as (l1 & Hl1 & F1);
      destruct (ListPy.for_objects BUCKET aws objs acc w0) as [[clips1|e] w1];
      [| discriminate] end.
    simpl in Hl1. intros H. apply IH in H as (Hdel & l2 & Hl2 & Hf2). split.
    + constructor; [now exists pg | exact Hdel].
    + exists (ListObjectsV2 BUCKET "clips/" 1000 i :: l1 ++ l2). split.
      * rewrite Hl2, Hl1, <- !app_assoc. reflexivity.
      * simpl. rewrite List.filter_app, (filter_none _ _ F1), Hf2. reflexivity.
Qed.

(** X18.  A listing succeeds only when every page of the paginator was
    delivered, and then each page was fetched once, in order: a page that
    fails makes the whole request fail rather than shorten the result. *)
Theorem listing_fetches_every_page (w w' : world) (resp : ListPy.response) :
  ListPy.handler BUCKET aws w = (Ok resp, w') ->
  let pages := s3_paginate aws (calls w) BUCKET "clips/" 1000 in
  Forall delivered pages /\
  exists l, calls w' = calls w ++ l /\
            List.filter is_ListObjectsV2 l =
              map (ListObjectsV2 BUCKET "clips/" 1000) (seq 0 (length pages)).
Proof.
  intros H pages. apply (handler_inv BUCKET aws) in H as (clips & Hrun & _).
  exact (for_pages_fetches pages 0 [] clips w w' Hrun).
Qed.

End ListPages.

Lemma listing_fetches_every_page_witness :
  let pages := s3_paginate ListSamples.gallery (calls empty_world) Samples.bucket "clips/" 1000 in
  Forall delivered pages /\
  exists l, calls ListSamples.final_world = calls empty_world ++ l /\
            List.filter is_ListObjectsV2 l =
              map (ListObjectsV2 Samples.bucket "clips/" 1000) (seq 0 (length pages)).
Proof.
  exact (listing_fetches_every_page Samples.bucket ListSamples.gallery empty_world
           ListSamples.final_world ListSamples.listing listing_run).
Defined.

(** ** Ingest Notifier: a file name without underscore *)

Lemma split_first_none (sep : ascii) (s : string) :
  lacks sep s = true -> Py.split_first sep s = s.
Proof.
  unfold lacks. induction s as [|c s IH]; [reflexivity |]. simpl. intros H.
  rewrite Ascii.eqb_sym.
  destruct (Ascii.eqb sep c); [discriminate H |]. simpl in H. now rewrite IH.
Qed.

(** X19.  When the file name of a clip has no underscore, the whole file
    name, extension included, stands for the device: the email's subject
    is [Motion detected — <file name>]. *)
Theorem alert_without_underscore (BUCKET ALERT_EMAIL : string) (aws : aws_client)
    (unquote_plus : string -> string) (r : Notify.record) (dirs name url : string)
    (w : world) :
  let key := dirs +:+ "/" +:+ name in
  unquote_plus (Notify.object_key r) = key ->
  Py.endswith key ".avi" = true ->
  lacks "/" name = true -> lacks "_" name = true ->
  s3_generate_presigned_url aws (calls w) "get_object" BUCKET key Notify.GET_EXPIRY = Ok url ->
  exists tl,
    calls (snd (Notify.notify_record BUCKET ALERT_EMAIL aws unquote_plus r w)) =
      calls w ++
      GeneratePresignedUrl "get_object" BUCKET key Notify.GET_EXPIRY ::
      SendEmail ALERT_EMAIL [ALERT_EMAIL] (Notify.alert_subject name)
        (Notify.alert_body name name url) :: tl.
Proof.
  intros key Hkey Havi Hslash Hunder Hsign.
  rewrite notify_record_run, Hkey. fold key. rewrite Havi, Hsign.
  assert (Hname : Py.split_last "/" key = name)
    by (apply (split_last_app "/" dirs name Hslash)).
  rewrite Hname, (split_first_none "_" name Hunder). cbv beta iota zeta.
  destruct (ses_send_email aws _ _ _ _ _) as [[]|e]; simpl; eexists; reflexivity.
Qed.

Lemma alert_without_underscore_witness :
  exists tl,
    calls (snd (Notify.notify_record Samples.bucket NotifySamples.alert_email
                  Samples.all_ok NotifySamples.unquote_plain
                  (Notify.Record_ "clips/motion.avi") empty_world)) =
      calls empty_world ++
      GeneratePresignedUrl "get_object" Samples.bucket ("clips" +:+ "/" +:+ "motion.avi")
        Notify.GET_EXPIRY ::
      SendEmail NotifySamples.alert_email [NotifySamples.alert_email]
        (Notify.alert_subject "motion.avi")
        (Notify.alert_body "motion.avi" "motion.avi"
           (Samples.signed "get_object" Samples.bucket "clips/motion.avi")) :: tl.
Proof.
  apply (alert_without_underscore Samples.bucket NotifySamples.alert_email
           Samples.all_ok NotifySamples.unquote_plain
           (Notify.Record_ "clips/motion.avi") "clips" "motion.avi"
           (Samples.signed "get_object" Samples.bucket "clips/motion.avi") empty_world);
    vm_compute; reflexivity.
Defined.
